(** * telC speaking backend: session gateway and Gemini adapter

    A shallow embedding of the real-time speaking-exam orchestrator:

    - [GeminiService] (services/gemini.service.ts): the adapter that owns
      one Live-API streaming handle per exam session;
    - [SpeakingService.endSession] (services/speaking.service.ts): the REST
      path that ends a session explicitly;
    - [SpeakingGateway] (speaking.gateway.ts): the socket.io gateway with
      its connection admission, audio ingestion, pause/resume, disconnect
      handling and all timer callbacks.

    Conventions of the embedding.

    - Every handler is a computation in a state-and-exception monad over the
      process state [World]; [try ... catch] is [try_catch].  In the runs
      of [run] a handler is one step: it finishes before the next event is
      handled.  The turns of [turn] also let a connection handler be
      suspended at its first [await], with other handlers running before it
      resumes.
    - Wall-clock time is a [Z] in milliseconds ([Date.now()]); a handler
      reads one instant [now] from its environment [Env].
    - JavaScript objects that are shared by reference (a [SessionContext]
      is reachable from the [sessions] map, from timer closures and from the
      Gemini callbacks) live in [heap] and are named by a [Ref].
    - A JavaScript [Map] is an insertion-ordered association list ([JsMap]).
    - [setTimeout]/[clearTimeout] act on the table [timers] of pending
      timers; a closure passed to [setTimeout] is a [TimerBody].
    - What leaves the process is appended to the trace [out]: socket emits
      and disconnects, rows written to the store, transcripts saved.  The
      calls made on the provider's streaming handle are logged in
      [GeminiService.calls].  Logger calls of the gateway are not modelled. *)

From stdpp Require Import base option list sets strings pretty.
From Stdlib Require Import ZArith Lia.

Set Default Proof Using "Type".

(** ** JavaScript [Map]: insertion-ordered association list *)

Module JsMap.
Section defs.
Context {K V : Type} `{EqDecision K}.

Fixpoint get (k : K) (m : list (K * V)) : option V :=
  match m with
  | [] => None
  | (k', v) :: m' => if decide (k = k') then Some v else get k m'
  end.

Definition has (k : K) (m : list (K * V)) : bool :=
  match get k m with Some _ => true | None => false end.

(** [set] keeps the position of a key that is already present and appends
    a new key at the end. *)
Fixpoint set (k : K) (v : V) (m : list (K * V)) : list (K * V) :=
  match m with
  | [] => [(k, v)]
  | (k', v') :: m' =>
      if decide (k = k') then (k, v) :: m' else (k', v') :: set k v m'
  end.

Fixpoint delete (k : K) (m : list (K * V)) : list (K * V) :=
  match m with
  | [] => []
  | (k', v') :: m' =>
      if decide (k = k') then delete k m' else (k', v') :: delete k m'
  end.

Definition keys (m : list (K * V)) : list K := m.*1.
Definition values (m : list (K * V)) : list V := m.*2.
End defs.
End JsMap.

(** ** Exceptions and state *)

Inductive Result (A : Type) :=
| Ok (a : A)
| Throw (e : string).
Arguments Ok {A} a.
Arguments Throw {A} e.

Definition M (S A : Type) : Type := S → Result A * S.

Section monad.
Context {S : Type}.

#[export] Instance M_ret : MRet (M S) := λ A a s, (Ok a, s).

#[export] Instance M_bind : MBind (M S) := λ A B f m s,
  match m s with
  | (Ok a, s') => f a s'
  | (Throw e, s') => (Throw e, s')
  end.

Definition throw {A} (e : string) : M S A := λ s, (Throw e, s).

Definition try_catch {A} (body : M S A) (handler : string → M S A) : M S A :=
  λ s,
    match body s with
    | (Ok a, s') => (Ok a, s')
    | (Throw e, s') => handler e s'
    end.

Definition gets {A} (f : S → A) : M S A := λ s, (Ok (f s), s).
Definition modify (f : S → S) : M S unit := λ s, (Ok tt, f s).

(** [for (const x of xs) body(x)] *)
Fixpoint for_each {A} (xs : list A) (body : A → M S unit) : M S unit :=
  match xs with
  | [] => mret tt
  | x :: xs' => body x;; for_each xs' body
  end.

Definition when (b : bool) (body : M S unit) : M S unit :=
  if b then body else mret tt.
End monad.

(** Running a computation inside a component of a larger state. *)
Definition zoom {S T A} (proj : T → S) (inj : S → T → T) (m : M S A) : M T A :=
  λ t, let '(r, s') := m (proj t) in (r, inj s' t).

(** ** Shared data types *)

Abbreviation ClientId := string (only parsing).
Abbreviation SessionId := string (only parsing).
Abbreviation TimerId := nat (only parsing).
Abbreviation Ref := nat (only parsing).

(** interfaces/session.interface.ts: [ConversationMessage] *)
Inductive Speaker := elena | student.

Record ConversationMessage := {
  speaker : Speaker;
  text : string;
  timestamp : Z;
}.

(** The closure built by [createGeminiCallbacks(client, context)]: it
    captures the socket and the context object. *)
Record GeminiSessionCallbacks := {
  cb_client : ClientId;
  cb_context : Ref;
}.

(** ** GeminiService (services/gemini.service.ts) *)

Module GeminiService.

Inductive Status := connecting | connected | disconnected.

#[export] Instance Status_eq_dec : EqDecision Status.
Proof. solve_decision. Defined.

(** The provider's [Session] object.  What its methods do is decided by
    the provider: [close_throws] and [send_throws] say whether
    [session.close()] and [session.sendRealtimeInput(..)] throw. *)
Record Session := {
  ws : nat;
  close_throws : option string;
  send_throws : option string;
}.

Record GeminiSessionData := {
  session : Session;
  callbacks : GeminiSessionCallbacks;
  createdAt : Z;
  teilNumber : Z;
  status : Status;
  setupComplete : bool;
}.

(** Calls that leave the service: on the provider handle and on the
    logger (debug lines left out). *)
Inductive Call :=
| SessionClose (handle : nat)
| SendRealtimeInput (handle : nat) (data mimeType : string)
| LoggerLog
| LoggerWarn
| LoggerError.

Record State := {
  promptCache : list (Z * string);
  activeSessions : list (SessionId * GeminiSessionData);
  calls : list Call;
}.

Definition call (c : Call) : M State unit :=
  modify (λ s, {| promptCache := promptCache s;
                  activeSessions := activeSessions s;
                  calls := calls s ++ [c] |}).

Definition activeSessions_set (k : SessionId) (v : GeminiSessionData) : M State unit :=
  modify (λ s, {| promptCache := promptCache s;
                  activeSessions := JsMap.set k v (activeSessions s);
                  calls := calls s |}).

Definition activeSessions_delete (k : SessionId) : M State unit :=
  modify (λ s, {| promptCache := promptCache s;
                  activeSessions := JsMap.delete k (activeSessions s);
                  calls := calls s |}).

Definition getSystemInstruction (teilNumber : Z) : M State string :=
  instruction ← gets (λ s, JsMap.get teilNumber (promptCache s));
  match instruction with
  | Some i =>
      if decide (i = "") then
        throw ("System instruction not found for Teil " +:+ pretty teilNumber)
      else mret i
  | None => throw ("System instruction not found for Teil " +:+ pretty teilNumber)
  end.

(** How the asynchronous setup of [createLiveSession] ends.  The promise
    is settled by the provider's callbacks and by the 10 s setup timer;
    each constructor is one of the orders in which they can run. *)
Inductive SetupOutcome :=
| SetupCompleted (s : Session)
    (* connect resolved, the entry was stored, then setupComplete came *)
| SetupBeforeStore (s : Session)
    (* setupComplete came before [.then] stored the entry: the promise
       resolves, the stored entry keeps setupComplete = false *)
| SetupTimedOut (stored : option Session)
    (* the 10 s timer fired first: the entry is deleted, reject *)
| ClosedDuringSetup (stored : option Session) (code : Z) (reason : string)
    (* onclose before setupComplete: a stored entry becomes
       'disconnected', [callbacks.onClose()], reject *)
| ErrorDuringSetup (stored : option Session) (message : option string)
    (* onerror before setupComplete: [callbacks.onError(..)], reject; a
       stored entry stays as it is *)
| ConnectFailed (e : string).
    (* ai.live.connect rejected *)

(** [createLiveSession].  The service works on its own state through
    [service]; the callbacks it was handed work on the state of their
    owner: [onError callbacks] is [callbacks.onError].
    [callbacks.onClose()] only writes a log line. *)
Definition createLiveSession {W : Type} (service : ∀ A, M State A → M W A)
    (onError : GeminiSessionCallbacks → string → M W unit)
    (outcome : SetupOutcome) (now : Z)
    (sessionId : SessionId) (teil : Z) (cbs : GeminiSessionCallbacks) : M W unit :=
  _ ← service _ (getSystemInstruction teil);
  let sessionData s st done :=
    {| session := s; callbacks := cbs; createdAt := now; teilNumber := teil;
       status := st; setupComplete := done |} in
  match outcome with
  | SetupCompleted s =>
      service _ (activeSessions_set sessionId (sessionData s connected true))
  | SetupBeforeStore s =>
      service _ (activeSessions_set sessionId (sessionData s connecting false))
  | SetupTimedOut stored =>
      service _
        (match stored with
         | Some s => activeSessions_set sessionId (sessionData s connecting false)
         | None => mret tt
         end;;
         call LoggerError;;
         activeSessions_delete sessionId);;
      throw "GEMINI_SETUP_TIMEOUT"
  | ClosedDuringSetup stored code reason =>
      service _
        (match stored with
         | Some s => activeSessions_set sessionId (sessionData s disconnected false)
         | None => mret tt
         end;;
         call LoggerLog);;
      throw ("GEMINI_CLOSED_DURING_SETUP: code=" +:+ pretty code +:+ " reason=" +:+ reason)
  | ErrorDuringSetup stored message =>
      (* e.message || 'GEMINI_LIVE_ERROR' *)
      let text := match message with
                  | Some m => if decide (m = "") then "GEMINI_LIVE_ERROR" else m
                  | None => "GEMINI_LIVE_ERROR"
                  end in
      service _
        (match stored with
         | Some s => activeSessions_set sessionId (sessionData s connecting false)
         | None => mret tt
         end;;
         call LoggerError);;
      onError cbs text;;
      throw text
  | ConnectFailed e =>
      service _ (call LoggerError);;
      throw e
  end.

Definition session_sendRealtimeInput (s : Session) (data mimeType : string) : M State unit :=
  call (SendRealtimeInput (ws s) data mimeType);;
  match send_throws s with
  | Some e => throw e
  | None => mret tt
  end.

Definition session_close (s : Session) : M State unit :=
  call (SessionClose (ws s));;
  match close_throws s with
  | Some e => throw e
  | None => mret tt
  end.

Definition sendAudioChunk (sessionId : SessionId) (audioData mimeType : string) : M State unit :=
  sessionData ← gets (λ s, JsMap.get sessionId (activeSessions s));
  match sessionData with
  | None => throw ("Gemini session not found for sessionId: " +:+ sessionId)
  | Some sessionData =>
      if negb (setupComplete sessionData) then
        throw ("GEMINI_SETUP_NOT_COMPLETE: " +:+ sessionId)
      else session_sendRealtimeInput (session sessionData) audioData mimeType
  end.

Definition closeLiveSession (sessionId : SessionId) : M State unit :=
  try_catch
    (sessionData ← gets (λ s, JsMap.get sessionId (activeSessions s));
     match sessionData with
     | None => call LoggerWarn
     | Some sessionData =>
         try_catch (session_close (session sessionData))
                   (λ closeError, call LoggerWarn);;
         activeSessions_delete sessionId;;
         call LoggerLog
     end)
    (λ error,
       call LoggerError;;
       activeSessions_delete sessionId).

Definition isSessionActive (sessionId : SessionId) (s : State) : bool :=
  match JsMap.get sessionId (activeSessions s) with
  | None => false
  | Some sessionData =>
      setupComplete sessionData && bool_decide (status sessionData = connected)
  end.

(** The provider closes the stream ([onclose] after setup). *)
Definition onclose (sessionId : SessionId) : M State unit :=
  call LoggerLog;;
  data ← gets (λ s, JsMap.get sessionId (activeSessions s));
  match data with
  | Some d =>
      activeSessions_set sessionId
        {| session := session d; callbacks := callbacks d; createdAt := createdAt d;
           teilNumber := teilNumber d; status := disconnected;
           setupComplete := setupComplete d |}
  | None => mret tt
  end.

Definition onModuleDestroy : M State unit :=
  call LoggerLog;;
  ids ← gets (λ s, JsMap.keys (activeSessions s));
  for_each ids closeLiveSession.

End GeminiService.

(** ** The external store (Supabase) as seen by the handlers *)

Module Db.
(** Row of [exam_sessions]. *)
Record ExamSession := {
  session_id : SessionId;
  student_id : string;
  teil_number : Z;
  status : string;
  server_start_time : Z;
  elapsed_time : option Z;
  use_timer : bool;
  pause_timestamp : option Z;
}.

(** Columns of [students] and [activation_codes] that are selected. *)
Record Student := { id : string; activation_code : string }.
Record ActivationCode := { code : string; ac_status : string; expires_at : option Z }.

(** Row of [teil_transcripts] as read back by [endSession]. *)
Record Transcript := { word_count : option Z; history_length : option Z }.

(** Object passed to [.update(..)] on [exam_sessions]; a column that the
    call leaves out or sets to [null] is [None]. *)
Record Update := {
  u_status : string;
  u_completed_at : option Z;
  u_elapsed_time : option Z;
  u_pause_timestamp : option Z;
}.

(** An awaited query: it resolves to [{ data, error }] or rejects. *)
Inductive Query (A : Type) :=
| Resolved (data : option A) (error : option string)
| Rejected (e : string).
Arguments Resolved {A} data error.
Arguments Rejected {A} e.
End Db.

(** ** Token verification (auth/token.service.ts) *)

Module TokenService.
Record AccessTokenPayload := {
  studentId : string;
  isRegistered : bool;
  deviceId : string;
}.

(** [jwt.verify] belongs to a library: it is a parameter. *)
Definition verifyAccessToken (jwt_verify : string → option AccessTokenPayload)
    (token : string) : Result AccessTokenPayload :=
  match jwt_verify token with
  | Some decoded => Ok decoded
  | None => Throw "INVALID_ACCESS_TOKEN"
  end.
End TokenService.

(** ** Session context (interfaces/session.interface.ts) *)

Inductive SessionStatus := active | paused | grace_period | interrupted.

#[export] Instance SessionStatus_eq_dec : EqDecision SessionStatus.
Proof. solve_decision. Defined.

Record SessionContext := mkSessionContext {
  clientId : ClientId;
  sessionId : SessionId;
  studentId : string;
  teilNumber : Z;
  conversationHistory : list ConversationMessage;
  status : SessionStatus;
  startTime : Z;
  elapsedSeconds : Z;
  timeLimit : option Z;
  expectedEndTime : option Z;
  disconnectTimer : option TimerId;
  pauseTimer : option TimerId;
  lastAudioTimestamp : Z;
  pausePending : bool;
  geminiConnectionAttempts : Z;
  lastGeminiError : option string;
  chunkTimestamps : list Z;
  timerHandles : list TimerId;
  pauseGeminiCloseTimer : option TimerId;
}.

(** Field assignments [context.f = v]. *)
Definition set_clientId (v : ClientId) (c : SessionContext) : SessionContext :=
  {| clientId := v; sessionId := sessionId c; studentId := studentId c; teilNumber :=
     teilNumber c; conversationHistory := conversationHistory c; status := status c;
     startTime := startTime c; elapsedSeconds := elapsedSeconds c; timeLimit := timeLimit
     c; expectedEndTime := expectedEndTime c; disconnectTimer := disconnectTimer c;
     pauseTimer := pauseTimer c; lastAudioTimestamp := lastAudioTimestamp c; pausePending
     := pausePending c; geminiConnectionAttempts := geminiConnectionAttempts c;
     lastGeminiError := lastGeminiError c; chunkTimestamps := chunkTimestamps c;
     timerHandles := timerHandles c; pauseGeminiCloseTimer := pauseGeminiCloseTimer c |}.
Definition set_conversationHistory (v : list ConversationMessage) (c : SessionContext) : SessionContext :=
  {| clientId := clientId c; sessionId := sessionId c; studentId := studentId c;
     teilNumber := teilNumber c; conversationHistory := v; status := status c; startTime
     := startTime c; elapsedSeconds := elapsedSeconds c; timeLimit := timeLimit c;
     expectedEndTime := expectedEndTime c; disconnectTimer := disconnectTimer c;
     pauseTimer := pauseTimer c; lastAudioTimestamp := lastAudioTimestamp c; pausePending
     := pausePending c; geminiConnectionAttempts := geminiConnectionAttempts c;
     lastGeminiError := lastGeminiError c; chunkTimestamps := chunkTimestamps c;
     timerHandles := timerHandles c; pauseGeminiCloseTimer := pauseGeminiCloseTimer c |}.
Definition set_status (v : SessionStatus) (c : SessionContext) : SessionContext :=
  {| clientId := clientId c; sessionId := sessionId c; studentId := studentId c;
     teilNumber := teilNumber c; conversationHistory := conversationHistory c; status :=
     v; startTime := startTime c; elapsedSeconds := elapsedSeconds c; timeLimit :=
     timeLimit c; expectedEndTime := expectedEndTime c; disconnectTimer :=
     disconnectTimer c; pauseTimer := pauseTimer c; lastAudioTimestamp :=
     lastAudioTimestamp c; pausePending := pausePending c; geminiConnectionAttempts :=
     geminiConnectionAttempts c; lastGeminiError := lastGeminiError c; chunkTimestamps :=
     chunkTimestamps c; timerHandles := timerHandles c; pauseGeminiCloseTimer :=
     pauseGeminiCloseTimer c |}.
Definition set_startTime (v : Z) (c : SessionContext) : SessionContext :=
  {| clientId := clientId c; sessionId := sessionId c; studentId := studentId c;
     teilNumber := teilNumber c; conversationHistory := conversationHistory c; status :=
     status c; startTime := v; elapsedSeconds := elapsedSeconds c; timeLimit := timeLimit
     c; expectedEndTime := expectedEndTime c; disconnectTimer := disconnectTimer c;
     pauseTimer := pauseTimer c; lastAudioTimestamp := lastAudioTimestamp c; pausePending
     := pausePending c; geminiConnectionAttempts := geminiConnectionAttempts c;
     lastGeminiError := lastGeminiError c; chunkTimestamps := chunkTimestamps c;
     timerHandles := timerHandles c; pauseGeminiCloseTimer := pauseGeminiCloseTimer c |}.
Definition set_elapsedSeconds (v : Z) (c : SessionContext) : SessionContext :=
  {| clientId := clientId c; sessionId := sessionId c; studentId := studentId c;
     teilNumber := teilNumber c; conversationHistory := conversationHistory c; status :=
     status c; startTime := startTime c; elapsedSeconds := v; timeLimit := timeLimit c;
     expectedEndTime := expectedEndTime c; disconnectTimer := disconnectTimer c;
     pauseTimer := pauseTimer c; lastAudioTimestamp := lastAudioTimestamp c; pausePending
     := pausePending c; geminiConnectionAttempts := geminiConnectionAttempts c;
     lastGeminiError := lastGeminiError c; chunkTimestamps := chunkTimestamps c;
     timerHandles := timerHandles c; pauseGeminiCloseTimer := pauseGeminiCloseTimer c |}.
Definition set_expectedEndTime (v : option Z) (c : SessionContext) : SessionContext :=
  {| clientId := clientId c; sessionId := sessionId c; studentId := studentId c;
     teilNumber := teilNumber c; conversationHistory := conversationHistory c; status :=
     status c; startTime := startTime c; elapsedSeconds := elapsedSeconds c; timeLimit :=
     timeLimit c; expectedEndTime := v; disconnectTimer := disconnectTimer c; pauseTimer
     := pauseTimer c; lastAudioTimestamp := lastAudioTimestamp c; pausePending :=
     pausePending c; geminiConnectionAttempts := geminiConnectionAttempts c;
     lastGeminiError := lastGeminiError c; chunkTimestamps := chunkTimestamps c;
     timerHandles := timerHandles c; pauseGeminiCloseTimer := pauseGeminiCloseTimer c |}.
Definition set_disconnectTimer (v : option TimerId) (c : SessionContext) : SessionContext :=
  {| clientId := clientId c; sessionId := sessionId c; studentId := studentId c;
     teilNumber := teilNumber c; conversationHistory := conversationHistory c; status :=
     status c; startTime := startTime c; elapsedSeconds := elapsedSeconds c; timeLimit :=
     timeLimit c; expectedEndTime := expectedEndTime c; disconnectTimer := v; pauseTimer
     := pauseTimer c; lastAudioTimestamp := lastAudioTimestamp c; pausePending :=
     pausePending c; geminiConnectionAttempts := geminiConnectionAttempts c;
     lastGeminiError := lastGeminiError c; chunkTimestamps := chunkTimestamps c;
     timerHandles := timerHandles c; pauseGeminiCloseTimer := pauseGeminiCloseTimer c |}.
Definition set_lastAudioTimestamp (v : Z) (c : SessionContext) : SessionContext :=
  {| clientId := clientId c; sessionId := sessionId c; studentId := studentId c;
     teilNumber := teilNumber c; conversationHistory := conversationHistory c; status :=
     status c; startTime := startTime c; elapsedSeconds := elapsedSeconds c; timeLimit :=
     timeLimit c; expectedEndTime := expectedEndTime c; disconnectTimer :=
     disconnectTimer c; pauseTimer := pauseTimer c; lastAudioTimestamp := v; pausePending
     := pausePending c; geminiConnectionAttempts := geminiConnectionAttempts c;
     lastGeminiError := lastGeminiError c; chunkTimestamps := chunkTimestamps c;
     timerHandles := timerHandles c; pauseGeminiCloseTimer := pauseGeminiCloseTimer c |}.
Definition set_lastGeminiError (v : option string) (c : SessionContext) : SessionContext :=
  {| clientId := clientId c; sessionId := sessionId c; studentId := studentId c;
     teilNumber := teilNumber c; conversationHistory := conversationHistory c; status :=
     status c; startTime := startTime c; elapsedSeconds := elapsedSeconds c; timeLimit :=
     timeLimit c; expectedEndTime := expectedEndTime c; disconnectTimer :=
     disconnectTimer c; pauseTimer := pauseTimer c; lastAudioTimestamp :=
     lastAudioTimestamp c; pausePending := pausePending c; geminiConnectionAttempts :=
     geminiConnectionAttempts c; lastGeminiError := v; chunkTimestamps := chunkTimestamps
     c; timerHandles := timerHandles c; pauseGeminiCloseTimer := pauseGeminiCloseTimer c |}.
Definition set_chunkTimestamps (v : list Z) (c : SessionContext) : SessionContext :=
  {| clientId := clientId c; sessionId := sessionId c; studentId := studentId c;
     teilNumber := teilNumber c; conversationHistory := conversationHistory c; status :=
     status c; startTime := startTime c; elapsedSeconds := elapsedSeconds c; timeLimit :=
     timeLimit c; expectedEndTime := expectedEndTime c; disconnectTimer :=
     disconnectTimer c; pauseTimer := pauseTimer c; lastAudioTimestamp :=
     lastAudioTimestamp c; pausePending := pausePending c; geminiConnectionAttempts :=
     geminiConnectionAttempts c; lastGeminiError := lastGeminiError c; chunkTimestamps :=
     v; timerHandles := timerHandles c; pauseGeminiCloseTimer := pauseGeminiCloseTimer c |}.
Definition set_timerHandles (v : list TimerId) (c : SessionContext) : SessionContext :=
  {| clientId := clientId c; sessionId := sessionId c; studentId := studentId c;
     teilNumber := teilNumber c; conversationHistory := conversationHistory c; status :=
     status c; startTime := startTime c; elapsedSeconds := elapsedSeconds c; timeLimit :=
     timeLimit c; expectedEndTime := expectedEndTime c; disconnectTimer :=
     disconnectTimer c; pauseTimer := pauseTimer c; lastAudioTimestamp :=
     lastAudioTimestamp c; pausePending := pausePending c; geminiConnectionAttempts :=
     geminiConnectionAttempts c; lastGeminiError := lastGeminiError c; chunkTimestamps :=
     chunkTimestamps c; timerHandles := v; pauseGeminiCloseTimer := pauseGeminiCloseTimer
     c |}.
Definition set_pauseGeminiCloseTimer (v : option TimerId) (c : SessionContext) : SessionContext :=
  {| clientId := clientId c; sessionId := sessionId c; studentId := studentId c;
     teilNumber := teilNumber c; conversationHistory := conversationHistory c; status :=
     status c; startTime := startTime c; elapsedSeconds := elapsedSeconds c; timeLimit :=
     timeLimit c; expectedEndTime := expectedEndTime c; disconnectTimer :=
     disconnectTimer c; pauseTimer := pauseTimer c; lastAudioTimestamp :=
     lastAudioTimestamp c; pausePending := pausePending c; geminiConnectionAttempts :=
     geminiConnectionAttempts c; lastGeminiError := lastGeminiError c; chunkTimestamps :=
     chunkTimestamps c; timerHandles := timerHandles c; pauseGeminiCloseTimer := v |}.

(** ** Events sent to a socket, and everything else that leaves the process *)

(** The payloads of the events.  An [error] and a [gemini_error] are
    identified by their [code], and a [session_ready] by all its fields
    but [message]: the free text that these three carry next to it is not
    part of the model. *)
Inductive Payload :=
| connection_error (code : Z) (message : string)
| session_ready (sessionId : SessionId) (teilNumber : Z) (serverStartTime : Z)
    (timeLimit : option Z) (status : string)
| error (code : string)
| gemini_error (code : string)
| time_warning (remainingSeconds : Z) (sessionId : SessionId)
| session_paused (sessionId : SessionId) (elapsedSeconds : Z)
| session_resumed (sessionId : SessionId)
| pause_timeout
| session_ended (reason : string) (sessionId : SessionId)
| audio_response (text audioData audioMimeType : option string) (timestamp : Z).

Inductive Effect :=
| Emit (client : ClientId) (p : Payload)
| SocketDisconnect (client : ClientId)
| UpdateExamSession (session_id : SessionId) (u : Db.Update)
| UpsertTranscript (session_id : SessionId) (conversation_history : list ConversationMessage).

(** ** Timers *)

(** The closures handed to [setTimeout], with what they capture. *)
Inductive TimerBody :=
| graceTimeout (client : ClientId) (context : Ref)
| pauseCloseTimer (client : ClientId) (context : Ref)
| timerWarning (client : ClientId) (context : Ref) (threshold : Z)
| autoEnd (client : ClientId) (context : Ref)
| idleTimeout (context : Ref).

Record Timer := { due : Z; body : TimerBody }.

(** ** Process state *)

(** speaking.service.ts: [SessionState], the service's in-memory entry. *)
Record SessionState := {
  ss_sessionId : SessionId;
  ss_studentId : string;
  ss_teilNumber : Z;
  ss_status : string;
  ss_useTimer : bool;
  ss_timeLimit : option Z;
  ss_serverStartTime : Z;
  ss_elapsedSeconds : Z;
}.

Record World := mkWorld {
  sessions : list (ClientId * Ref);            (* SpeakingGateway.sessions *)
  idleTimeouts : list (ClientId * TimerId);    (* SpeakingGateway.idleTimeouts *)
  heap : list SessionContext;                  (* the SessionContext objects *)
  timers : list (TimerId * Timer);             (* pending setTimeout handles *)
  nextTimer : TimerId;
  connectedSockets : list ClientId;            (* sockets with client.connected *)
  geminiService : GeminiService.State;
  sessionStates : list (SessionId * SessionState);  (* SpeakingService.sessionStates *)
  out : list Effect;
}.

Definition upd_sessions (f : list (ClientId * Ref) → list (ClientId * Ref)) (w : World) : World :=
  {| sessions := f (sessions w); idleTimeouts := idleTimeouts w; heap := heap w; timers
     := timers w; nextTimer := nextTimer w; connectedSockets := connectedSockets w;
     geminiService := geminiService w; sessionStates := sessionStates w; out := out w |}.
Definition upd_idleTimeouts (f : list (ClientId * TimerId) → list (ClientId * TimerId)) (w : World) : World :=
  {| sessions := sessions w; idleTimeouts := f (idleTimeouts w); heap := heap w; timers
     := timers w; nextTimer := nextTimer w; connectedSockets := connectedSockets w;
     geminiService := geminiService w; sessionStates := sessionStates w; out := out w |}.
Definition upd_heap (f : list SessionContext → list SessionContext) (w : World) : World :=
  {| sessions := sessions w; idleTimeouts := idleTimeouts w; heap := f (heap w); timers
     := timers w; nextTimer := nextTimer w; connectedSockets := connectedSockets w;
     geminiService := geminiService w; sessionStates := sessionStates w; out := out w |}.
Definition upd_timers (f : list (TimerId * Timer) → list (TimerId * Timer)) (w : World) : World :=
  {| sessions := sessions w; idleTimeouts := idleTimeouts w; heap := heap w; timers := f
     (timers w); nextTimer := nextTimer w; connectedSockets := connectedSockets w;
     geminiService := geminiService w; sessionStates := sessionStates w; out := out w |}.
Definition upd_nextTimer (f : TimerId → TimerId) (w : World) : World :=
  {| sessions := sessions w; idleTimeouts := idleTimeouts w; heap := heap w; timers :=
     timers w; nextTimer := f (nextTimer w); connectedSockets := connectedSockets w;
     geminiService := geminiService w; sessionStates := sessionStates w; out := out w |}.
Definition upd_connectedSockets (f : list ClientId → list ClientId) (w : World) : World :=
  {| sessions := sessions w; idleTimeouts := idleTimeouts w; heap := heap w; timers :=
     timers w; nextTimer := nextTimer w; connectedSockets := f (connectedSockets w);
     geminiService := geminiService w; sessionStates := sessionStates w; out := out w |}.
Definition upd_geminiService (f : GeminiService.State → GeminiService.State) (w : World) : World :=
  {| sessions := sessions w; idleTimeouts := idleTimeouts w; heap := heap w; timers :=
     timers w; nextTimer := nextTimer w; connectedSockets := connectedSockets w;
     geminiService := f (geminiService w); sessionStates := sessionStates w; out := out w |}.
Definition upd_sessionStates (f : list (SessionId * SessionState) → list (SessionId * SessionState)) (w : World) : World :=
  {| sessions := sessions w; idleTimeouts := idleTimeouts w; heap := heap w; timers :=
     timers w; nextTimer := nextTimer w; connectedSockets := connectedSockets w;
     geminiService := geminiService w; sessionStates := f (sessionStates w); out := out w |}.
Definition upd_out (f : list Effect → list Effect) (w : World) : World :=
  {| sessions := sessions w; idleTimeouts := idleTimeouts w; heap := heap w; timers :=
     timers w; nextTimer := nextTimer w; connectedSockets := connectedSockets w;
     geminiService := geminiService w; sessionStates := sessionStates w; out := f (out w) |}.

(** What the outside world answers during one handler run. *)
Record Env := {
  now : Z;                                                   (* Date.now() *)
  jwt_verify : string → option TokenService.AccessTokenPayload;
  select_exam_session : SessionId → Db.Query Db.ExamSession;
  select_student : string → Db.Query Db.Student;
  select_activation_code : string → Db.Query Db.ActivationCode;
  select_transcript : SessionId → Db.Query Db.Transcript;
  update_exam_session : Db.Query unit;
  upsert_transcript : Db.Query unit;
  gemini_setup : GeminiService.SetupOutcome;
  isValidBase64 : string → bool;   (* Buffer.from(s,'base64').toString('base64') === s *)
}.

(** ** Runtime primitives *)

Definition await {A} (q : Db.Query A) : M World (option A * option string) :=
  match q with
  | Db.Resolved data err => mret (data, err)
  | Db.Rejected e => throw e
  end.

Definition effect (e : Effect) : M World unit :=
  modify (upd_out (λ o, o ++ [e])).

Definition emit (client : ClientId) (p : Payload) : M World unit :=
  effect (Emit client p).

(** [client.disconnect(true)] *)
Definition client_disconnect (client : ClientId) : M World unit :=
  modify (upd_connectedSockets (filter (λ c, c ≠ client)));;
  effect (SocketDisconnect client).

Definition client_connected (client : ClientId) : M World bool :=
  gets (λ w, bool_decide (client ∈ connectedSockets w)).

Definition setTimeout (b : TimerBody) (fireAt : Z) : M World TimerId :=
  t ← gets nextTimer;
  modify (upd_timers (JsMap.set t {| due := fireAt; body := b |}));;
  modify (upd_nextTimer S);;
  mret t.

Definition clearTimeout (t : TimerId) : M World unit :=
  modify (upd_timers (JsMap.delete t)).

(** Object allocation and field access through a reference. *)
Definition alloc (c : SessionContext) : M World Ref :=
  r ← gets (λ w, length (heap w));
  modify (upd_heap (λ h, h ++ [c]));;
  mret r.

Definition read (r : Ref) : M World SessionContext :=
  c ← gets (λ w, heap w !! r);
  match c with
  | Some c => mret c
  | None => throw "TypeError: undefined context"
  end.

Definition assign (r : Ref) (f : SessionContext → SessionContext) : M World unit :=
  c ← read r;
  modify (upd_heap (λ h, <[r := f c]> h)).

Definition gemini {A} (m : M GeminiService.State A) : M World A :=
  zoom geminiService (λ g, upd_geminiService (λ _, g)) m.

(** JavaScript truthiness of a nullable number and of a nullable string. *)
Definition truthy_num (o : option Z) : option Z :=
  match o with
  | Some n => if decide (n = 0%Z) then None else Some n
  | None => None
  end.

Definition truthy_str (o : option string) : option string :=
  match o with
  | Some s => if decide (s = "") then None else Some s
  | None => None
  end.

(** [a || b] on nullable strings. *)
Definition or_str (a b : option string) : option string :=
  match truthy_str a with
  | Some s => Some s
  | None => b
  end.

(** [s.replace(pat, '')]: the first occurrence of [pat] is removed. *)
Fixpoint remove_first (pat s : string) : string :=
  if String.prefix pat s then String.substring (String.length pat) (String.length s) s
  else match s with
       | EmptyString => EmptyString
       | String c s' => String c (remove_first pat s')
       end.

(** [xs.slice(-n)] *)
Definition slice_last {A} (n : nat) (xs : list A) : list A :=
  drop (length xs - n) xs.

(** ** SpeakingService (services/speaking.service.ts) *)

Module SpeakingService.

(** [saveTranscript]: the upsert into [teil_transcripts]; a failure is
    logged and swallowed.  The derived columns (transcript text, word
    count) are left out of the recorded row. *)
Definition saveTranscript (env : Env) (sessionId : SessionId)
    (conversationHistory : list ConversationMessage) : M World unit :=
  try_catch
    (effect (UpsertTranscript sessionId conversationHistory);;
     _ ← await (upsert_transcript env);
     mret tt)
    (λ _, mret tt).

Definition saveConversationHistory (env : Env) (sessionId : SessionId)
    (conversationHistory : list ConversationMessage) : M World unit :=
  try_catch (saveTranscript env sessionId conversationHistory) (λ _, mret tt).

Record EndSessionResponseDto := {
  duration : Z;
  messageCount : Z;
  isEvaluable : bool;
}.

Inductive Reason := completed | cancelled.

(** [endSession]; the word count of the response is not modelled. *)
Definition endSession (env : Env) (sessionId : SessionId) (studentId : string)
    (reason : option Reason)
    (conversationHistory : option (list ConversationMessage)) : M World EndSessionResponseDto :=
  try_catch
    ('(session, fetchError) ← await
        (match select_exam_session env sessionId with
         | Db.Resolved (Some row) err =>
             if decide (Db.student_id row = studentId) then Db.Resolved (Some row) err
             else Db.Resolved None (Some "no rows")
         | q => q
         end);
     match fetchError, session with
     | None, Some session =>
         let startTime := Db.server_start_time session in
         let totalElapsedSeconds :=
           match decide (Db.status session = "paused"), Db.pause_timestamp session with
           | left _, Some pauseTime =>
               (default 0 (Db.elapsed_time session) + (now env - pauseTime) / 1000)%Z
           | _, _ => ((now env - startTime) / 1000)%Z
           end in
         let isEvaluable := bool_decide (120 ≤ totalElapsedSeconds)%Z in
         effect (UpdateExamSession sessionId
                   {| Db.u_status := match reason with
                                     | Some cancelled => "cancelled"
                                     | _ => "completed"
                                     end;
                      Db.u_completed_at := Some (now env);
                      Db.u_elapsed_time := Some totalElapsedSeconds;
                      Db.u_pause_timestamp := None |});;
         '(_, updateError) ← await (update_exam_session env);
         match updateError with
         | Some _ => throw "FAILED_TO_END_SESSION"
         | None =>
             modify (upd_sessionStates (JsMap.delete sessionId));;
             match conversationHistory with
             | Some (m :: ms) =>
                 saveTranscript env sessionId (m :: ms);;
                 mret {| duration := totalElapsedSeconds;
                         messageCount := Z.of_nat (length (m :: ms));
                         isEvaluable := isEvaluable |}
             | _ =>
                 '(transcript, _) ← await (select_transcript env sessionId);
                 mret {| duration := totalElapsedSeconds;
                         messageCount :=
                           match transcript with
                           | Some t => default 0%Z (Db.history_length t)
                           | None => 0%Z
                           end;
                         isEvaluable := isEvaluable |}
             end
         end
     | _, _ => throw "SESSION_NOT_FOUND"
     end)
    (λ e, throw e).

End SpeakingService.

(** speaking.controller.ts: [POST /api/speaking/session/:sessionId/end].
    The controller passes the reason only, never a conversation. *)
Module SpeakingController.
Definition endSession (env : Env) (student : TokenService.AccessTokenPayload)
    (sessionId : SessionId) (reason : option SpeakingService.Reason)
    : M World SpeakingService.EndSessionResponseDto :=
  try_catch
    (SpeakingService.endSession env sessionId (TokenService.studentId student) reason None)
    (λ e, throw e).
End SpeakingController.

(** ** SpeakingGateway (speaking.gateway.ts) *)

Record Handshake := {
  query_sessionId : option string;
  auth_token : option string;
  query_token : option string;
  headers_authorization : option string;
}.

Record Socket := { id : ClientId; handshake : Handshake }.

(** dto/audio-chunk.dto.ts; [data] is [None] when the field is missing or
    is not a string. *)
Record AudioChunkDto := { data : option string; chunk_timestamp : string }.

(** What a Live-API message carries to [onAudioResponse]. *)
Record AudioResponse := {
  r_text : option string;
  r_audioData : option string;
  r_audioMimeType : option string;
}.

Module SpeakingGateway.

Definition sessions_get (client : ClientId) : M World (option Ref) :=
  gets (λ w, JsMap.get client (sessions w)).
Definition sessions_set (client : ClientId) (context : Ref) : M World unit :=
  modify (upd_sessions (JsMap.set client context)).
Definition sessions_delete (client : ClientId) : M World unit :=
  modify (upd_sessions (JsMap.delete client)).

(** [if (idleTimeouts.has(id)) { clearTimeout(idleTimeouts.get(id)); idleTimeouts.delete(id) }] *)
Definition clearIdleTimeout (client : ClientId) : M World unit :=
  t ← gets (λ w, JsMap.get client (idleTimeouts w));
  match t with
  | Some t => clearTimeout t;; modify (upd_idleTimeouts (JsMap.delete client))
  | None => mret tt
  end.

(** [for (const handle of context.timerHandles) clearTimeout(handle); context.timerHandles = []] *)
Definition clearTimerHandles (context : Ref) : M World unit :=
  c ← read context;
  for_each (timerHandles c) clearTimeout;;
  assign context (set_timerHandles []).

(** [if (timer) clearTimeout(timer)] *)
Definition clearTimeout_if (timer : option TimerId) : M World unit :=
  match timer with
  | Some t => clearTimeout t
  | None => mret tt
  end.

(** [if (context.pauseGeminiCloseTimer) { clearTimeout(..); context.pauseGeminiCloseTimer = undefined }] *)
Definition clearPauseGeminiCloseTimer (context : Ref) : M World unit :=
  c ← read context;
  match pauseGeminiCloseTimer c with
  | Some t => clearTimeout t;; assign context (set_pauseGeminiCloseTimer None)
  | None => mret tt
  end.

(** [if (history.length > 0) await speakingService.saveConversationHistory(sessionId, history)] *)
Definition saveIfNonEmpty (env : Env) (sid : SessionId)
    (history : list ConversationMessage) : M World unit :=
  when (0 <? length history) (SpeakingService.saveConversationHistory env sid history).

(** The rejection idiom of [handleConnection]: emit [connection_error],
    then [client.disconnect(true)]. *)
Definition reject (client : ClientId) (code : Z) (message : string) : M World unit :=
  emit client (connection_error code message);;
  client_disconnect client.

(** Scan of [sessions.entries()] in insertion order. *)
Fixpoint find_entry (sid : SessionId) (h : list SessionContext)
    (entries : list (ClientId * Ref)) : option (ClientId * Ref) :=
  match entries with
  | [] => None
  | (client, context) :: rest =>
      match h !! context with
      | Some c =>
          if decide (sessionId c = sid) then Some (client, context)
          else find_entry sid h rest
      | None => find_entry sid h rest
      end
  end.

Definition findSessionBySessionId (sid : SessionId) : M World (option (ClientId * Ref)) :=
  gets (λ w, find_entry sid (heap w) (sessions w)).

(** The value [getElapsedSeconds] returns for a context. *)
Definition elapsed_of (env : Env) (c : SessionContext) : Z :=
  if decide (status c ≠ active) then elapsedSeconds c
  else ((now env - startTime c) / 1000)%Z.

Definition getElapsedSeconds (env : Env) (context : Ref) : M World Z :=
  c ← read context;
  mret (elapsed_of env c).

(** *** Timer set-up and timer callbacks *)

Definition setupTimerWarnings (env : Env) (client : ClientId) (context : Ref) : M World unit :=
  c ← read context;
  match truthy_num (timeLimit c), expectedEndTime c with
  | Some limit, Some _ =>
      for_each [120; 60; 30]%Z (λ threshold,
        let delay := ((limit - threshold) * 1000)%Z in
        if decide (0 < delay)%Z then
          handle ← setTimeout (timerWarning client context threshold) (now env + delay);
          assign context (λ c, set_timerHandles (timerHandles c ++ [handle]) c)
        else mret tt)
  | _, _ => mret tt
  end.

Definition timerWarning_fires (client : ClientId) (context : Ref) (threshold : Z) : M World unit :=
  currentContext ← sessions_get client;
  connected ← client_connected client;
  match currentContext with
  | Some _ =>
      if (connected : bool) then
        c ← read context;
        emit client (time_warning threshold (sessionId c))
      else mret tt
  | None => mret tt
  end.

Definition setupAutoEnd (env : Env) (client : ClientId) (context : Ref) : M World unit :=
  c ← read context;
  match truthy_num (timeLimit c), expectedEndTime c with
  | Some limit, Some _ =>
      let delay := (limit * 1000)%Z in
      handle ← setTimeout (autoEnd client context) (now env + delay);
      assign context (λ c, set_timerHandles (timerHandles c ++ [handle]) c)
  | _, _ => mret tt
  end.

Definition autoEnd_fires (env : Env) (client : ClientId) (context : Ref) : M World unit :=
  try_catch
    (currentContext ← sessions_get client;
     match currentContext with
     | None => mret tt
     | Some currentContext =>
         cur ← read currentContext;
         if bool_decide (status cur ≠ active) && bool_decide (status cur ≠ paused)
         then mret tt
         else
           saveIfNonEmpty env (sessionId cur) (conversationHistory cur);;
           c ← read context;
           effect (UpdateExamSession (sessionId c)
                     {| Db.u_status := "completed";
                        Db.u_completed_at := Some (now env);
                        Db.u_elapsed_time := timeLimit c;
                        Db.u_pause_timestamp := None |});;
           _ ← await (update_exam_session env);
           gemini (GeminiService.closeLiveSession (sessionId c));;
           emit client (session_ended "timer_expired" (sessionId c));;
           sessions_delete client;;
           clearIdleTimeout client;;
           client_disconnect client
     end)
    (λ _, mret tt).

Definition graceTimeout_fires (env : Env) (client : ClientId) (context : Ref) : M World unit :=
  try_catch
    (c ← read context;
     gemini (GeminiService.closeLiveSession (sessionId c));;
     '(session, _) ← await (select_exam_session env (sessionId c));
     match session with
     | Some session =>
         if bool_decide (Db.status session = "active")
            || bool_decide (Db.status session = "paused")
         then
           c ← read context;
           effect (UpdateExamSession (sessionId c)
                     {| Db.u_status := "interrupted";
                        Db.u_completed_at := Some (now env);
                        Db.u_elapsed_time := Some (elapsedSeconds c);
                        Db.u_pause_timestamp := None |});;
           _ ← await (update_exam_session env);
           mret tt
         else mret tt
     | None => mret tt
     end;;
     sessions_delete client)
    (λ _, mret tt).

Definition pauseCloseTimer_fires (client : ClientId) (context : Ref) : M World unit :=
  c ← read context;
  gemini (GeminiService.closeLiveSession (sessionId c));;
  assign context (set_status grace_period);;
  connected ← client_connected client;
  if (connected : bool) then emit client pause_timeout else mret tt.

(** The idle timer only writes a log line. *)
Definition idleTimeout_fires (context : Ref) : M World unit := mret tt.

(** *** Gemini callbacks ([createGeminiCallbacks]) *)

Definition createGeminiCallbacks (client : ClientId) (context : Ref) : GeminiSessionCallbacks :=
  {| cb_client := client; cb_context := context |}.

Definition onAudioResponse (env : Env) (cbs : GeminiSessionCallbacks)
    (response : AudioResponse) : M World unit :=
  connected ← client_connected (cb_client cbs);
  if (connected : bool) then
    emit (cb_client cbs)
      (audio_response (r_text response) (r_audioData response)
         (r_audioMimeType response) (now env));;
    let responseText := default "[Audio response received]" (truthy_str (r_text response)) in
    assign (cb_context cbs) (λ c,
      set_conversationHistory
        (conversationHistory c ++
           [{| speaker := elena; text := responseText; timestamp := now env |}]) c)
  else mret tt.

Definition onError (cbs : GeminiSessionCallbacks) (message : string) : M World unit :=
  connected ← client_connected (cb_client cbs);
  if (connected : bool) then emit (cb_client cbs) (gemini_error "GEMINI_LIVE_ERROR") else mret tt.

(** *** handleConnection *)

(** [auth.token || query.token || headers.authorization?.replace('Bearer ', '')] *)
Definition handshake_token (h : Handshake) : option string :=
  truthy_str
    (or_str (auth_token h)
       (or_str (query_token h)
          (remove_first "Bearer " <$> headers_authorization h))).

(** The object literal of a fresh [SessionContext]. *)
Definition newSessionContext (env : Env) (client : ClientId) (sid : SessionId)
    (examSession : Db.ExamSession) : SessionContext :=
  {| clientId := client;
     sessionId := sid;
     studentId := Db.student_id examSession;
     teilNumber := Db.teil_number examSession;
     conversationHistory := [];
     status := active;
     startTime := Db.server_start_time examSession;
     elapsedSeconds := default 0%Z (truthy_num (Db.elapsed_time examSession));
     timeLimit :=
       if Db.use_timer examSession
       then Some (if decide (Db.teil_number examSession = 1) then 240 else 360)%Z
       else None;
     expectedEndTime :=
       if Db.use_timer examSession
       then Some (Db.server_start_time examSession +
                  (if decide (Db.teil_number examSession = 1) then 240000 else 360000))%Z
       else None;
     disconnectTimer := None;
     pauseTimer := None;
     lastAudioTimestamp := now env;
     pausePending := false;
     geminiConnectionAttempts := 1;
     lastGeminiError := None;
     chunkTimestamps := [];
     timerHandles := [];
     pauseGeminiCloseTimer := None |}.

(** Reconnection during the grace period: the context moves to the new
    socket. *)
Definition reconnect (env : Env) (client : ClientId) (sid : SessionId)
    (oldClientId : ClientId) (existingContext : Ref) (t : TimerId) : M World unit :=
  clearTimeout t;;
  assign existingContext (set_disconnectTimer None);;
  clearIdleTimeout oldClientId;;
  assign existingContext (set_clientId client);;
  assign existingContext (set_status active);;
  assign existingContext (set_lastAudioTimestamp (now env));;
  sessions_delete oldClientId;;
  sessions_set client existingContext;;
  c ← read existingContext;
  emit client
    (session_ready sid (teilNumber c) (startTime c) (timeLimit c) "reconnected").

(** Steps 7 and 8 of a first connection: [session_ready] is emitted and,
    for a timed session, the warning and auto-end timers are set up. *)
Definition sessionReady (env : Env) (client : ClientId) (sid : SessionId)
    (examSession : Db.ExamSession) (sessionContext : Ref) : M World unit :=
  c ← read sessionContext;
  emit client
    (session_ready sid (Db.teil_number examSession)
       (Db.server_start_time examSession) (timeLimit c) "ready");;
  match truthy_num (timeLimit c), expectedEndTime c with
  | Some _, Some _ =>
      setupTimerWarnings env client sessionContext;;
      setupAutoEnd env client sessionContext
  | _, _ => mret tt
  end.

(** Steps 1 to 8 of a first connection, after the registry lookup found
    nothing. *)
Definition firstConnection (env : Env) (client : ClientId) (sid : SessionId)
    (authenticatedStudentId : string) : M World unit :=
  '(examSession, sessionError) ← await (select_exam_session env sid);
  match sessionError, examSession with
  | None, Some examSession =>
      if decide (Db.status examSession ≠ "active") then
        reject client 4002 ("Invalid session status: " +:+ Db.status examSession)
      else if decide (Db.student_id examSession ≠ authenticatedStudentId) then
        reject client 4010 "Session does not belong to authenticated student"
      else
        '(studentRow, studentError) ← await (select_student env (Db.student_id examSession));
        match studentError, studentRow with
        | None, Some studentRow =>
            '(activationCode, acError) ←
               await (select_activation_code env (Db.activation_code studentRow));
            match acError, activationCode with
            | None, Some activationCode =>
                if decide (Db.ac_status activationCode ≠ "active") then
                  reject client 4004 "No active activation code"
                else if match Db.expires_at activationCode with
                        | Some e => bool_decide (e < now env)%Z
                        | None => false
                        end
                then reject client 4005 "Activation code expired"
                else
                  sessionContext ← alloc (newSessionContext env client sid examSession);
                  created ← try_catch
                    (GeminiService.createLiveSession (@gemini) onError
                       (gemini_setup env) (now env) sid (Db.teil_number examSession)
                       (createGeminiCallbacks client sessionContext);;
                     mret true)
                    (λ geminiError,
                       reject client 4007 "Gemini API initialization failed";;
                       mret false);
                  if (created : bool) then
                    isActive ← gets (λ w, GeminiService.isSessionActive sid (geminiService w));
                    if (isActive : bool) then
                      sessions_set client sessionContext;;
                      sessionReady env client sid examSession sessionContext
                    else reject client 4007 "Gemini session initialization failed"
                  else mret tt
            | _, _ => reject client 4004 "No active activation code"
            end
        | _, _ => reject client 4003 "Student validation failed"
        end
  | _, _ => reject client 4001 "Session not found"
  end.

Definition handleConnection (env : Env) (client : Socket) : M World unit :=
  try_catch
    (match truthy_str (query_sessionId (handshake client)) with
     | None => reject (id client) 4001 "Missing sessionId"
     | Some sid =>
         match handshake_token (handshake client) with
         | None => reject (id client) 4008 "Authentication required"
         | Some token =>
             match TokenService.verifyAccessToken (jwt_verify env) token with
             | Throw _ => reject (id client) 4009 "Invalid or expired token"
             | Ok studentPayload =>
                 let authenticatedStudentId := TokenService.studentId studentPayload in
                 existingEntry ← findSessionBySessionId sid;
                 match existingEntry with
                 | Some (oldClientId, existingContext) =>
                     existing ← read existingContext;
                     match disconnectTimer existing with
                     | Some t =>
                         if decide (studentId existing ≠ authenticatedStudentId) then
                           reject (id client) 4010
                             "Session does not belong to authenticated student"
                         else reconnect env (id client) sid oldClientId existingContext t
                     | None => reject (id client) 4006 "Session already connected"
                     end
                 | None => firstConnection env (id client) sid authenticatedStudentId
                 end
             end
         end
     end)
    (λ _, reject (id client) 5000 "Unexpected server error").

(** *** handleConnection, turn by turn

    [handleConnection] is an [async] method.  The runtime runs it up to
    its first [await] in one turn of the event loop, and what follows in
    later turns; other handlers run in between.  The first [await] is the
    query for the stored row, which comes after the registry lookup:
    [handleConnection_begin] is the handler up to that point.  It returns
    what the suspended handler keeps in its local variables, or nothing
    when the handler has returned already.  [handleConnection_resume] is
    the handler from that [await] on, under the same [try ... catch]. *)

Definition handleConnection_begin (env : Env) (client : Socket)
    : M World (option (SessionId * string)) :=
  try_catch
    (match truthy_str (query_sessionId (handshake client)) with
     | None => reject (id client) 4001 "Missing sessionId";; mret None
     | Some sid =>
         match handshake_token (handshake client) with
         | None => reject (id client) 4008 "Authentication required";; mret None
         | Some token =>
             match TokenService.verifyAccessToken (jwt_verify env) token with
             | Throw _ => reject (id client) 4009 "Invalid or expired token";; mret None
             | Ok studentPayload =>
                 let authenticatedStudentId := TokenService.studentId studentPayload in
                 existingEntry ← findSessionBySessionId sid;
                 match existingEntry with
                 | Some (oldClientId, existingContext) =>
                     existing ← read existingContext;
                     match disconnectTimer existing with
                     | Some t =>
                         if decide (studentId existing ≠ authenticatedStudentId) then
                           reject (id client) 4010
                             "Session does not belong to authenticated student";;
                           mret None
                         else
                           reconnect env (id client) sid oldClientId existingContext t;;
                           mret None
                     | None =>
                         reject (id client) 4006 "Session already connected";; mret None
                     end
                 | None => mret (Some (sid, authenticatedStudentId))
                 end
             end
         end
     end)
    (λ _, reject (id client) 5000 "Unexpected server error";; mret None).

Definition handleConnection_resume (env : Env) (client : ClientId) (sid : SessionId)
    (authenticatedStudentId : string) : M World unit :=
  try_catch (firstConnection env client sid authenticatedStudentId)
    (λ _, reject client 5000 "Unexpected server error").

(** *** handleDisconnect *)

Definition handleDisconnect (env : Env) (client : ClientId) : M World unit :=
  try_catch
    (context ← sessions_get client;
     match context with
     | None => mret tt
     | Some context =>
         c ← read context;
         clearTimeout_if (disconnectTimer c);;
         clearTimeout_if (pauseTimer c);;
         clearTimerHandles context;;
         clearPauseGeminiCloseTimer context;;
         clearIdleTimeout client;;
         saveIfNonEmpty env (sessionId c) (conversationHistory c);;
         elapsed ← getElapsedSeconds env context;
         assign context (set_elapsedSeconds elapsed);;
         assign context (set_status grace_period);;
         graceTimeout ← setTimeout (graceTimeout client context) (now env + 5000);
         assign context (set_disconnectTimer (Some graceTimeout))
     end)
    (λ _, mret tt).

(** *** handleAudioChunk *)

Definition MAX_AUDIO_CHUNK_SIZE : Z := (100 * 1024)%Z.

(** What follows the rate limiter: the Gemini check, the forwarding and
    the idle timer. *)
Definition forwardAudio (env : Env) (client : ClientId) (context : Ref)
    (audio : string) : M World unit :=
  c ← read context;
  isActive ← gets (λ w, GeminiService.isSessionActive (sessionId c) (geminiService w));
  if negb isActive then emit client (error "GEMINI_SESSION_NOT_FOUND")
  else
    forwarded ← try_catch
      (gemini (GeminiService.sendAudioChunk (sessionId c) audio "audio/pcm;rate=16000");;
       mret true)
      (λ geminiError,
         assign context (set_lastGeminiError (Some geminiError));;
         assign context (set_status interrupted);;
         emit client (gemini_error "AUDIO_FORWARD_FAILED");;
         try_catch
           (c ← read context;
            saveIfNonEmpty env (sessionId c) (conversationHistory c);;
            elapsed ← getElapsedSeconds env context;
            effect (UpdateExamSession (sessionId c)
                      {| Db.u_status := "interrupted";
                         Db.u_completed_at := Some (now env);
                         Db.u_elapsed_time := Some elapsed;
                         Db.u_pause_timestamp := None |});;
            _ ← await (update_exam_session env);
            mret tt)
           (λ dbError, mret tt);;
         mret false);
    if (forwarded : bool) then
      idle ← setTimeout (idleTimeout context) (now env + 60000);
      modify (upd_idleTimeouts (JsMap.set client idle))
    else mret tt.

(** The rate limiter: at most 50 chunks in the trailing second. *)
Definition rateLimit (env : Env) (client : ClientId) (context : Ref)
    (audio : string) : M World unit :=
  c ← read context;
  let recentChunks := filter (λ t, now env - t < 1000)%Z (chunkTimestamps c) in
  if decide (50 ≤ length recentChunks) then
    emit client (error "RATE_LIMIT_EXCEEDED")
  else
    assign context (λ c, set_chunkTimestamps (chunkTimestamps c ++ [now env]) c);;
    c ← read context;
    when (bool_decide (100 < length (chunkTimestamps c)))
      (assign context (set_chunkTimestamps (slice_last 100 (chunkTimestamps c))));;
    forwardAudio env client context audio.

Definition handleAudioChunk (env : Env) (client : ClientId) (payload : AudioChunkDto)
    : M World unit :=
  try_catch
    (context ← sessions_get client;
     match context with
     | None => emit client (error "SESSION_NOT_FOUND")
     | Some context =>
         c ← read context;
         if decide (status c ≠ active) then emit client (error "SESSION_NOT_ACTIVE")
         else
           assign context (set_lastAudioTimestamp (now env));;
           clearIdleTimeout client;;
           match truthy_str (data payload) with
           | None => emit client (error "INVALID_AUDIO_FORMAT")
           | Some audio =>
               if negb (isValidBase64 env audio) then emit client (error "INVALID_BASE64")
               else if decide (MAX_AUDIO_CHUNK_SIZE < Z.of_nat (String.length audio))%Z then
                 emit client (error "AUDIO_CHUNK_TOO_LARGE")
               else rateLimit env client context audio
           end
     end)
    (λ _, emit client (error "INTERNAL_ERROR")).

(** *** handlePauseSession *)

Definition handlePauseSession (env : Env) (client : ClientId) : M World unit :=
  try_catch
    (context ← sessions_get client;
     match context with
     | None => emit client (error "SESSION_NOT_FOUND")
     | Some context =>
         c ← read context;
         if decide (status c ≠ active) then emit client (error "INVALID_SESSION_STATE")
         else
           clearIdleTimeout client;;
           when (0 <? length (timerHandles c)) (clearTimerHandles context);;
           assign context (set_status paused);;
           elapsed ← getElapsedSeconds env context;
           assign context (set_elapsedSeconds elapsed);;
           c ← read context;
           effect (UpdateExamSession (sessionId c)
                     {| Db.u_status := "paused";
                        Db.u_completed_at := None;
                        Db.u_elapsed_time := Some (elapsedSeconds c);
                        Db.u_pause_timestamp := Some (now env) |});;
           '(_, err) ← await (update_exam_session env);
           match err with
           | Some _ => emit client (error "DATABASE_ERROR")
           | None =>
               pauseClose ← setTimeout (pauseCloseTimer client context) (now env + 60000);
               assign context (set_pauseGeminiCloseTimer (Some pauseClose));;
               emit client (session_paused (sessionId c) (elapsedSeconds c))
           end
     end)
    (λ _, emit client (error "PAUSE_FAILED")).

(** *** handleResumeSession *)

Definition handleResumeSession (env : Env) (client : ClientId) : M World unit :=
  try_catch
    (context ← sessions_get client;
     match context with
     | None => emit client (error "SESSION_NOT_FOUND")
     | Some context =>
         c ← read context;
         if bool_decide (status c ≠ paused) && bool_decide (status c ≠ grace_period)
         then emit client (error "INVALID_SESSION_STATE")
         else
           clearPauseGeminiCloseTimer context;;
           geminiActive ← gets (λ w, GeminiService.isSessionActive (sessionId c) (geminiService w));
           reinitialized ←
             (if (geminiActive : bool) then mret true
              else
                try_catch
                  (c ← read context;
                   GeminiService.createLiveSession (@gemini) onError
                     (gemini_setup env) (now env) (sessionId c) (teilNumber c)
                     (createGeminiCallbacks client context);;
                   mret true)
                  (λ reinitError,
                     emit client (error "GEMINI_REINIT_FAILED");;
                     mret false));
           if (reinitialized : bool) then
             assign context (set_status active);;
             assign context (set_lastAudioTimestamp (now env));;
             c ← read context;
             let pauseDuration := elapsedSeconds c in
             assign context (set_startTime (now env - pauseDuration * 1000)%Z);;
             clearTimerHandles context;;
             c ← read context;
             match truthy_num (timeLimit c), expectedEndTime c with
             | Some limit, Some _ =>
                 assign context (set_expectedEndTime (Some (startTime c + limit * 1000)%Z));;
                 setupTimerWarnings env client context;;
                 setupAutoEnd env client context
             | _, _ => mret tt
             end;;
             effect (UpdateExamSession (sessionId c)
                       {| Db.u_status := "active";
                          Db.u_completed_at := None;
                          Db.u_elapsed_time := None;
                          Db.u_pause_timestamp := None |});;
             _ ← await (update_exam_session env);
             emit client (session_resumed (sessionId c))
           else mret tt
     end)
    (λ _, emit client (error "RESUME_FAILED")).

(** *** onModuleDestroy *)

Definition onModuleDestroy : M World unit :=
  idle ← gets (λ w, JsMap.values (idleTimeouts w));
  for_each idle clearTimeout;;
  modify (upd_idleTimeouts (λ _, []));;
  contexts ← gets (λ w, JsMap.values (sessions w));
  for_each contexts (λ context,
    c ← read context;
    clearTimeout_if (disconnectTimer c);;
    clearTimeout_if (pauseTimer c);;
    clearTimeout_if (pauseGeminiCloseTimer c);;
    for_each (timerHandles c) clearTimeout);;
  sessionIds ← gets (λ w, omap (λ context, sessionId <$> heap w !! context)
                             (JsMap.values (sessions w)));
  for_each sessionIds (λ sid,
    try_catch (gemini (GeminiService.closeLiveSession sid)) (λ _, mret tt));;
  modify (upd_sessions (λ _, [])).

End SpeakingGateway.

(** ** Events of the process and their dispatch *)

Inductive Event :=
| Connection (client : Socket)
| Disconnection (client : ClientId)
| AudioChunk (client : ClientId) (payload : AudioChunkDto)
| PauseSession (client : ClientId)
| ResumeSession (client : ClientId)
| TimerFires (t : TimerId)
| GeminiAudioResponse (sessionId : SessionId) (response : AudioResponse)
| GeminiClosed (sessionId : SessionId)
| EndSession (student : TokenService.AccessTokenPayload) (sessionId : SessionId)
    (reason : option SpeakingService.Reason)
| ModuleDestroy.

Definition run_timer (env : Env) (b : TimerBody) : M World unit :=
  match b with
  | graceTimeout client context => SpeakingGateway.graceTimeout_fires env client context
  | pauseCloseTimer client context => SpeakingGateway.pauseCloseTimer_fires client context
  | timerWarning client context threshold =>
      SpeakingGateway.timerWarning_fires client context threshold
  | autoEnd client context => SpeakingGateway.autoEnd_fires env client context
  | idleTimeout context => SpeakingGateway.idleTimeout_fires context
  end.

(** A pending timer fires once its delay has elapsed; firing removes it
    from the timer table. *)
Definition fire (env : Env) (t : TimerId) : M World unit :=
  timer ← gets (λ w, JsMap.get t (timers w));
  match timer with
  | Some timer =>
      if decide (due timer ≤ now env)%Z then
        clearTimeout t;;
        run_timer env (body timer)
      else mret tt
  | None => mret tt
  end.

Definition dispatch (env : Env) (ev : Event) : M World unit :=
  match ev with
  | Connection client =>
      modify (upd_connectedSockets (λ cs, cs ++ [id client]));;
      SpeakingGateway.handleConnection env client
  | Disconnection client =>
      modify (upd_connectedSockets (filter (λ c, c ≠ client)));;
      SpeakingGateway.handleDisconnect env client
  | AudioChunk client payload => SpeakingGateway.handleAudioChunk env client payload
  | PauseSession client => SpeakingGateway.handlePauseSession env client
  | ResumeSession client => SpeakingGateway.handleResumeSession env client
  | TimerFires t => fire env t
  | GeminiAudioResponse sid response =>
      entry ← gets (λ w, JsMap.get sid (GeminiService.activeSessions (geminiService w)));
      match entry with
      | Some entry => SpeakingGateway.onAudioResponse env (GeminiService.callbacks entry) response
      | None => mret tt
      end
  | GeminiClosed sid => gemini (GeminiService.onclose sid)
  | EndSession studentPayload sid reason =>
      try_catch (_ ← SpeakingController.endSession env studentPayload sid reason; mret tt)
                (λ _, mret tt)
  | ModuleDestroy =>
      SpeakingGateway.onModuleDestroy;;
      gemini GeminiService.onModuleDestroy
  end.

Definition step (w : World) (e : Env * Event) : World :=
  (dispatch e.1 e.2 w).2.

Definition run (w : World) (es : list (Env * Event)) : World :=
  foldl step w es.

(** The process after start-up: the prompts are loaded, nothing else. *)
Definition initial (prompts : list (Z * string)) : World :=
  {| sessions := []; idleTimeouts := []; heap := []; timers := []; nextTimer := 0;
     connectedSockets := [];
     geminiService := {| GeminiService.promptCache := prompts;
                         GeminiService.activeSessions := [];
                         GeminiService.calls := [] |};
     sessionStates := []; out := [] |}.

Definition reachable (w : World) : Prop :=
  ∃ prompts es, w = run (initial prompts) es.

(** The window kept by the rate limiter: at most the last 100 arrivals. *)
Definition keep100 (l : list Z) : list Z :=
  if bool_decide (100 < length l) then slice_last 100 l else l.

(** The upserts of [saveIfNonEmpty]. *)
Definition flush (sid : SessionId) (history : list ConversationMessage) : list Effect :=
  if 0 <? length history then [UpsertTranscript sid history] else [].

(** The row written when a session is marked interrupted. *)
Definition interrupted_row (env : Env) (elapsed : Z) : Db.Update :=
  {| Db.u_status := "interrupted"; Db.u_completed_at := Some (now env);
     Db.u_elapsed_time := Some elapsed; Db.u_pause_timestamp := None |}.

(** The row written by the auto-end timer. *)
Definition completed_row (env : Env) (elapsed : option Z) : Db.Update :=
  {| Db.u_status := "completed"; Db.u_completed_at := Some (now env);
     Db.u_elapsed_time := elapsed; Db.u_pause_timestamp := None |}.

(** The timer table after [clearTimeout_if]. *)
Definition clear_if (timer : option TimerId) (tm : list (TimerId * Timer)) : list (TimerId * Timer) :=
  match timer with
  | Some t => JsMap.delete t tm
  | None => tm
  end.

(** The state after [clearIdleTimeout client]. *)
Definition clear_idle (client : ClientId) (w : World) : World :=
  match JsMap.get client (idleTimeouts w) with
  | Some t => upd_idleTimeouts (JsMap.delete client) (upd_timers (JsMap.delete t) w)
  | None => w
  end.

(** The timer table after [clearTimeout] on each handle of [l]. *)
Definition clear_all (l : list TimerId) (tm : list (TimerId * Timer)) : list (TimerId * Timer) :=
  foldl (λ tm t, JsMap.delete t tm) tm l.

(** ** The single-flight invariant *)

(** The exam-session ids of the registered contexts, in registry order. *)
Definition ids (h : list SessionContext) (entries : list (ClientId * Ref)) : list SessionId :=
  omap (λ e, sessionId <$> h !! e.2) entries.

Definition registered_ids (w : World) : list SessionId :=
  ids (heap w) (sessions w).

(** No exam-session id is registered twice, and every registry entry
    points to a context object. *)
Definition single_flight (w : World) : Prop :=
  NoDup (registered_ids w) ∧ Forall (λ e, e.2 < length (heap w)) (sessions w).

(** [evolves w w']: from [w] to [w'] no registry entry was added, and every
    context object kept its exam-session id. *)
Definition evolves (w w' : World) : Prop :=
  sessions w' `sublist_of` sessions w
  ∧ ∀ r c, heap w !! r = Some c → ∃ c', heap w' !! r = Some c' ∧ sessionId c' = sessionId c.

(** A computation that only lets the state evolve. *)
Definition pres {A} (m : M World A) : Prop := ∀ w, evolves w (m w).2.

(** A property of states that survives every evolution. *)
Definition stable (P : World → Prop) : Prop := ∀ w w', evolves w w' → P w → P w'.

(** Started in a state with [P], the computation ends in a single-flight
    state, whether it returns or throws. *)
Definition keeps (P : World → Prop) {A} (m : M World A) : Prop :=
  ∀ w, P w → single_flight (m w).2.

(** The state in which a first connection for [sid] runs: the lookup found
    no registered context with that id. *)
Definition unregistered (sid : SessionId) (w : World) : Prop :=
  single_flight w ∧ sid ∉ registered_ids w.

(** The same, once the context object [r] for [sid] has been created. *)
Definition allocated (sid : SessionId) (r : Ref) (w : World) : Prop :=
  unregistered sid w ∧ sessionId <$> heap w !! r = Some sid.

(** ** Connection handlers that overlap

    The turns of the event loop when connection handlers may be suspended
    at their first [await]: a connection arrives and its handler runs up
    to that [await]; the query of a suspended handler resolves and the
    handler runs on; or any event is handled as in [dispatch].  The later
    [await]s of a resumed handler are not split: a schedule of these turns
    is a schedule of the program in which nothing else happens to run
    during them. *)

Inductive Turn :=
| Arrives (client : Socket)
| Resolves (client : ClientId)
| Handles (ev : Event).

Record Overlap := {
  world : World;
  suspended : list (ClientId * (SessionId * string));
}.

Definition turn (o : Overlap) (e : Env * Turn) : Overlap :=
  match e.2 with
  | Arrives client =>
      let res := (modify (upd_connectedSockets (λ cs, cs ++ [id client]));;
                  SpeakingGateway.handleConnection_begin e.1 client) (world o) in
      {| world := res.2;
         suspended := match res.1 with
                      | Ok (Some locals) => JsMap.set (id client) locals (suspended o)
                      | _ => suspended o
                      end |}
  | Resolves client =>
      match JsMap.get client (suspended o) with
      | Some (sid, authenticatedStudentId) =>
          {| world := (SpeakingGateway.handleConnection_resume e.1 client sid
                         authenticatedStudentId (world o)).2;
             suspended := JsMap.delete client (suspended o) |}
      | None => o
      end
  | Handles ev => {| world := step (world o) (e.1, ev); suspended := suspended o |}
  end.

Definition turns (o : Overlap) (es : list (Env * Turn)) : Overlap :=
  foldl turn o es.

(** ** Concrete sessions

    A small cast used to run the handlers on concrete inputs: the student
    [anna] owns exam session "exam-1" (Teil 1, timed, started at instant 0);
    [bert] is another student. *)

Module Scenario.
Definition prompts : list (Z * string) :=
  [(1, "teil-1-examiner"); (2, "teil-2-examiner"); (3, "teil-3-examiner")]%Z.

Definition handle : GeminiService.Session :=
  {| GeminiService.ws := 1; GeminiService.close_throws := None;
     GeminiService.send_throws := None |}.

Definition anna : TokenService.AccessTokenPayload :=
  {| TokenService.studentId := "anna"; TokenService.isRegistered := true;
     TokenService.deviceId := "phone" |}.

Definition bert : TokenService.AccessTokenPayload :=
  {| TokenService.studentId := "bert"; TokenService.isRegistered := true;
     TokenService.deviceId := "laptop" |}.

(** The stored row of "exam-1", with the given [elapsed_time] column. *)
Definition exam (elapsed : option Z) : Db.ExamSession :=
  {| Db.session_id := "exam-1"; Db.student_id := "anna"; Db.teil_number := 1;
     Db.status := "active"; Db.server_start_time := 0; Db.elapsed_time := elapsed;
     Db.use_timer := true; Db.pause_timestamp := None |}.

(** The outside world at instant [t]: the store holds [row] for "exam-1"
    and nothing for any other id; every write succeeds; the provider
    completes the set-up. *)
Definition env (row : option Db.ExamSession) (t : Z) : Env :=
  {| now := t;
     jwt_verify := λ token,
       if decide (token = "anna-token") then Some anna
       else if decide (token = "bert-token") then Some bert
       else None;
     select_exam_session := λ sid,
       match row with
       | Some r => if decide (sid = "exam-1") then Db.Resolved (Some r) None
                   else Db.Resolved None (Some "no rows")
       | None => Db.Resolved None (Some "no rows")
       end;
     select_student := λ sid,
       Db.Resolved (Some {| Db.id := sid; Db.activation_code := "CODE-1" |}) None;
     select_activation_code := λ code,
       Db.Resolved (Some {| Db.code := code; Db.ac_status := "active";
                            Db.expires_at := None |}) None;
     select_transcript := λ _, Db.Resolved None None;
     update_exam_session := Db.Resolved None None;
     upsert_transcript := Db.Resolved None None;
     gemini_setup := GeminiService.SetupCompleted handle;
     isValidBase64 := λ _, true |}.

Definition socket (client : ClientId) (token : string) (sid : option string) : Socket :=
  {| id := client;
     handshake := {| query_sessionId := sid; auth_token := Some token;
                     query_token := None; headers_authorization := None |} |}.

Definition hello : AudioResponse :=
  {| r_text := Some "Guten Tag"; r_audioData := None; r_audioMimeType := None |}.

(** anna connects at instant 0 and is admitted. *)
Definition joined (elapsed : option Z) : World :=
  run (initial prompts)
    [(env (Some (exam elapsed)) 0, Connection (socket "c1" "anna-token" (Some "exam-1")))].

(** A second socket of anna asks for "exam-1" while the handler of the
    first is suspended at the query for the row; then both queries
    resolve. *)
Definition overlapped : Overlap :=
  turns {| world := initial prompts; suspended := [] |}
    [(env (Some (exam None)) 0, Arrives (socket "c1" "anna-token" (Some "exam-1")));
     (env (Some (exam None)) 0, Arrives (socket "c2" "anna-token" (Some "exam-1")));
     (env (Some (exam None)) 0, Resolves "c1");
     (env (Some (exam None)) 0, Resolves "c2")].

(** The same two connections, the second after the handler of the first
    has finished. *)
Definition one_after_the_other : World :=
  run (joined None)
    [(env (Some (exam None)) 0, Connection (socket "c2" "anna-token" (Some "exam-1")))].

(** The examiner has spoken once. *)
Definition greeted : World :=
  run (joined None) [(env (Some (exam None)) 500, GeminiAudioResponse "exam-1" hello)].

(** anna pauses 20 s after admission; the stored elapsed time was 100 s. *)
Definition paused_at_100 : World :=
  run (joined (Some 100%Z)) [(env (Some (exam (Some 100%Z))) 20000, PauseSession "c1")].

(** The context of "exam-1" in [paused_at_100]. *)
Definition paused_context : SessionContext :=
  {| clientId := "c1"; sessionId := "exam-1"; studentId := "anna"; teilNumber := 1;
     conversationHistory := []; status := paused; startTime := 0;
     elapsedSeconds := 100; timeLimit := Some 240%Z; expectedEndTime := Some 240000%Z;
     disconnectTimer := None; pauseTimer := None; lastAudioTimestamp := 0;
     pausePending := false; geminiConnectionAttempts := 1; lastGeminiError := None;
     chunkTimestamps := []; timerHandles := []; pauseGeminiCloseTimer := Some 4 |}.

(** anna pauses after 100 s of activity in a session stored with no
    elapsed time. *)
Definition paused_after_100s : World :=
  run (joined None) [(env (Some (exam None)) 100000, PauseSession "c1")].

(** The pause of [paused_after_100s] lasts more than 60 s: the
    pause timer (handle 4) fires. *)
Definition pause_expired : World :=
  run paused_after_100s [(env (Some (exam None)) 160000, TimerFires 4)].

Definition chunk : AudioChunkDto :=
  {| data := Some "AAAA"; chunk_timestamp := "1970-01-01T00:00:01.000Z" |}.



(** anna's socket drops 100 s after the greeting. *)
Definition dropped : World :=
  run greeted [(env (Some (exam None)) 100500, Disconnection "c1")].

(** The context of "exam-1" right after admission. *)
Definition joined_context : SessionContext :=
  Eval vm_compute in
    match heap (joined None) !! 0 with Some c => c | None => paused_context end.

Definition greeted_context : SessionContext :=
  Eval vm_compute in
    match heap greeted !! 0 with Some c => c | None => paused_context end.

Definition dropped_context : SessionContext :=
  Eval vm_compute in
    match heap dropped !! 0 with Some c => c | None => paused_context end.

(** After the greeting anna pauses at 100 s and resumes at 130 s. *)
Definition resumed : World :=
  run greeted [(env (Some (exam None)) 100000, PauseSession "c1");
               (env (Some (exam None)) 130000, ResumeSession "c1")].

Definition resumed_context : SessionContext :=
  Eval vm_compute in
    match heap resumed !! 0 with Some c => c | None => paused_context end.

(** The paused session of [paused_after_100s] with its registry entry
    gone while the pause timer (handle 4) is still pending. *)
Definition orphaned : World :=
  upd_sessions (JsMap.delete "c1") paused_after_100s.

Definition orphaned_context : SessionContext :=
  Eval vm_compute in
    match heap orphaned !! 0 with Some c => c | None => paused_context end.
End Scenario.

(** ** GeminiService: start-up *)

Module GeminiStartup.
Import GeminiService.

Definition promptCache_set (k : Z) (v : string) : M State unit :=
  modify (λ s, {| promptCache := JsMap.set k v (promptCache s);
                  activeSessions := activeSessions s;
                  calls := calls s |}).

(** [loadPrompts]; [readFile n] stands for
    [fs.readFileSync('.../teil-n-examiner.txt', 'utf-8')]: the content of
    the file, or the error it throws. *)
Definition loadPrompts (readFile : Z → Result string) : M State unit :=
  for_each [1; 2; 3]%Z (λ teilNumber,
    try_catch
      (match readFile teilNumber with
       | Ok prompt => promptCache_set teilNumber prompt
       | Throw e => throw e
       end)
      (λ error, call LoggerError;; throw error)).

(** [onModuleInit]; [apiKey] is [configService.get('GEMINI_API_KEY')].
    The construction of the provider's client is not modelled. *)
Definition onModuleInit (apiKey : option string) (readFile : Z → Result string)
    : M State unit :=
  try_catch
    (call LoggerLog;;
     match truthy_str apiKey with
     | None => throw "GEMINI_API_KEY not configured in environment"
     | Some _ => mret tt
     end;;
     loadPrompts readFile;;
     call LoggerLog)
    (λ error, call LoggerError;; throw error).
End GeminiStartup.

(** ** GeminiService: messages of the provider *)

Module GeminiLive.
Import GeminiService.

(** [part.inlineData] *)
Record Blob := {
  blob_data : option string;
  blob_mimeType : option string;
}.

Record Part := {
  part_text : option string;
  part_inlineData : option Blob;
}.

(** The fields of a [LiveServerMessage] that [handleLiveMessage] reads. *)
Record LiveServerMessage := {
  msg_setupComplete : bool;
  msg_parts : option (list Part);            (* serverContent?.modelTurn?.parts *)
  msg_inputTranscription : option string;    (* serverContent?.inputTranscription?.text *)
  msg_outputTranscription : option string;   (* serverContent?.outputTranscription?.text *)
}.

(** [handleLiveMessage], without its debug log.  [settle] is
    [clearTimeout(setupTimeout); setupResolve()] of the pending set-up.
    The callbacks are those of [createGeminiCallbacks], which has no
    [onInputTranscription] and no [onOutputTranscription]: the optional
    calls do nothing. *)
Definition handleLiveMessage (env : Env) (sessionId : SessionId)
    (message : LiveServerMessage) (callbacks : GeminiSessionCallbacks)
    (settle : M World unit) : M World unit :=
  try_catch
    (if msg_setupComplete message then
       gemini
         (call LoggerLog;;
          sessionData ← gets (λ s, JsMap.get sessionId (activeSessions s));
          match sessionData with
          | Some d =>
              activeSessions_set sessionId
                {| session := session d; callbacks := GeminiService.callbacks d;
                   createdAt := createdAt d; teilNumber := GeminiService.teilNumber d;
                   status := connected; setupComplete := true |}
          | None => mret tt
          end);;
       settle
     else
       match msg_parts message with
       | Some parts =>
           for_each parts (λ part,
             match truthy_str (part_text part) with
             | Some text =>
                 SpeakingGateway.onAudioResponse env callbacks
                   {| r_text := Some text; r_audioData := None; r_audioMimeType := None |}
             | None => mret tt
             end;;
             match part_inlineData part with
             | Some inlineData =>
                 match truthy_str (blob_data inlineData) with
                 | Some data =>
                     SpeakingGateway.onAudioResponse env callbacks
                       {| r_text := None;
                          r_audioData := Some data;
                          r_audioMimeType :=
                            or_str (blob_mimeType inlineData) (Some "audio/pcm;rate=24000") |}
                 | None => mret tt
                 end
             | None => mret tt
             end)
       | None => mret tt
       end;;
       match truthy_str (msg_inputTranscription message) with
       | Some _ => mret tt        (* callbacks.onInputTranscription?.(text) *)
       | None => mret tt
       end;;
       match truthy_str (msg_outputTranscription message) with
       | Some _ => mret tt        (* callbacks.onOutputTranscription?.(text) *)
       | None => mret tt
       end)
    (λ error,
       gemini (call LoggerError);;
       SpeakingGateway.onError callbacks error).

(** The responses that the parts of a content message hand to
    [onAudioResponse], in order. *)
Definition responses (parts : list Part) : list AudioResponse :=
  parts ≫= λ part,
    match truthy_str (part_text part) with
    | Some text => [{| r_text := Some text; r_audioData := None; r_audioMimeType := None |}]
    | None => []
    end ++
    match part_inlineData part with
    | Some inlineData =>
        match truthy_str (blob_data inlineData) with
        | Some data =>
            [{| r_text := None; r_audioData := Some data;
                r_audioMimeType :=
                  or_str (blob_mimeType inlineData) (Some "audio/pcm;rate=24000") |}]
        | None => []
        end
    | None => []
    end.

(** What the gateway emits for a response and what it records. *)
Definition delivered (env : Env) (client : ClientId) (response : AudioResponse) : Effect :=
  Emit client (audio_response (r_text response) (r_audioData response)
                 (r_audioMimeType response) (now env)).

Definition noted_turn (env : Env) (response : AudioResponse) : ConversationMessage :=
  {| speaker := elena;
     text := default "[Audio response received]" (truthy_str (r_text response));
     timestamp := now env |}.

End GeminiLive.

(** ** States reached by the handlers *)

(** The state after [reject client code message]. *)
Definition refused (client : ClientId) (code : Z) (message : string) (w : World) : World :=
  upd_out (λ o, o ++ [Emit client (connection_error code message); SocketDisconnect client])
    (upd_connectedSockets (filter (λ c, c ≠ client)) w).

(** The state after one event was emitted to [client]. *)
Definition told (client : ClientId) (p : Payload) (w : World) : World :=
  upd_out (λ o, o ++ [Emit client p]) w.

(** The context after an audio message passed the state check: the
    arrival is noted, whatever the payload turns out to be. *)
Definition noted (env : Env) (client : ClientId) (r : Ref) (c : SessionContext)
    (w : World) : World :=
  clear_idle client (upd_heap (λ h, <[r := set_lastAudioTimestamp (now env) c]> h) w).

(** The state in which [handleAudioChunk] reaches the forwarding step:
    the arrival is recorded, the idle timer of the socket is cleared. *)
Definition recorded (env : Env) (client : ClientId) (r : Ref) (c : SessionContext)
    (w : World) : World :=
  upd_heap (λ h, <[r := set_chunkTimestamps (keep100 (chunkTimestamps c ++ [now env]))
                          (set_lastAudioTimestamp (now env) c)]> h)
    (clear_idle client w).

(** The row written by a pause. *)
Definition paused_row (env : Env) (elapsed : Z) : Db.Update :=
  {| Db.u_status := "paused"; Db.u_completed_at := None;
     Db.u_elapsed_time := Some elapsed; Db.u_pause_timestamp := Some (now env) |}.

(** The row written by a resume. *)
Definition resumed_row : Db.Update :=
  {| Db.u_status := "active"; Db.u_completed_at := None;
     Db.u_elapsed_time := None; Db.u_pause_timestamp := None |}.


(** ** Properties of computations and of states *)

(** [preserves I m]: the computation keeps the state property [I], whether
    it returns or throws. *)
Definition preserves (I : World → Prop) {A} (m : M World A) : Prop :=
  ∀ w, I w → I (m w).2.

(** [hoare I m Q E]: started in a state with [I], the computation either
    returns [a] in a state with [Q a] or throws in a state with [E]. *)
Definition hoare {A} (I : World → Prop) (m : M World A)
    (Q : A → World → Prop) (E : World → Prop) : Prop :=
  ∀ w, I w → match (m w).1 with Ok a => Q a (m w).2 | Throw _ => E (m w).2 end.





(** A property of the context objects from reference [n] on, in a heap
    that holds at least [m] of them. *)
Definition heap_from (n m : nat) (P : Ref → SessionContext → Prop) (w : World) : Prop :=
  m ≤ length (heap w) ∧ ∀ r c, n ≤ r → heap w !! r = Some c → P r c.

(** The time limit that the stored row of an exam session dictates
    (handleConnection, the context literal): none for an untimed session,
    else 240 s for Teil 1 and 360 s for any other Teil. *)
Definition row_time_limit (examSession : Db.ExamSession) : option Z :=
  if Db.use_timer examSession
  then Some (if decide (Db.teil_number examSession = 1) then 240 else 360)%Z
  else None.

(** The context was built from the row that the store holds for the
    session id of the handshake. *)
Definition from_row (env : Env) (client : Socket) (c : SessionContext) : Prop :=
  ∃ sid examSession,
    truthy_str (query_sessionId (handshake client)) = Some sid
    ∧ select_exam_session env sid = Db.Resolved (Some examSession) None
    ∧ sessionId c = sid
    ∧ studentId c = Db.student_id examSession
    ∧ teilNumber c = Db.teil_number examSession
    ∧ timeLimit c = row_time_limit examSession.


(** * Properties *)

(** ** Lemmas on [JsMap] *)

Section jsmap_lemmas.
Context {K V : Type} `{EqDecision K}.
Implicit Types (m : list (K * V)) (k : K) (v : V).

Lemma get_set_eq m k v : JsMap.get k (JsMap.set k v m) = Some v.
Proof.
  induction m as [|[k' v'] m IH]; simpl; repeat (case_decide; simpl); congruence.
Qed.

Lemma get_set_ne m k k' v : k' ≠ k → JsMap.get k' (JsMap.set k v m) = JsMap.get k' m.
Proof.
  intros Hne. induction m as [|[k0 v0] m IH]; simpl;
    repeat (case_decide; simpl); congruence.
Qed.

Lemma get_delete_eq m k : JsMap.get k (JsMap.delete k m) = None.
Proof.
  induction m as [|[k' v'] m IH]; simpl; repeat (case_decide; simpl); congruence.
Qed.

Lemma get_delete_ne m k k' : k' ≠ k → JsMap.get k' (JsMap.delete k m) = JsMap.get k' m.
Proof.
  intros Hne. induction m as [|[k0 v0] m IH]; simpl;
    repeat (case_decide; simpl); congruence.
Qed.

Lemma delete_absent m k : JsMap.get k m = None → JsMap.delete k m = m.
Proof.
  induction m as [|[k' v'] m IH]; simpl; [done|].
  case_decide; [done|]. intros Hm. by rewrite IH.
Qed.
End jsmap_lemmas.

(** ** The adapter: closing a handle *)

(** What one call of [closeLiveSession] does, by cases on the bookkeeping
    entry and on the outcome of the provider's [close()]. *)
Lemma closeLiveSession_cases sid (s : GeminiService.State) :
  GeminiService.closeLiveSession sid s =
  match JsMap.get sid (GeminiService.activeSessions s) with
  | None =>
      (Ok tt,
       {| GeminiService.promptCache := GeminiService.promptCache s;
          GeminiService.activeSessions := GeminiService.activeSessions s;
          GeminiService.calls := GeminiService.calls s ++ [GeminiService.LoggerWarn] |})
  | Some d =>
      (Ok tt,
       {| GeminiService.promptCache := GeminiService.promptCache s;
          GeminiService.activeSessions := JsMap.delete sid (GeminiService.activeSessions s);
          GeminiService.calls :=
            GeminiService.calls s
            ++ [GeminiService.SessionClose (GeminiService.ws (GeminiService.session d))]
            ++ match GeminiService.close_throws (GeminiService.session d) with
               | Some _ => [GeminiService.LoggerWarn]
               | None => []
               end
            ++ [GeminiService.LoggerLog] |})
  end.
Proof.
  unfold GeminiService.closeLiveSession, try_catch, mbind, M_bind, gets; simpl.
  destruct (JsMap.get sid (GeminiService.activeSessions s)) as [d|]; [|done].
  unfold GeminiService.session_close, GeminiService.call, modify, mbind, M_bind; simpl.
  destruct (GeminiService.close_throws (GeminiService.session d)); simpl;
    by rewrite <- ?app_assoc.
Qed.

(** C8. [closeLiveSession] never raises; a session id without a registered
    handle is left alone (one warning is logged, the provider is not
    called); a registered handle is removed from [activeSessions] whether
    or not the provider's [close()] throws; and a second close of the same
    id finds nothing, so it calls the provider no more and logs no error. *)
Theorem closeLiveSession_idempotent sid (s : GeminiService.State) :
  let r1 := GeminiService.closeLiveSession sid s in
  let r2 := GeminiService.closeLiveSession sid r1.2 in
  r1.1 = Ok tt
  ∧ JsMap.get sid (GeminiService.activeSessions r1.2) = None
  ∧ GeminiService.activeSessions r1.2 = JsMap.delete sid (GeminiService.activeSessions s)
  ∧ match JsMap.get sid (GeminiService.activeSessions s) with
    | None =>
        GeminiService.activeSessions r1.2 = GeminiService.activeSessions s
        ∧ GeminiService.calls r1.2 = GeminiService.calls s ++ [GeminiService.LoggerWarn]
    | Some d =>
        GeminiService.SessionClose (GeminiService.ws (GeminiService.session d))
          ∈ GeminiService.calls r1.2
        ∧ GeminiService.LoggerError ∉ drop (length (GeminiService.calls s)) (GeminiService.calls r1.2)
    end
  ∧ r2.1 = Ok tt
  ∧ GeminiService.activeSessions r2.2 = GeminiService.activeSessions r1.2
  ∧ GeminiService.calls r2.2 = GeminiService.calls r1.2 ++ [GeminiService.LoggerWarn].
Proof.
  intros r1 r2.
  assert (Hgone : JsMap.get sid (GeminiService.activeSessions r1.2) = None).
  { subst r1. rewrite closeLiveSession_cases.
    destruct (JsMap.get sid (GeminiService.activeSessions s)) eqn:Hs; simpl;
      [apply get_delete_eq | done]. }
  subst r2. rewrite (closeLiveSession_cases sid r1.2), Hgone. simpl.
  subst r1. rewrite closeLiveSession_cases in *.
  destruct (JsMap.get sid (GeminiService.activeSessions s)) as [d|] eqn:Hs; simpl in *.
  - repeat split; try done.
    + set_solver.
    + rewrite drop_app_length.
      destruct (GeminiService.close_throws (GeminiService.session d)); simpl;
        rewrite !not_elem_of_cons; repeat split; try done; apply not_elem_of_nil.
  - repeat split; try done. by rewrite delete_absent.
Qed.

(** ** Running the handlers symbolically *)

(** A transcript save never raises and records one upsert. *)
Lemma saveConversationHistory_run env sid h w :
  SpeakingService.saveConversationHistory env sid h w
  = (Ok tt, upd_out (λ o, o ++ [UpsertTranscript sid h]) w).
Proof.
  unfold SpeakingService.saveConversationHistory, SpeakingService.saveTranscript,
    try_catch, mbind, M_bind, effect, modify, await. cbn.
  by destruct (upsert_transcript env).
Qed.

Lemma saveIfNonEmpty_run env sid h w :
  SpeakingGateway.saveIfNonEmpty env sid h w = (Ok tt, upd_out (λ o, o ++ flush sid h) w).
Proof.
  unfold SpeakingGateway.saveIfNonEmpty, flush, when.
  destruct h; cbn; [|by rewrite saveConversationHistory_run].
  unfold mret, M_ret, upd_out. destruct w; cbn. by rewrite app_nil_r.
Qed.

Lemma clearTimeout_if_run timer w :
  SpeakingGateway.clearTimeout_if timer w = (Ok tt, upd_timers (clear_if timer) w).
Proof. destruct timer; [done|]. by destruct w. Qed.

(** Seen from the gateway, closing the adapter handle always returns. *)
Lemma gemini_closeLiveSession sid w :
  gemini (GeminiService.closeLiveSession sid) w
  = (Ok tt,
     upd_geminiService
       (λ _, (GeminiService.closeLiveSession sid (geminiService w)).2) w).
Proof.
  unfold gemini, zoom. rewrite closeLiveSession_cases.
  by destruct (JsMap.get sid _).
Qed.

Lemma clearIdleTimeout_run client w :
  SpeakingGateway.clearIdleTimeout client w = (Ok tt, clear_idle client w).
Proof.
  unfold SpeakingGateway.clearIdleTimeout, clear_idle, mbind, M_bind, gets,
    clearTimeout, modify.
  by destruct (JsMap.get client (idleTimeouts w)).
Qed.

Lemma clear_idle_sessions client w : sessions (clear_idle client w) = sessions w.
Proof. unfold clear_idle. by destruct (JsMap.get _ _). Qed.
Lemma clear_idle_heap client w : heap (clear_idle client w) = heap w.
Proof. unfold clear_idle. by destruct (JsMap.get _ _). Qed.
Lemma clear_idle_nextTimer client w : nextTimer (clear_idle client w) = nextTimer w.
Proof. unfold clear_idle. by destruct (JsMap.get _ _). Qed.
Lemma clear_idle_connectedSockets client w :
  connectedSockets (clear_idle client w) = connectedSockets w.
Proof. unfold clear_idle. by destruct (JsMap.get _ _). Qed.
Lemma clear_idle_geminiService client w :
  geminiService (clear_idle client w) = geminiService w.
Proof. unfold clear_idle. by destruct (JsMap.get _ _). Qed.
Lemma clear_idle_sessionStates client w :
  sessionStates (clear_idle client w) = sessionStates w.
Proof. unfold clear_idle. by destruct (JsMap.get _ _). Qed.
Lemma clear_idle_out client w : out (clear_idle client w) = out w.
Proof. unfold clear_idle. by destruct (JsMap.get _ _). Qed.

Ltac munfold :=
  unfold SpeakingGateway.sessions_get, SpeakingGateway.sessions_set,
    SpeakingGateway.sessions_delete,
    SpeakingGateway.reject, SpeakingGateway.findSessionBySessionId,
    SpeakingGateway.getElapsedSeconds,
    client_disconnect, client_connected, emit, effect, await, read, assign, when,
    setTimeout, clearTimeout, alloc,
    try_catch, mbind, M_bind, mret, M_ret, gets, modify, throw.

Lemma for_each_clearTimeout l w :
  for_each l clearTimeout w = (Ok tt, upd_timers (clear_all l) w).
Proof.
  revert w. induction l as [|t l IH]; intros w; cbn.
  - by destruct w.
  - unfold mbind, M_bind. cbn. rewrite IH. by destruct w.
Qed.

Lemma for_each_clearTimeout_unfolded l w :
  for_each l (λ (t : nat) (s : World), (Ok (), upd_timers (JsMap.delete t) s)) w
  = (Ok tt, upd_timers (clear_all l) w).
Proof. apply for_each_clearTimeout. Qed.

Lemma truthy_num_Some (L : Z) : L ≠ 0%Z → truthy_num (Some L) = Some L.
Proof. intros. unfold truthy_num. by rewrite decide_False. Qed.

(** Decisions on closed comparisons of enumeration constants and numerals. *)
Ltac closed_prop :=
  solve [ done | intros Hcontra; by apply Hcontra | lia ].

Ltac decide_closed :=
  repeat match goal with
    | |- context [@decide ?P ?d] =>
        first [ rewrite (@decide_True _ P d) by closed_prop
              | rewrite (@decide_False _ P d) by closed_prop ]
    | |- context [@bool_decide ?P ?d] =>
        first [ rewrite (@bool_decide_eq_true_2 P d) by closed_prop
              | rewrite (@bool_decide_eq_false_2 P d) by closed_prop ]
    end.

(** One pass of symbolic execution: unfold the primitives, compute, and
    use the run lemmas. *)
Ltac mpass :=
  munfold; cbn;
  rewrite ?saveIfNonEmpty_run, ?clearTimeout_if_run,
    ?saveConversationHistory_run, ?gemini_closeLiveSession, ?clearIdleTimeout_run,
    ?clear_idle_sessions, ?clear_idle_heap, ?clear_idle_nextTimer,
    ?clear_idle_connectedSockets, ?clear_idle_geminiService, ?clear_idle_sessionStates,
    ?clear_idle_out, ?for_each_clearTimeout, ?for_each_clearTimeout_unfolded,
    ?list_insert_insert_eq;
  repeat (rewrite list_lookup_insert_eq by (rewrite ?length_insert; done));
  decide_closed.

Ltac mstep := repeat (progress mpass).

Tactic Notation "mrun" "with" constr(H1) :=
  repeat (progress (mpass; rewrite ?H1)).
Tactic Notation "mrun" "with" constr(H1) constr(H2) :=
  repeat (progress (mpass; rewrite ?H1, ?H2)).
Tactic Notation "mrun" "with" constr(H1) constr(H2) constr(H3) :=
  repeat (progress (mpass; rewrite ?H1, ?H2, ?H3)).
Tactic Notation "mrun" "with" constr(H1) constr(H2) constr(H3) constr(H4) :=
  repeat (progress (mpass; rewrite ?H1, ?H2, ?H3, ?H4)).
Tactic Notation "mrun" "with" constr(H1) constr(H2) constr(H3) constr(H4) constr(H5) :=
  repeat (progress (mpass; rewrite ?H1, ?H2, ?H3, ?H4, ?H5)).
Tactic Notation "mrun" "with" constr(H1) constr(H2) constr(H3) constr(H4) constr(H5)
    constr(H6) :=
  repeat (progress (mpass; rewrite ?H1, ?H2, ?H3, ?H4, ?H5, ?H6)).

(** ** Disconnect of a connection without a session context *)

(** C10. When [sessions] has no entry for the disconnecting socket,
    [handleDisconnect] returns at once: the whole process state (registry,
    contexts, timers, adapter bookkeeping, trace of writes and emits) is
    unchanged. *)
Theorem handleDisconnect_unknown_client env client w :
  JsMap.get client (sessions w) = None →
  SpeakingGateway.handleDisconnect env client w = (Ok tt, w).
Proof.
  intros Hnone. unfold SpeakingGateway.handleDisconnect. mstep. by rewrite Hnone.
Qed.

(** A socket that was never admitted disconnects while anna's session is
    live: nothing changes. *)
Lemma handleDisconnect_unknown_client_witness :
  let env := Scenario.env (Some (Scenario.exam None)) 1000 in
  SpeakingGateway.handleDisconnect env "c2" (Scenario.joined None)
  = (Ok tt, Scenario.joined None).
Proof.
  intros env. apply handleDisconnect_unknown_client. reflexivity.
Defined.

(** ** Auto-end *)

Lemma autoEnd_fires_out env client context cur c cc w :
  JsMap.get client (sessions w) = Some cur →
  heap w !! cur = Some cc →
  heap w !! context = Some c →
  status cc = active ∨ status cc = paused →
  out (SpeakingGateway.autoEnd_fires env client context w).2 =
    out w
    ++ flush (sessionId cc) (conversationHistory cc)
    ++ [UpdateExamSession (sessionId c) (completed_row env (timeLimit c))]
    ++ match update_exam_session env with
       | Db.Resolved _ _ =>
           [Emit client (session_ended "timer_expired" (sessionId c));
            SocketDisconnect client]
       | Db.Rejected _ => []
       end.
Proof.
  intros Hs Hcur Hc Hst.
  unfold SpeakingGateway.autoEnd_fires, completed_row.
  mstep. rewrite Hs. mstep. rewrite Hcur. mstep.
  assert (bool_decide (status cc ≠ active) && bool_decide (status cc ≠ paused) = false) as ->.
  { by destruct Hst as [-> | ->]. }
  mrun with Hc.
  destruct (update_exam_session env); mstep; by rewrite <- ?app_assoc.
Qed.

(** C9. When the auto-end timer fires on a session that is still registered
    and active or paused, the row written to [exam_sessions] has status
    'completed' and [elapsed_time] equal to the context's [timeLimit],
    whatever [elapsedSeconds] and [startTime] say (so also after any time
    spent paused); it is the only row written by the run and it follows the
    transcript save. *)
Theorem autoEnd_persists_timeLimit env client context cur c cc w :
  JsMap.get client (sessions w) = Some cur →
  heap w !! cur = Some cc →
  heap w !! context = Some c →
  status cc = active ∨ status cc = paused →
  out (SpeakingGateway.autoEnd_fires env client context w).2 =
    out w
    ++ flush (sessionId cc) (conversationHistory cc)
    ++ [UpdateExamSession (sessionId c)
          {| Db.u_status := "completed"; Db.u_completed_at := Some (now env);
             Db.u_elapsed_time := timeLimit c; Db.u_pause_timestamp := None |}]
    ++ match update_exam_session env with
       | Db.Resolved _ _ =>
           [Emit client (session_ended "timer_expired" (sessionId c));
            SocketDisconnect client]
       | Db.Rejected _ => []
       end.
Proof. apply autoEnd_fires_out. Qed.

(** anna's session was paused for 30 s and resumed; when the auto-end
    timer fires at instant 370 000 the stored elapsed time is the limit,
    240 s. *)
Lemma autoEnd_persists_timeLimit_witness :
  let env := Scenario.env (Some (Scenario.exam None)) 370000 in
  out (SpeakingGateway.autoEnd_fires env "c1" 0 Scenario.resumed).2 =
    out Scenario.resumed
    ++ [UpsertTranscript "exam-1" (conversationHistory Scenario.resumed_context);
        UpdateExamSession "exam-1"
          {| Db.u_status := "completed"; Db.u_completed_at := Some 370000%Z;
             Db.u_elapsed_time := Some 240%Z; Db.u_pause_timestamp := None |};
        Emit "c1" (session_ended "timer_expired" "exam-1");
        SocketDisconnect "c1"].
Proof.
  intros env.
  exact (autoEnd_persists_timeLimit env "c1" 0 0 Scenario.resumed_context
           Scenario.resumed_context Scenario.resumed
           eq_refl eq_refl eq_refl (or_introl eq_refl)).
Defined.

(** ** Pause and resume *)

(** One threshold of [setupTimerWarnings]: it may add a handle to the
    context and touches nothing else of it. *)
Lemma warning_step env client r c threshold (L : Z) w :
  heap w !! r = Some c →
  ∃ hs w1,
    (if decide (0 < (L - threshold) * 1000)%Z then
       handle ← setTimeout (timerWarning client r threshold)
                  (now env + (L - threshold) * 1000)%Z;
       assign r (λ c, set_timerHandles (timerHandles c ++ [handle]) c)
     else mret tt) w = (Ok tt, w1)
    ∧ heap w1 !! r = Some (set_timerHandles hs c)
    ∧ sessions w1 = sessions w.
Proof.
  intros Hr. assert (Hlt : r < length (heap w)) by (by eapply lookup_lt_Some).
  case_decide; mstep.
  - rewrite Hr. mstep. eexists _, _. split; [done|]. by mstep.
  - exists (timerHandles c), w. split; [done|]. split; [|done]. rewrite Hr. by destruct c.
Qed.

Lemma setupTimerWarnings_run env client r c w :
  heap w !! r = Some c →
  ∃ hs w1,
    SpeakingGateway.setupTimerWarnings env client r w = (Ok tt, w1)
    ∧ heap w1 !! r = Some (set_timerHandles hs c)
    ∧ sessions w1 = sessions w.
Proof.
  intros Hr. unfold SpeakingGateway.setupTimerWarnings.
  unfold mbind at 1. unfold M_bind at 1. unfold read at 1.
  unfold mbind at 1, M_bind at 1, gets at 1. rewrite Hr. cbn.
  destruct (truthy_num (timeLimit c)) as [L|]; cbn.
  2: { exists (timerHandles c), w. split; [done|]. split; [|done]. rewrite Hr. by destruct c. }
  destruct (expectedEndTime c); cbn.
  2: { exists (timerHandles c), w. split; [done|]. split; [|done]. rewrite Hr. by destruct c. }
  unfold mbind at 1, M_bind at 1.
  destruct (warning_step env client r c 120 L w Hr) as (hs1 & w1 & -> & Hr1 & Hs1).
  unfold mbind at 1, M_bind at 1.
  destruct (warning_step env client r _ 60 L w1 Hr1) as (hs2 & w2 & -> & Hr2 & Hs2).
  unfold mbind at 1, M_bind at 1.
  destruct (warning_step env client r _ 30 L w2 Hr2) as (hs3 & w3 & -> & Hr3 & Hs3).
  exists hs3, w3. split; [done|]. split; [by rewrite Hr3|congruence].
Qed.

(** C1 (the code at work). A paused, timed session with frozen elapsed time
    [elapsedSeconds c] and limit [L] is resumed while its adapter handle is
    still open.  The handler sets [expectedEndTime] to the resume instant
    plus [L - elapsedSeconds c] seconds, as the claim says; but the auto-end
    timer it schedules (the last handle of [timerHandles]) is due a full
    [L] seconds after the resume instant, that is [elapsedSeconds c]
    seconds after the new [expectedEndTime]. *)
Theorem resume_autoEnd_due_after_full_limit env client r c (L anchor : Z) w :
  JsMap.get client (sessions w) = Some r →
  heap w !! r = Some c →
  status c = paused →
  timeLimit c = Some L → L ≠ 0%Z →
  expectedEndTime c = Some anchor →
  GeminiService.isSessionActive (sessionId c) (geminiService w) = true →
  let w' := (SpeakingGateway.handleResumeSession env client w).2 in
  ∃ c' t,
    heap w' !! r = Some c'
    ∧ status c' = active
    ∧ expectedEndTime c' = Some (now env + (L - elapsedSeconds c) * 1000)%Z
    ∧ last (timerHandles c') = Some t
    ∧ JsMap.get t (timers w')
      = Some {| due := (now env + L * 1000)%Z; body := autoEnd client r |}.
Proof.
  intros Hs Hr Hst HL HL1 Hexp Hact w'. subst w'.
  assert (Hcond : bool_decide (status c ≠ paused) && bool_decide (status c ≠ grace_period)
                  = false) by (by rewrite Hst).
  assert (Hlt : r < length (heap w)) by (by eapply lookup_lt_Some).
  pose proof (truthy_num_Some L HL1) as HL0.
  unfold SpeakingGateway.handleResumeSession, SpeakingGateway.clearTimerHandles,
    SpeakingGateway.clearPauseGeminiCloseTimer.
  mrun with Hs Hr Hcond Hact.
  destruct (pauseGeminiCloseTimer c) as [pt|] eqn:Hpt;
    mrun with Hr Hact HL HL0 Hexp;
    (match goal with
     | |- context [SpeakingGateway.setupTimerWarnings env client r ?W] => set (W0 := W)
     end;
     eassert (HW0 : heap W0 !! r = Some _);
     [ subst W0; cbn; rewrite ?list_insert_insert_eq; by apply list_lookup_insert_eq |];
     destruct (setupTimerWarnings_run env client r _ W0 HW0) as (hs & w1 & -> & Hr1 & _);
     assert (Hlt1 : r < length (heap w1)) by (by eapply lookup_lt_Some);
     unfold SpeakingGateway.setupAutoEnd;
     mrun with Hr1 HL HL0;
     destruct (update_exam_session env); mstep;
     (eexists _, _; split; [reflexivity|]; cbn;
      split; [done|]; split; [f_equal; lia|]; split; [apply last_snoc|];
      apply get_set_eq)).
Qed.

(** anna's session, stored with 100 s elapsed, is paused and resumed at
    instant 50 000: the budget left is 140 s, [expectedEndTime] becomes
    190 000, and the auto-end timer is due at 290 000. *)
Lemma resume_autoEnd_due_after_full_limit_witness :
  let env := Scenario.env (Some (Scenario.exam (Some 100%Z))) 50000 in
  let w' := (SpeakingGateway.handleResumeSession env "c1" Scenario.paused_at_100).2 in
  ∃ c' t,
    heap w' !! 0 = Some c'
    ∧ status c' = active
    ∧ expectedEndTime c' = Some 190000%Z
    ∧ last (timerHandles c') = Some t
    ∧ JsMap.get t (timers w') = Some {| due := 290000%Z; body := autoEnd "c1" 0 |}.
Proof.
  intros env.
  apply (resume_autoEnd_due_after_full_limit env "c1" 0 Scenario.paused_context
           240 240000 Scenario.paused_at_100);
    [reflexivity | reflexivity | reflexivity | reflexivity | done | reflexivity | reflexivity].
Defined.

(** The pause handler sets [status] to 'paused' before it calls
    [getElapsedSeconds], which then returns the stored snapshot: after
    100 s of activity the frozen elapsed time is still 0. *)
Example pause_freezes_stale_elapsed :
  elapsedSeconds <$> heap Scenario.paused_after_100s !! 0 = Some 0%Z.
Proof. reflexivity. Qed.

(** ** Audio ingestion: the rate limiter *)




(** ** Admission: rejection codes *)

(** C6 (the code at work). A connection without a sessionId and a
    connection whose sessionId has no row in the store are both refused
    with [connection_error] and then disconnected, and both carry the same
    code, 4001; only the message differs. *)
Theorem missing_and_unknown_session_share_code env w (c1 c2 : Socket)
    sid token payload err :
  truthy_str (query_sessionId (handshake c1)) = None →
  truthy_str (query_sessionId (handshake c2)) = Some sid →
  SpeakingGateway.handshake_token (handshake c2) = Some token →
  jwt_verify env token = Some payload →
  SpeakingGateway.find_entry sid (heap w) (sessions w) = None →
  select_exam_session env sid = Db.Resolved None err →
  out (SpeakingGateway.handleConnection env c1 w).2
    = out w ++ [Emit (id c1) (connection_error 4001 "Missing sessionId");
                SocketDisconnect (id c1)]
  ∧ out (SpeakingGateway.handleConnection env c2 w).2
    = out w ++ [Emit (id c2) (connection_error 4001 "Session not found");
                SocketDisconnect (id c2)].
Proof.
  intros H1 H2 Htok Hjwt Hfind Hsel.
  unfold SpeakingGateway.handleConnection, SpeakingGateway.firstConnection,
    TokenService.verifyAccessToken.
  split.
  - mrun with H1. by rewrite <- app_assoc.
  - mrun with H2 Htok Hjwt Hfind Hsel. destruct err; mstep; by rewrite <- app_assoc.
Qed.

(** anna connects once without a sessionId and once for "exam-9", which
    the store does not know. *)
Lemma missing_and_unknown_session_share_code_witness :
  let env := Scenario.env (Some (Scenario.exam None)) 0 in
  let w := initial Scenario.prompts in
  let c1 := Scenario.socket "c1" "anna-token" None in
  let c2 := Scenario.socket "c2" "anna-token" (Some "exam-9") in
  out (SpeakingGateway.handleConnection env c1 w).2
    = [Emit "c1" (connection_error 4001 "Missing sessionId"); SocketDisconnect "c1"]
  ∧ out (SpeakingGateway.handleConnection env c2 w).2
    = [Emit "c2" (connection_error 4001 "Session not found"); SocketDisconnect "c2"].
Proof.
  intros env w c1 c2.
  exact (missing_and_unknown_session_share_code env w c1 c2 "exam-9" "anna-token"
           Scenario.anna (Some "no rows") eq_refl eq_refl eq_refl eq_refl eq_refl eq_refl).
Defined.

(** ** Admission: reconnection during the grace period *)

Lemma clear_idle_timers_get client t w :
  JsMap.get t (timers w) = None → JsMap.get t (timers (clear_idle client w)) = None.
Proof.
  intros H. unfold clear_idle. destruct (JsMap.get client (idleTimeouts w)) as [it|]; [|done].
  cbn. destruct (decide (t = it)) as [->|Hne]; [apply get_delete_eq|by rewrite get_delete_ne].
Qed.

(** C2 as stated fails: after a pause has expired the context is in state
    [grace_period] but carries no disconnect timer.  A new connection of the
    owner for that exam session is refused as a duplicate (4006); the
    context stays in [grace_period] on the old socket. *)
Lemma reconnect_refused_after_pause_expiry :
  let env := Scenario.env (Some (Scenario.exam None)) 161000 in
  let w := Scenario.pause_expired in
  let client := Scenario.socket "c2" "anna-token" (Some "exam-1") in
  let w' := (SpeakingGateway.handleConnection env client w).2 in
  SpeakingGateway.find_entry "exam-1" (heap w) (sessions w) = Some ("c1", 0)
  ∧ status <$> heap w !! 0 = Some grace_period
  ∧ studentId <$> heap w !! 0 = Some (TokenService.studentId Scenario.anna)
  ∧ status <$> heap w' !! 0 = Some grace_period
  ∧ clientId <$> heap w' !! 0 = Some "c1"
  ∧ sessions w' = [("c1", 0)]
  ∧ out w' = out w ++ [Emit "c2" (connection_error 4006 "Session already connected");
                       SocketDisconnect "c2"].
Proof. vm_compute. by repeat split. Qed.

(** C2, amended. A new connection names an exam session whose registered
    context has a grace-expiry (disconnect) timer [t].  If the
    authenticated student is not the context's owner, the connection is
    refused with 4010 and registry, contexts and timers are unchanged, so
    [t] keeps running.  If it is the owner, [t] is cancelled, the context
    is re-keyed from the old socket to the new one, its [clientId] is the
    new socket, its status is [active], its conversation is the same, and
    the new socket receives [session_ready] with status 'reconnected'. *)
Theorem reconnection_within_grace_period env (client : Socket) sid token payload
    oldClientId r c t w :
  truthy_str (query_sessionId (handshake client)) = Some sid →
  SpeakingGateway.handshake_token (handshake client) = Some token →
  jwt_verify env token = Some payload →
  SpeakingGateway.find_entry sid (heap w) (sessions w) = Some (oldClientId, r) →
  heap w !! r = Some c →
  disconnectTimer c = Some t →
  let w' := (SpeakingGateway.handleConnection env client w).2 in
  if decide (studentId c = TokenService.studentId payload) then
    JsMap.get t (timers w') = None
    ∧ sessions w' = JsMap.set (id client) r (JsMap.delete oldClientId (sessions w))
    ∧ (∃ c', heap w' !! r = Some c'
         ∧ clientId c' = id client
         ∧ status c' = active
         ∧ conversationHistory c' = conversationHistory c
         ∧ disconnectTimer c' = None
         ∧ lastAudioTimestamp c' = now env)
    ∧ out w' = out w ++ [Emit (id client)
                           (session_ready sid (teilNumber c) (startTime c) (timeLimit c)
                              "reconnected")]
  else
    timers w' = timers w
    ∧ sessions w' = sessions w
    ∧ heap w' = heap w
    ∧ out w' = out w ++ [Emit (id client)
                           (connection_error 4010
                              "Session does not belong to authenticated student");
                         SocketDisconnect (id client)].
Proof.
  intros Hsid Htok Hjwt Hfind Hr Ht w'. subst w'.
  assert (Hlt : r < length (heap w)) by (by eapply lookup_lt_Some).
  unfold SpeakingGateway.handleConnection, SpeakingGateway.reconnect,
    TokenService.verifyAccessToken.
  mrun with Hsid Htok Hjwt Hfind Hr Ht.
  destruct (decide (studentId c = TokenService.studentId payload)) as [Heq|Hne].
  - rewrite decide_False by auto. mrun with Hr.
    split; [apply clear_idle_timers_get; cbn; apply get_delete_eq|].
    split; [done|]. split; [|done]. eexists. by split.
  - rewrite decide_True by auto. mstep. by rewrite <- app_assoc.
Qed.

(** anna's socket dropped at 100 500; she reconnects on socket "c2" half a
    second later: the grace timer (handle 4) is gone, the context sits
    under "c2", active, with the greeting still in its conversation. *)
Lemma reconnection_within_grace_period_witness :
  let env := Scenario.env (Some (Scenario.exam None)) 101000 in
  let client := Scenario.socket "c2" "anna-token" (Some "exam-1") in
  let w' := (SpeakingGateway.handleConnection env client Scenario.dropped).2 in
  JsMap.get 4 (timers w') = None
  ∧ sessions w' = [("c2", 0)]
  ∧ (∃ c', heap w' !! 0 = Some c'
       ∧ clientId c' = "c2"
       ∧ status c' = active
       ∧ conversationHistory c' = conversationHistory Scenario.dropped_context
       ∧ disconnectTimer c' = None
       ∧ lastAudioTimestamp c' = 101000%Z)
  ∧ out w' = out Scenario.dropped
             ++ [Emit "c2" (session_ready "exam-1" 1 0 (Some 240%Z) "reconnected")].
Proof.
  intros env client.
  exact (reconnection_within_grace_period env client "exam-1" "anna-token" Scenario.anna
           "c1" 0 Scenario.dropped_context 4 Scenario.dropped
           eq_refl eq_refl eq_refl eq_refl eq_refl eq_refl).
Defined.

(** ** Transcript flush before a terminal status *)

Lemma handleDisconnect_run env client r c w :
  JsMap.get client (sessions w) = Some r →
  heap w !! r = Some c →
  let w1 := (SpeakingGateway.handleDisconnect env client w).2 in
  out w1 = out w ++ flush (sessionId c) (conversationHistory c)
  ∧ sessions w1 = sessions w
  ∧ geminiService w1 = geminiService w
  ∧ (∃ c1, heap w1 !! r = Some c1
       ∧ sessionId c1 = sessionId c
       ∧ conversationHistory c1 = conversationHistory c
       ∧ elapsedSeconds c1 = SpeakingGateway.elapsed_of env c
       ∧ status c1 = grace_period
       ∧ disconnectTimer c1 = Some (nextTimer w))
  ∧ JsMap.get (nextTimer w) (timers w1)
    = Some {| due := (now env + 5000)%Z; body := graceTimeout client r |}.
Proof.
  intros Hs Hr w1. subst w1.
  assert (Hlt : r < length (heap w)) by (by eapply lookup_lt_Some).
  unfold SpeakingGateway.handleDisconnect, SpeakingGateway.clearTimerHandles,
    SpeakingGateway.clearPauseGeminiCloseTimer.
  mrun with Hs Hr.
  destruct (pauseGeminiCloseTimer c) as [pg|] eqn:Hpg; mrun with Hr.
  all: repeat split; try done; try apply get_set_eq.
  all: eexists; split; [reflexivity|]; by cbn.
Qed.

Lemma graceTimeout_fires_out env client r c w :
  heap w !! r = Some c →
  out (SpeakingGateway.graceTimeout_fires env client r w).2 =
    out w ++
    match select_exam_session env (sessionId c) with
    | Db.Resolved (Some row) _ =>
        if bool_decide (Db.status row = "active") || bool_decide (Db.status row = "paused")
        then [UpdateExamSession (sessionId c) (interrupted_row env (elapsedSeconds c))]
        else []
    | _ => []
    end.
Proof.
  intros Hr. unfold SpeakingGateway.graceTimeout_fires, interrupted_row.
  mrun with Hr.
  destruct (select_exam_session env (sessionId c)) as [[row|] err|e]; mrun with Hr;
    rewrite ?app_nil_r; try done.
  destruct (bool_decide (Db.status row = "active") || bool_decide (Db.status row = "paused"));
    mrun with Hr; [|by rewrite app_nil_r].
  destruct (update_exam_session env); by mstep.
Qed.

Lemma send_failure_out env client payload audio r c d e w :
  JsMap.get client (sessions w) = Some r →
  heap w !! r = Some c →
  status c = active →
  truthy_str (data payload) = Some audio →
  isValidBase64 env audio = true →
  (Z.of_nat (String.length audio) ≤ SpeakingGateway.MAX_AUDIO_CHUNK_SIZE)%Z →
  length (filter (λ t, now env - t < 1000)%Z (chunkTimestamps c)) < 50 →
  JsMap.get (sessionId c) (GeminiService.activeSessions (geminiService w)) = Some d →
  GeminiService.setupComplete d = true →
  GeminiService.status d = GeminiService.connected →
  GeminiService.send_throws (GeminiService.session d) = Some e →
  let w' := (SpeakingGateway.handleAudioChunk env client payload w).2 in
  out w' = out w ++ [Emit client (gemini_error "AUDIO_FORWARD_FAILED")]
           ++ flush (sessionId c) (conversationHistory c)
           ++ [UpdateExamSession (sessionId c) (interrupted_row env (elapsedSeconds c))]
  ∧ status <$> heap w' !! r = Some interrupted.
Proof.
  intros Hs Hr Hst Hdata Hb64 Hlen Hrate Hd Hsc Hconn Hthrow w'. subst w'.
  assert (Hlt : r < length (heap w)) by (by eapply lookup_lt_Some).
  unfold SpeakingGateway.handleAudioChunk, SpeakingGateway.rateLimit,
    SpeakingGateway.forwardAudio, GeminiService.isSessionActive, interrupted_row.
  mrun with Hs Hr Hdata Hb64.
  destruct (decide (status c ≠ active)) as [Hne|_]; [by rewrite Hst in Hne|].
  destruct (decide (SpeakingGateway.MAX_AUDIO_CHUNK_SIZE
                    < Z.of_nat (String.length audio))%Z) as [?|_]; [lia|].
  mrun with Hs Hr Hdata Hb64.
  destruct (decide (50 ≤ length (filter (λ t, now env - t < 1000)%Z (chunkTimestamps c))))
    as [?|_]; [lia|].
  mstep.
  destruct (bool_decide (100 < length (chunkTimestamps c ++ [now env])));
    mrun with Hd Hsc Hconn.
  all: unfold gemini, zoom, GeminiService.sendAudioChunk,
    GeminiService.session_sendRealtimeInput, GeminiService.call.
  all: mrun with Hd Hsc Hthrow.
  all: unfold SpeakingGateway.elapsed_of; mstep.
  all: destruct (update_exam_session env); mstep; by rewrite <- ?app_assoc.
Qed.

(** C4 as stated fails on the explicit end.  The REST path
    [POST /session/:id/end] writes the terminal row while the gateway still
    holds a non-empty conversation that has not been saved: the controller
    passes no conversation, so nothing is flushed; and when the service is
    given one, it writes the row first and saves the transcript after. *)
Lemma explicit_end_persists_before_flush :
  let env := Scenario.env (Some (Scenario.exam None)) 200000 in
  let w := Scenario.greeted in
  let log := conversationHistory Scenario.greeted_context in
  let row := {| Db.u_status := "completed"; Db.u_completed_at := Some 200000%Z;
                Db.u_elapsed_time := Some 200%Z; Db.u_pause_timestamp := None |} in
  conversationHistory <$> heap w !! 0 = Some log
  ∧ log ≠ []
  ∧ out w = [Emit "c1" (session_ready "exam-1" 1 0 (Some 240%Z) "ready");
             Emit "c1" (audio_response (Some "Guten Tag") None None 500)]
  ∧ out (SpeakingController.endSession env Scenario.anna "exam-1"
           (Some SpeakingService.completed) w).2
    = out w ++ [UpdateExamSession "exam-1" row]
  ∧ out (SpeakingService.endSession env "exam-1" "anna"
           (Some SpeakingService.completed) (Some log) w).2
    = out w ++ [UpdateExamSession "exam-1" row; UpsertTranscript "exam-1" log].
Proof. vm_compute. by repeat split. Qed.

(** C4, amended. On the gateway paths that write a terminal row, a
    non-empty conversation is saved before the row is written:
    - disconnect, then expiry of the grace period: one save at disconnect,
      none at expiry, then the 'interrupted' row (written only while the
      stored status is still active or paused);
    - the auto-end timer: the save, then the 'completed' row;
    - a failed forward to the adapter: the save, then the 'interrupted' row. *)
Theorem gateway_flushes_before_terminal_row env env' client r c w :
  JsMap.get client (sessions w) = Some r →
  heap w !! r = Some c →
  (let w1 := (SpeakingGateway.handleDisconnect env client w).2 in
   let w2 := (SpeakingGateway.graceTimeout_fires env' client r w1).2 in
   out w2 =
     out w
     ++ flush (sessionId c) (conversationHistory c)
     ++ match select_exam_session env' (sessionId c) with
        | Db.Resolved (Some row) _ =>
            if bool_decide (Db.status row = "active")
               || bool_decide (Db.status row = "paused")
            then [UpdateExamSession (sessionId c)
                    (interrupted_row env' (SpeakingGateway.elapsed_of env c))]
            else []
        | _ => []
        end)
  ∧ (status c = active ∨ status c = paused →
     out (SpeakingGateway.autoEnd_fires env client r w).2 =
       out w
       ++ flush (sessionId c) (conversationHistory c)
       ++ [UpdateExamSession (sessionId c) (completed_row env (timeLimit c))]
       ++ match update_exam_session env with
          | Db.Resolved _ _ =>
              [Emit client (session_ended "timer_expired" (sessionId c));
               SocketDisconnect client]
          | Db.Rejected _ => []
          end)
  ∧ (∀ payload audio d e,
       status c = active →
       truthy_str (data payload) = Some audio →
       isValidBase64 env audio = true →
       (Z.of_nat (String.length audio) ≤ SpeakingGateway.MAX_AUDIO_CHUNK_SIZE)%Z →
       length (filter (λ t, now env - t < 1000)%Z (chunkTimestamps c)) < 50 →
       JsMap.get (sessionId c) (GeminiService.activeSessions (geminiService w)) = Some d →
       GeminiService.setupComplete d = true →
       GeminiService.status d = GeminiService.connected →
       GeminiService.send_throws (GeminiService.session d) = Some e →
       out (SpeakingGateway.handleAudioChunk env client payload w).2 =
         out w
         ++ [Emit client (gemini_error "AUDIO_FORWARD_FAILED")]
         ++ flush (sessionId c) (conversationHistory c)
         ++ [UpdateExamSession (sessionId c) (interrupted_row env (elapsedSeconds c))]).
Proof.
  intros Hs Hr. split; [|split].
  - cbn zeta.
    destruct (handleDisconnect_run env client r c w Hs Hr)
      as (Hout & _ & _ & (c1 & Hr1 & Hsid & _ & Hel & _) & _).
    rewrite (graceTimeout_fires_out env' client r c1 _ Hr1), Hout, Hsid, Hel.
    by rewrite <- app_assoc.
  - intros Hst. by apply (autoEnd_fires_out env client r r c c w).
  - intros payload audio d e Hst Hdata Hb64 Hlen Hrate Hd Hsc Hconn Hthrow.
    by eapply send_failure_out.
Qed.

(** anna's socket drops after the greeting and the grace period expires at
    105 500: the greeting is saved once, then the 'interrupted' row with the
    100 s that had elapsed at the disconnect is written. *)
Lemma gateway_flushes_before_terminal_row_witness :
  let env := Scenario.env (Some (Scenario.exam None)) 100500 in
  let env' := Scenario.env (Some (Scenario.exam None)) 105500 in
  let w1 := (SpeakingGateway.handleDisconnect env "c1" Scenario.greeted).2 in
  let w2 := (SpeakingGateway.graceTimeout_fires env' "c1" 0 w1).2 in
  out w2 =
    out Scenario.greeted
    ++ [UpsertTranscript "exam-1" (conversationHistory Scenario.greeted_context);
        UpdateExamSession "exam-1"
          {| Db.u_status := "interrupted"; Db.u_completed_at := Some 105500%Z;
             Db.u_elapsed_time := Some 100%Z; Db.u_pause_timestamp := None |}].
Proof.
  intros env env'.
  exact (proj1 (gateway_flushes_before_terminal_row env env' "c1" 0
                  Scenario.greeted_context Scenario.greeted eq_refl eq_refl)).
Defined.

(** ** Timer callbacks and stale state *)




(** ** The single-flight invariant *)

Lemma evolves_refl w : evolves w w.
Proof. split; [done|]. intros r c Hc. by exists c. Qed.

Lemma evolves_trans w1 w2 w3 : evolves w1 w2 → evolves w2 w3 → evolves w1 w3.
Proof.
  intros [Hs1 Hh1] [Hs2 Hh2]. split; [by etrans|].
  intros r c Hc. destruct (Hh1 r c Hc) as (c' & Hc' & Hid).
  destruct (Hh2 r c' Hc') as (c'' & Hc'' & Hid'). exists c''. split; [done|congruence].
Qed.

(** A step that leaves the registry and the context objects alone. *)
Lemma evolves_frame w w' :
  sessions w' = sessions w → heap w' = heap w → evolves w w'.
Proof. intros Hs Hh. split; [by rewrite Hs|]. intros r c Hc. exists c. by rewrite Hh. Qed.

Lemma ids_sublist h ss ss' : ss' `sublist_of` ss → ids h ss' `sublist_of` ids h ss.
Proof.
  induction 1 as [|e l1 l2 _ IH|e l1 l2 _ IH]; unfold ids in *; cbn; [done|..].
  - destruct (sessionId <$> h !! e.2); [by constructor|done].
  - destruct (sessionId <$> h !! e.2); [by constructor|done].
Qed.

Lemma ids_ext h h' ss :
  Forall (λ e, sessionId <$> h' !! e.2 = sessionId <$> h !! e.2) ss → ids h' ss = ids h ss.
Proof.
  induction 1 as [|e ss He _ IH]; unfold ids in *; cbn; [done|]. by rewrite He, IH.
Qed.

Lemma evolves_keeps_ids w w' (e : string * nat) :
  evolves w w' → e.2 < length (heap w) →
  sessionId <$> heap w' !! e.2 = sessionId <$> heap w !! e.2 ∧ e.2 < length (heap w').
Proof.
  intros [_ Hh] He.
  destruct (lookup_lt_is_Some_2 _ _ He) as [c Hc].
  destruct (Hh _ _ Hc) as (c' & Hc' & Hid). rewrite Hc, Hc'. cbn.
  split; [by f_equal|]. by eapply lookup_lt_Some.
Qed.

Lemma evolves_single_flight w w' : evolves w w' → single_flight w → single_flight w'.
Proof.
  intros Hev [Hnd Hval].
  assert (Hval' : Forall (λ e, e.2 < length (heap w)) (sessions w')).
  { rewrite Forall_forall in Hval |- *. intros e He. apply Hval.
    eapply elem_of_sublist; [done|apply Hev]. }
  split.
  - unfold registered_ids. rewrite (ids_ext (heap w)).
    + eapply sublist_NoDup; [done|]. apply ids_sublist, Hev.
    + eapply Forall_impl; [exact Hval'|]. intros e He. by apply evolves_keeps_ids.
  - eapply Forall_impl; [exact Hval'|]. intros e He. by eapply evolves_keeps_ids.
Qed.

(** *** Computations that only let the state evolve *)

Lemma pres_ret {A} (a : A) : pres (mret a).
Proof. intros w. apply evolves_refl. Qed.

Lemma pres_throw {A} e : pres (throw (A:=A) e).
Proof. intros w. apply evolves_refl. Qed.

Lemma pres_gets {A} (f : World → A) : pres (gets f).
Proof. intros w. apply evolves_refl. Qed.

Lemma pres_bind {A B} (m : M World A) (k : A → M World B) :
  pres m → (∀ a, pres (k a)) → pres (m ≫= k).
Proof.
  intros Hm Hk w. unfold mbind, M_bind.
  specialize (Hm w). destruct (m w) as [[a|e] w1]; cbn in *; [|done].
  eapply evolves_trans; [done|apply Hk].
Qed.

Lemma pres_try_catch {A} (body : M World A) handler :
  pres body → (∀ e, pres (handler e)) → pres (try_catch body handler).
Proof.
  intros Hm Hk w. unfold try_catch.
  specialize (Hm w). destruct (body w) as [[a|e] w1]; cbn in *; [done|].
  eapply evolves_trans; [done|apply Hk].
Qed.

Lemma pres_when b (m : M World unit) : pres m → pres (when b m).
Proof. intros Hm. unfold when. destruct b; [done|apply pres_ret]. Qed.

Lemma pres_for_each {A} (xs : list A) (body : A → M World unit) :
  (∀ x, pres (body x)) → pres (for_each xs body).
Proof.
  intros Hb. induction xs as [|x xs IH]; cbn; [apply pres_ret|].
  apply pres_bind; [apply Hb|by intros _].
Qed.

Lemma pres_modify (f : World → World) :
  (∀ w, sessions (f w) = sessions w) → (∀ w, heap (f w) = heap w) → pres (modify f).
Proof. intros Hs Hh w. apply evolves_frame; cbn; auto. Qed.

Lemma pres_await {A} (q : Db.Query A) : pres (await q).
Proof. destruct q; cbn; [apply pres_ret|apply pres_throw]. Qed.

Lemma pres_effect e : pres (effect e).
Proof. by apply pres_modify. Qed.

Lemma pres_emit client p : pres (emit client p).
Proof. apply pres_effect. Qed.

Lemma pres_client_disconnect client : pres (client_disconnect client).
Proof. apply pres_bind; [by apply pres_modify|intros _; apply pres_effect]. Qed.

Lemma pres_client_connected client : pres (client_connected client).
Proof. apply pres_gets. Qed.

Lemma pres_setTimeout b t : pres (setTimeout b t).
Proof.
  apply pres_bind; [apply pres_gets|intros t0].
  apply pres_bind; [by apply pres_modify|intros _].
  apply pres_bind; [by apply pres_modify|intros _; apply pres_ret].
Qed.

Lemma pres_clearTimeout t : pres (clearTimeout t).
Proof. by apply pres_modify. Qed.

Lemma pres_read r : pres (read r).
Proof.
  apply pres_bind; [apply pres_gets|]. intros [c|]; [apply pres_ret|apply pres_throw].
Qed.

Lemma pres_assign r f : (∀ c, sessionId (f c) = sessionId c) → pres (assign r f).
Proof.
  intros Hf w. unfold assign, read, mbind, M_bind, gets, modify, mret, M_ret, throw. cbn.
  destruct (heap w !! r) as [c|] eqn:Hc; cbn; [|apply evolves_refl].
  split; [done|]. intros r' c' Hc'. cbn. destruct (decide (r = r')) as [<-|Hne].
  - rewrite list_lookup_insert_eq by (by eapply lookup_lt_Some).
    exists (f c). split; [done|]. rewrite Hf. congruence.
  - rewrite list_lookup_insert_ne by done. by exists c'.
Qed.

Lemma pres_alloc c : pres (alloc c).
Proof.
  intros w. split; [done|]. intros r c' Hc'. exists c'. split; [|done].
  cbn. by apply lookup_app_l_Some.
Qed.

Lemma pres_gemini {A} (m : M GeminiService.State A) : pres (gemini m).
Proof.
  intros w. unfold gemini, zoom. destruct (m (geminiService w)) as [r g]. cbn.
  by apply evolves_frame.
Qed.

Lemma delete_sublist {V} (k : string) (m : list (string * V)) :
  JsMap.delete k m `sublist_of` m.
Proof.
  induction m as [|[k' v] m IH]; cbn; [done|].
  case_decide; [by apply sublist_cons|by apply sublist_skip].
Qed.

Lemma pres_sessions_delete client : pres (SpeakingGateway.sessions_delete client).
Proof.
  intros w. split; [apply delete_sublist|]. intros r c Hc. by exists c.
Qed.

Lemma pres_sessions_clear : pres (modify (upd_sessions (λ _, []))).
Proof.
  intros w. split; [apply sublist_nil_l|]. intros r c Hc. by exists c.
Qed.

Lemma pres_sessions_get client : pres (SpeakingGateway.sessions_get client).
Proof. apply pres_gets. Qed.

(** Handlers are built from the steps above: [pres] is proved by following
    their syntax. *)
Ltac pres_step :=
  lazymatch goal with
  | |- pres (mbind _ _) => apply pres_bind; [|intros ?]
  | |- pres (mret _) => apply pres_ret
  | |- pres (throw _) => apply pres_throw
  | |- pres (try_catch _ _) => apply pres_try_catch; [|intros ?]
  | |- pres (gets _) => apply pres_gets
  | |- pres (when _ _) => apply pres_when
  | |- pres (for_each _ _) => apply pres_for_each; intros ?
  | |- pres (await _) => apply pres_await
  | |- pres (effect _) => apply pres_effect
  | |- pres (emit _ _) => apply pres_emit
  | |- pres (client_disconnect _) => apply pres_client_disconnect
  | |- pres (client_connected _) => apply pres_client_connected
  | |- pres (setTimeout _ _) => apply pres_setTimeout
  | |- pres (clearTimeout _) => apply pres_clearTimeout
  | |- pres (read _) => apply pres_read
  | |- pres (assign _ _) => apply pres_assign; by intros ?
  | |- pres (alloc _) => apply pres_alloc
  | |- pres (gemini _) => apply pres_gemini
  | |- pres (SpeakingGateway.sessions_get _) => apply pres_sessions_get
  | |- pres (SpeakingGateway.sessions_delete _) => apply pres_sessions_delete
  | |- pres (modify (upd_sessions (λ _, []))) => apply pres_sessions_clear
  | |- pres (modify _) => by apply pres_modify
  | |- pres (match ?x with _ => _ end) => destruct x
  | |- pres (GeminiService.createLiveSession _ _ _ _ _ _ _) =>
      unfold GeminiService.createLiveSession; cbv zeta
  | |- pres (?f _ _ _ _ _ _) => unfold f
  | |- pres (?f _ _ _ _ _) => unfold f
  | |- pres (?f _ _ _ _) => unfold f
  | |- pres (?f _ _ _) => unfold f
  | |- pres (?f _ _) => unfold f
  | |- pres (?f _) => unfold f
  | |- pres ?f => unfold f
  end.

Ltac solve_pres := repeat (pres_step; cbv beta).

Lemma pres_reject client code msg : pres (SpeakingGateway.reject client code msg).
Proof. solve_pres. Qed.

Lemma pres_handleDisconnect env client : pres (SpeakingGateway.handleDisconnect env client).
Proof. solve_pres. Qed.

Lemma pres_handleAudioChunk env client payload :
  pres (SpeakingGateway.handleAudioChunk env client payload).
Proof. solve_pres. Qed.

Lemma pres_handlePauseSession env client : pres (SpeakingGateway.handlePauseSession env client).
Proof. solve_pres. Qed.

Lemma pres_handleResumeSession env client : pres (SpeakingGateway.handleResumeSession env client).
Proof. solve_pres. Qed.

Lemma pres_fire env t : pres (fire env t).
Proof. solve_pres. Qed.

Lemma pres_sessionReady env client sid examSession r :
  pres (SpeakingGateway.sessionReady env client sid examSession r).
Proof. solve_pres. Qed.

Lemma pres_onAudioResponse env cbs response :
  pres (SpeakingGateway.onAudioResponse env cbs response).
Proof. solve_pres. Qed.

Lemma pres_gateway_onModuleDestroy : pres SpeakingGateway.onModuleDestroy.
Proof. solve_pres. Qed.

Lemma pres_controller_endSession env payload sid reason :
  pres (SpeakingController.endSession env payload sid reason).
Proof. solve_pres. Qed.

(** *** The registry lookup and the two registrations *)

Lemma find_entry_None sid h ss :
  SpeakingGateway.find_entry sid h ss = None → sid ∉ ids h ss.
Proof.
  induction ss as [|[k r] ss IH]; cbn; [intros _; apply not_elem_of_nil|].
  unfold ids in *. cbn. destruct (h !! r) as [c|]; cbn; [|done].
  case_decide; [done|]. intros Hf. apply not_elem_of_cons. split; [congruence|auto].
Qed.

Lemma find_entry_Some sid h ss old r :
  SpeakingGateway.find_entry sid h ss = Some (old, r) →
  (old, r) ∈ ss ∧ sessionId <$> h !! r = Some sid.
Proof.
  induction ss as [|[k r'] ss IH]; cbn; [done|].
  destruct (h !! r') as [c|] eqn:Hc; cbn.
  - case_decide as Hsid.
    + intros [= <- <-]. split; [left|]. by rewrite Hc, <- Hsid.
    + intros Hf. destruct (IH Hf). split; [by right|done].
  - intros Hf. destruct (IH Hf). split; [by right|done].
Qed.

Lemma ids_delete_not_in sid h ss old r :
  NoDup (ids h ss) → (old, r) ∈ ss → sessionId <$> h !! r = Some sid →
  sid ∉ ids h (JsMap.delete old ss).
Proof.
  induction ss as [|[k r'] ss IH]; cbn; [intros _ []%elem_of_nil|].
  unfold ids in *. cbn. intros Hnd Hin Hr.
  apply elem_of_cons in Hin as [[= <- <-]|Hin].
  - rewrite decide_True by done. rewrite Hr in Hnd. cbn in Hnd.
    apply NoDup_cons in Hnd as [Hnotin _]. intros Hin. apply Hnotin.
    eapply elem_of_sublist; [exact Hin|]. apply (ids_sublist h), delete_sublist.
  - assert (Hnd' : NoDup (omap (λ e : string * nat, sessionId <$> h !! e.2) ss)).
    { destruct (sessionId <$> h !! r'); [by apply NoDup_cons in Hnd as []|done]. }
    case_decide; [by apply IH|]. cbn.
    destruct (sessionId <$> h !! r') as [sid'|] eqn:Hsid'; [|by apply IH].
    apply not_elem_of_cons. split; [|by apply IH].
    intros <-. apply NoDup_cons in Hnd as [Hnotin _]. apply Hnotin.
    apply list_elem_of_omap. exists (old, r). by split.
Qed.

Lemma ids_set sid h ss k r :
  sid ∉ ids h ss → sessionId <$> h !! r = Some sid → NoDup (ids h ss) →
  NoDup (ids h (JsMap.set k r ss)).
Proof.
  induction ss as [|[k' r'] ss IH]; unfold ids in *; cbn; intros Hnotin Hr Hnd.
  - rewrite Hr. cbn. apply NoDup_singleton.
  - case_decide as Hk; cbn.
    + rewrite Hr. cbn.
      destruct (sessionId <$> h !! r') as [sid'|]; cbn in *.
      * apply NoDup_cons in Hnd as [_ Hnd]. apply not_elem_of_cons in Hnotin as [_ Hnotin].
        by apply NoDup_cons.
      * by apply NoDup_cons.
    + destruct (sessionId <$> h !! r') as [sid'|] eqn:Hsid'; cbn in *; [|by apply IH].
      apply not_elem_of_cons in Hnotin as [Hne Hnotin].
      apply NoDup_cons in Hnd as [Hnotin' Hnd].
      apply NoDup_cons. split; [|by apply IH].
      intros Hin. apply list_elem_of_omap in Hin as ([k0 r0] & Hin & Hsid0). cbn in Hsid0.
      (* an element of [set k r ss] is the new entry or an old one *)
      assert (Hcases : (k0, r0) = (k, r) ∨ (k0, r0) ∈ ss).
      { clear -Hin. induction ss as [|[k1 r1] ss IH]; cbn in Hin.
        - apply list_elem_of_singleton in Hin. by left.
        - case_decide.
          + apply elem_of_cons in Hin as [->|Hin]; [by left|]. right. by right.
          + apply elem_of_cons in Hin as [->|Hin]; [right; by left|].
            destruct (IH Hin); [by left|right; by right]. }
      destruct Hcases as [[= -> ->]|Hold].
      * rewrite Hr in Hsid0. congruence.
      * apply Hnotin'. apply list_elem_of_omap. by exists (k0, r0).
Qed.

Lemma Forall_set {V} (P : string * V → Prop) k v (m : list (string * V)) :
  P (k, v) → Forall P m → Forall P (JsMap.set k v m).
Proof.
  intros Hkv. induction 1 as [|[k' v'] m Hx Hm IH]; cbn; [by repeat constructor|].
  case_decide; by constructor.
Qed.


(** Registering context [r] under [client], in a state where its
    exam-session id is not registered, keeps the invariant. *)
Lemma single_flight_register client r sid w :
  single_flight w →
  sid ∉ registered_ids w →
  sessionId <$> heap w !! r = Some sid →
  single_flight (upd_sessions (JsMap.set client r) w).
Proof.
  intros [Hnd Hval] Hnotin Hr. split; cbn.
  - by eapply ids_set.
  - apply Forall_set; [|done]. cbn. apply lookup_lt_is_Some.
    destruct (heap w !! r); [done|discriminate].
Qed.

(** *** Computations that may register a context *)

Lemma evolves_registered_ids w w' :
  evolves w w' → single_flight w → registered_ids w' `sublist_of` registered_ids w.
Proof.
  intros Hev [_ Hval]. unfold registered_ids.
  rewrite (ids_ext (heap w)); [apply ids_sublist, Hev|].
  rewrite Forall_forall in Hval |- *. intros e He. apply evolves_keeps_ids; [done|].
  apply Hval. eapply elem_of_sublist; [done|apply Hev].
Qed.

Lemma stable_single_flight : stable single_flight.
Proof. intros w w'. apply evolves_single_flight. Qed.

Lemma stable_unregistered sid : stable (unregistered sid).
Proof.
  intros w w' Hev [Hsf Hnotin]. split; [by eapply evolves_single_flight|].
  intros Hin. apply Hnotin. eapply elem_of_sublist; [done|by apply evolves_registered_ids].
Qed.

Lemma stable_allocated sid r : stable (allocated sid r).
Proof.
  intros w w' Hev [Hun Hr]. split; [by eapply stable_unregistered|].
  destruct (heap w !! r) as [c|] eqn:Hc; [|done].
  destruct Hev as [_ Hh]. destruct (Hh _ _ Hc) as (c' & -> & Hid). cbn in *. congruence.
Qed.

Section keeps.
Context (P : World → Prop) (Hstable : stable P) (Hsf : ∀ w, P w → single_flight w).

Lemma keeps_pres {A} (m : M World A) : pres m → keeps P m.
Proof using Hsf. intros Hm w Hw. eapply evolves_single_flight; [apply Hm|auto]. Qed.

Lemma keeps_bind {A B} (m : M World A) (k : A → M World B) :
  pres m → (∀ a, keeps P (k a)) → keeps P (m ≫= k).
Proof using Hstable Hsf.
  intros Hm Hk w Hw. unfold mbind, M_bind. specialize (Hm w).
  destruct (m w) as [[a|e] w1]; cbn in *.
  - apply Hk. by eapply Hstable.
  - eapply evolves_single_flight; [done|auto].
Qed.

Lemma keeps_try_catch {A} (body : M World A) handler :
  keeps P body → (∀ e, pres (handler e)) → keeps P (try_catch body handler).
Proof using Type.
  intros Hb Hh w Hw. unfold try_catch. specialize (Hb w Hw).
  destruct (body w) as [[a|e] w1]; cbn in *; [done|].
  eapply evolves_single_flight; [apply Hh|done].
Qed.
End keeps.

Lemma keeps_bind_gets P {A B} (f : World → A) (k : A → M World B) :
  (∀ a, keeps (λ w, P w ∧ f w = a) (k a)) → keeps P (gets f ≫= k).
Proof. intros Hk w Hw. unfold mbind, M_bind, gets. cbn. by apply Hk. Qed.

Lemma keeps_weaken (P Q : World → Prop) {A} (m : M World A) :
  (∀ w, P w → Q w) → keeps Q m → keeps P m.
Proof. intros HPQ Hm w Hw. auto. Qed.

Lemma keeps_alloc sid c {B} (k : Ref → M World B) :
  sessionId c = sid →
  (∀ r, keeps (allocated sid r) (k r)) → keeps (unregistered sid) (alloc c ≫= k).
Proof.
  intros Hsid Hk w Hw. unfold mbind, M_bind, alloc, gets, modify, mret, M_ret. cbn.
  apply Hk. split.
  - eapply stable_unregistered; [apply (pres_alloc c w)|done].
  - cbn. rewrite lookup_app_r by done. rewrite Nat.sub_diag. cbn. by rewrite Hsid.
Qed.

Lemma keeps_register sid client r (tail : M World unit) :
  pres tail →
  keeps (allocated sid r) (SpeakingGateway.sessions_set client r;; tail).
Proof.
  intros Htail w [[Hsf Hnotin] Hr].
  unfold mbind, M_bind, SpeakingGateway.sessions_set, modify. cbn.
  eapply evolves_single_flight; [apply Htail|]. by eapply single_flight_register.
Qed.

Lemma keeps_firstConnection env client sid auth :
  keeps (unregistered sid) (SpeakingGateway.firstConnection env client sid auth).
Proof.
  pose proof (stable_unregistered sid) as Hst.
  assert (Hsf : ∀ w, unregistered sid w → single_flight w) by (by intros w []).
  pose proof (λ r, stable_allocated sid r) as Hst'.
  assert (Hsf' : ∀ r w, allocated sid r w → single_flight w) by (by intros r w [[] _]).
  unfold SpeakingGateway.firstConnection.
  apply keeps_bind; [done|done|solve_pres|]. intros [examSession sessionError]; cbv beta iota.
  destruct sessionError, examSession as [examSession|];
    try solve [apply keeps_pres; [done|solve_pres]].
  case_decide; [apply keeps_pres; [done|solve_pres]|].
  case_decide; [apply keeps_pres; [done|solve_pres]|].
  apply keeps_bind; [done|done|solve_pres|]. intros [studentRow studentError]; cbv beta iota.
  destruct studentError, studentRow as [studentRow|];
    try solve [apply keeps_pres; [done|solve_pres]].
  apply keeps_bind; [done|done|solve_pres|]. intros [activationCode acError]; cbv beta iota.
  destruct acError, activationCode as [activationCode|];
    try solve [apply keeps_pres; [done|solve_pres]].
  case_decide; [apply keeps_pres; [done|solve_pres]|].
  destruct (match Db.expires_at activationCode with
            | Some e => bool_decide (e < now env)%Z
            | None => false
            end); [apply keeps_pres; [done|solve_pres]|].
  apply keeps_alloc; [done|]. intros r.
  apply keeps_bind; [apply Hst'|apply Hsf'|solve_pres|]. intros created.
  destruct created; [|apply keeps_pres; [apply Hsf'|solve_pres]].
  apply keeps_bind; [apply Hst'|apply Hsf'|solve_pres|]. intros isActive.
  destruct isActive; [|apply keeps_pres; [apply Hsf'|solve_pres]].
  apply keeps_register. apply pres_sessionReady.
Qed.

(** Reconnection moves the registry entry of the context to the new client
    and updates the context in place. *)
Lemma reconnect_run env client sid old r t c w :
  heap w !! r = Some c →
  let w' := (SpeakingGateway.reconnect env client sid old r t w).2 in
  sessions w' = JsMap.set client r (JsMap.delete old (sessions w))
  ∧ ∃ c', heap w' = <[r:=c']> (heap w) ∧ sessionId c' = sessionId c.
Proof.
  intros Hr w'. subst w'.
  assert (Hlt : r < length (heap w)) by (by eapply lookup_lt_Some).
  unfold SpeakingGateway.reconnect. mrun with Hr.
  split; [done|]. eexists. by split.
Qed.

Lemma keeps_reconnect env client sid old r t :
  keeps (λ w, (single_flight w
               ∧ SpeakingGateway.find_entry sid (heap w) (sessions w) = Some (old, r))
              ∧ ∃ c, heap w !! r = Some c)
    (SpeakingGateway.reconnect env client sid old r t).
Proof.
  intros w [[Hsf Hfind] [c Hc]].
  destruct (reconnect_run env client sid old r t c w Hc) as (Hss & c' & Hh & Hid).
  apply find_entry_Some in Hfind as [Hin Hsid].
  set (w1 := upd_sessions (JsMap.delete old) w).
  assert (Hsf1 : single_flight w1).
  { eapply evolves_single_flight; [|done]. apply (pres_sessions_delete old w). }
  assert (Hsf2 : single_flight (upd_sessions (JsMap.set client r) w1)).
  { apply (single_flight_register _ _ sid); [done| |done].
    destruct Hsf as [Hnd _]. by eapply ids_delete_not_in. }
  eapply evolves_single_flight; [|exact Hsf2]. split.
  - rewrite Hss. done.
  - intros r0 c0 Hr0. cbn in Hr0. rewrite Hh.
    destruct (decide (r0 = r)) as [->|Hne].
    + exists c'. rewrite list_lookup_insert_eq by (by eapply lookup_lt_Some).
      split; [done|]. congruence.
    + exists c0. by rewrite list_lookup_insert_ne.
Qed.

Lemma keeps_bind_read (P : World → Prop) r {B} (k : SessionContext → M World B) :
  (∀ w, P w → single_flight w) →
  (∀ c, keeps (λ w, P w ∧ heap w !! r = Some c) (k c)) → keeps P (read r ≫= k).
Proof.
  intros Hsf Hk w Hw. pose proof (Hsf w Hw) as Hw'.
  assert (Hk' : ∀ c, heap w !! r = Some c → single_flight (k c w).2)
    by (intros c Hc; by apply Hk).
  unfold read, gets, mret, M_ret, throw, mbind, M_bind. cbn.
  destruct (heap w !! r) as [c|]; cbn; [by apply Hk'|done].
Qed.

Lemma keeps_handleConnection env client :
  keeps single_flight (SpeakingGateway.handleConnection env client).
Proof.
  pose proof stable_single_flight as Hst.
  unfold SpeakingGateway.handleConnection.
  apply keeps_try_catch; [|intros ?; solve_pres].
  destruct (truthy_str _) as [sid|]; [|apply keeps_pres; [done|solve_pres]].
  destruct (SpeakingGateway.handshake_token _) as [token|];
    [|apply keeps_pres; [done|solve_pres]].
  destruct (TokenService.verifyAccessToken _ _) as [studentPayload|];
    [|apply keeps_pres; [done|solve_pres]].
  cbv zeta. unfold SpeakingGateway.findSessionBySessionId.
  apply keeps_bind_gets. intros [[old r]|].
  - apply keeps_bind_read; [by intros w []|]. intros c.
    destruct (disconnectTimer c) as [t|];
      [|apply keeps_pres; [by intros w [[] _]|solve_pres]].
    case_decide; [apply keeps_pres; [by intros w [[] _]|solve_pres]|].
    eapply keeps_weaken; [|apply keeps_reconnect]. intros w [Hw Hc]. split; [exact Hw|eauto].
  - eapply keeps_weaken; [|apply keeps_firstConnection].
    intros w [Hsf Hfind]. split; [done|]. by apply find_entry_None.
Qed.

(** *** Every event keeps the invariant *)

Lemma keeps_dispatch env ev : keeps single_flight (dispatch env ev).
Proof.
  pose proof stable_single_flight as Hst.
  destruct ev; unfold dispatch.
  - apply keeps_bind; [done|done|solve_pres|]. intros _. apply keeps_handleConnection.
  - apply keeps_pres; [done|]. apply pres_bind; [solve_pres|]. intros _.
    apply pres_handleDisconnect.
  - apply keeps_pres; [done|apply pres_handleAudioChunk].
  - apply keeps_pres; [done|apply pres_handlePauseSession].
  - apply keeps_pres; [done|apply pres_handleResumeSession].
  - apply keeps_pres; [done|apply pres_fire].
  - apply keeps_pres; [done|]. apply pres_bind; [solve_pres|]. intros [entry|];
      [apply pres_onAudioResponse|apply pres_ret].
  - apply keeps_pres; [done|apply pres_gemini].
  - apply keeps_pres; [done|]. apply pres_try_catch; [|intros ?; apply pres_ret].
    apply pres_bind; [apply pres_controller_endSession|intros ?; apply pres_ret].
  - apply keeps_pres; [done|]. apply pres_bind; [apply pres_gateway_onModuleDestroy|].
    intros _. apply pres_gemini.
Qed.

Lemma single_flight_initial prompts : single_flight (initial prompts).
Proof. split; cbn; [apply NoDup_nil_2|done]. Qed.

Lemma single_flight_run w es : single_flight w → single_flight (run w es).
Proof.
  revert w. induction es as [|e es IH]; intros w Hw; cbn; [done|].
  apply IH. by apply keeps_dispatch.
Qed.

Lemma single_flight_reachable w : reachable w → single_flight w.
Proof. intros (prompts & es & ->). apply single_flight_run, single_flight_initial. Qed.

(** A connection for an id whose registered context has no grace timer is
    turned away with code 4006 and changes neither registry nor heap. *)
Lemma duplicate_connection_run env (client : Socket) sid token payload old r c w :
  truthy_str (query_sessionId (handshake client)) = Some sid →
  SpeakingGateway.handshake_token (handshake client) = Some token →
  jwt_verify env token = Some payload →
  SpeakingGateway.find_entry sid (heap w) (sessions w) = Some (old, r) →
  heap w !! r = Some c →
  disconnectTimer c = None →
  let w' := (SpeakingGateway.handleConnection env client w).2 in
  sessions w' = sessions w
  ∧ heap w' = heap w
  ∧ out w' = out w ++ [Emit (id client) (connection_error 4006 "Session already connected");
                       SocketDisconnect (id client)].
Proof.
  intros Hsid Htok Hjwt Hfind Hr Ht w'. subst w'.
  unfold SpeakingGateway.handleConnection, TokenService.verifyAccessToken.
  mrun with Hsid Htok Hjwt Hfind Hr Ht. by rewrite <- app_assoc.
Qed.

(** The owner's connection for an id whose registered context has a grace
    timer moves the one registry entry to the new connection. *)
Lemma owner_reconnect_run env (client : Socket) sid token payload old r c t w :
  truthy_str (query_sessionId (handshake client)) = Some sid →
  SpeakingGateway.handshake_token (handshake client) = Some token →
  jwt_verify env token = Some payload →
  SpeakingGateway.find_entry sid (heap w) (sessions w) = Some (old, r) →
  heap w !! r = Some c →
  disconnectTimer c = Some t →
  studentId c = TokenService.studentId payload →
  sessions (SpeakingGateway.handleConnection env client w).2
  = JsMap.set (id client) r (JsMap.delete old (sessions w)).
Proof.
  intros Hsid Htok Hjwt Hfind Hr Ht Howner.
  assert (Hlt : r < length (heap w)) by (by eapply lookup_lt_Some).
  unfold SpeakingGateway.handleConnection, SpeakingGateway.reconnect,
    TokenService.verifyAccessToken.
  mrun with Hsid Htok Hjwt Hfind Hr Ht. done.
Qed.

(** As long as every handler runs to completion before the next one
    starts, the registry holds at most one context per exam session id: in
    every state reached that way the ids of the registered contexts are
    pairwise distinct.  The two mechanisms behind it: a connection for an
    id that is registered with a context that has no grace timer is turned
    away with code 4006 "Session already connected" and leaves registry and
    contexts as they were; the owner's connection for an id whose context
    has a grace timer moves the existing entry to the new connection, and
    afterwards the ids are still pairwise distinct. *)
Theorem registry_single_flight w :
  reachable w →
  NoDup (registered_ids w)
  ∧ ∀ env (client : Socket) sid token payload old r c,
      truthy_str (query_sessionId (handshake client)) = Some sid →
      SpeakingGateway.handshake_token (handshake client) = Some token →
      jwt_verify env token = Some payload →
      SpeakingGateway.find_entry sid (heap w) (sessions w) = Some (old, r) →
      heap w !! r = Some c →
      let w' := (SpeakingGateway.handleConnection env client w).2 in
      NoDup (registered_ids w')
      ∧ match disconnectTimer c with
        | None =>
            sessions w' = sessions w
            ∧ heap w' = heap w
            ∧ out w' = out w ++ [Emit (id client)
                                   (connection_error 4006 "Session already connected");
                                 SocketDisconnect (id client)]
        | Some t =>
            studentId c = TokenService.studentId payload →
            sessions w' = JsMap.set (id client) r (JsMap.delete old (sessions w))
        end.
Proof.
  intros Hreach. apply single_flight_reachable in Hreach as Hsf.
  split; [apply Hsf|].
  intros env client sid token payload old r c Hsid Htok Hjwt Hfind Hr w'.
  split; [by apply keeps_handleConnection|].
  destruct (disconnectTimer c) as [t|] eqn:Ht.
  - intros Howner. by eapply owner_reconnect_run.
  - by eapply duplicate_connection_run.
Qed.

(** After anna's first connection the registry holds "exam-1" once, and
    a second socket that asks for "exam-1" is turned away. *)
Lemma registry_single_flight_witness :
  let w' := (SpeakingGateway.handleConnection (Scenario.env (Some (Scenario.exam None)) 0)
               (Scenario.socket "c2" "anna-token" (Some "exam-1")) (Scenario.joined None)).2 in
  NoDup (registered_ids (Scenario.joined None))
  ∧ NoDup (registered_ids w')
  ∧ sessions w' = sessions (Scenario.joined None)
  ∧ heap w' = heap (Scenario.joined None)
  ∧ out w' = out (Scenario.joined None)
             ++ [Emit "c2" (connection_error 4006 "Session already connected");
                 SocketDisconnect "c2"].
Proof.
  assert (Hreach : reachable (Scenario.joined None)).
  { unfold reachable, Scenario.joined. eexists _, _. reflexivity. }
  destruct (registry_single_flight (Scenario.joined None) Hreach) as [Hids Hconn].
  destruct (Hconn (Scenario.env (Some (Scenario.exam None)) 0)
              (Scenario.socket "c2" "anna-token" (Some "exam-1"))
              "exam-1" "anna-token" Scenario.anna "c1" 0 Scenario.joined_context
              eq_refl eq_refl eq_refl
              ltac:(vm_compute; reflexivity) ltac:(vm_compute; reflexivity))
    as [Hids' Hsame].
  exact (conj Hids (conj Hids' Hsame)).
Defined.

(** *** Two connections for one exam session that overlap *)

Lemma delete_set_absent {K V} `{EqDecision K} (m : list (K * V)) k v :
  JsMap.get k m = None → JsMap.delete k (JsMap.set k v m) = m.
Proof.
  induction m as [|[k' v'] m IH]; simpl.
  - intros _. by rewrite decide_True.
  - case_decide; [done|]. intros Hm. simpl. rewrite decide_False by done. by rewrite IH.
Qed.

(** The handler is its first turn followed by its later turns. *)
Lemma handleConnection_split env client w :
  SpeakingGateway.handleConnection env client w
  = (locals ← SpeakingGateway.handleConnection_begin env client;
     match locals with
     | Some (sid, authenticatedStudentId) =>
         SpeakingGateway.handleConnection_resume env (id client) sid authenticatedStudentId
     | None => mret tt
     end) w.
Proof.
  unfold SpeakingGateway.handleConnection, SpeakingGateway.handleConnection_begin,
    SpeakingGateway.handleConnection_resume.
  unfold try_catch, mbind, M_bind, mret, M_ret.
  destruct (truthy_str _) as [sid|].
  2: { destruct (SpeakingGateway.reject _ _ _ w) as [[[]|e] w1]; [done|].
       by destruct (SpeakingGateway.reject _ _ _ w1) as [[[]|e'] w2]. }
  destruct (SpeakingGateway.handshake_token _) as [token|].
  2: { destruct (SpeakingGateway.reject _ _ _ w) as [[[]|e] w1]; [done|].
       by destruct (SpeakingGateway.reject _ _ _ w1) as [[[]|e'] w2]. }
  destruct (TokenService.verifyAccessToken _ _) as [payload|err].
  2: { destruct (SpeakingGateway.reject _ _ _ w) as [[[]|e] w1]; [done|].
       by destruct (SpeakingGateway.reject _ _ _ w1) as [[[]|e'] w2]. }
  cbv zeta.
  destruct (SpeakingGateway.findSessionBySessionId sid w) as [[[[old r]|]|e] w1].
  - destruct (read r w1) as [[c|e] w2].
    + destruct (disconnectTimer c) as [t|].
      * destruct (decide _).
        -- destruct (SpeakingGateway.reject _ _ _ w2) as [[[]|e] w3]; [done|].
           by destruct (SpeakingGateway.reject _ _ _ w3) as [[[]|e'] w4].
        -- destruct (SpeakingGateway.reconnect _ _ _ _ _ _ w2) as [[[]|e] w3]; [done|].
           by destruct (SpeakingGateway.reject _ _ _ w3) as [[[]|e'] w4].
      * destruct (SpeakingGateway.reject _ _ _ w2) as [[[]|e] w3]; [done|].
        by destruct (SpeakingGateway.reject _ _ _ w3) as [[[]|e'] w4].
    + by destruct (SpeakingGateway.reject _ _ _ w2) as [[[]|e'] w3].
  - done.
  - by destruct (SpeakingGateway.reject _ _ _ w1) as [[[]|e'] w2].
Qed.

(** A connection whose query resolves before anything else happens is
    handled as by [dispatch]: the turns extend the runs of [run]. *)
Lemma arrives_then_resolves o env client :
  JsMap.get (id client) (suspended o) = None →
  turns o [(env, Arrives client); (env, Resolves (id client))]
  = {| world := step (world o) (env, Connection client); suspended := suspended o |}.
Proof.
  intros Hnone. unfold turns, step, dispatch. cbn [foldl turn fst snd].
  set (w1 := upd_connectedSockets (λ cs, cs ++ [id client]) (world o)).
  assert (Hm : ∀ A (k : M World A),
             (modify (upd_connectedSockets (λ cs, cs ++ [id client]));; k) (world o) = k w1)
    by done.
  rewrite !Hm, handleConnection_split. unfold mbind, M_bind.
  destruct (SpeakingGateway.handleConnection_begin env client w1)
    as [[[[sid authenticatedStudentId]|]|e] w2]; cbn [fst snd suspended world].
  - by rewrite get_set_eq, delete_set_absent.
  - rewrite Hnone. by destruct o.
  - rewrite Hnone. by destruct o.
Qed.

(** C3 does not hold of the code.  The registry lookup of
    [handleConnection] and its [sessions.set] are separated by the
    handler's [await]s, and nothing keeps a second handler for the same
    exam session from running in between.  When a second socket of anna
    asks for "exam-1" while the handler of her first socket waits for the
    stored row, both handlers find the registry empty, both create a
    context, and both are admitted: the registry ends with two contexts
    for "exam-1", each with its own timers and its own [session_ready].
    The same two connections handled one after the other leave one
    context; the second socket is turned away with 4006. *)
Theorem overlapping_connections_register_twice :
  registered_ids (world Scenario.overlapped) = ["exam-1"; "exam-1"]
  ∧ ¬ single_flight (world Scenario.overlapped)
  ∧ sessions (world Scenario.overlapped) = [("c1", 0); ("c2", 1)]
  ∧ suspended Scenario.overlapped = []
  ∧ out (world Scenario.overlapped)
    = [Emit "c1" (session_ready "exam-1" 1 0 (Some 240%Z) "ready");
       Emit "c2" (session_ready "exam-1" 1 0 (Some 240%Z) "ready")]
  ∧ registered_ids Scenario.one_after_the_other = ["exam-1"]
  ∧ single_flight Scenario.one_after_the_other
  ∧ out Scenario.one_after_the_other
    = [Emit "c1" (session_ready "exam-1" 1 0 (Some 240%Z) "ready");
       Emit "c2" (connection_error 4006 "Session already connected");
       SocketDisconnect "c2"].
Proof.
  assert (Hids : registered_ids (world Scenario.overlapped) = ["exam-1"; "exam-1"])
    by (vm_compute; reflexivity).
  assert (Hseq : registered_ids Scenario.one_after_the_other = ["exam-1"])
    by (vm_compute; reflexivity).
  split; [exact Hids|]. split.
  { intros [Hdup _]. rewrite Hids in Hdup.
    apply NoDup_cons in Hdup as [Hin _]. apply Hin. by left. }
  split; [vm_compute; reflexivity|]. split; [vm_compute; reflexivity|].
  split; [vm_compute; reflexivity|]. split; [exact Hseq|]. split.
  { split.
    - rewrite Hseq. apply NoDup_singleton.
    - assert (Hs : sessions Scenario.one_after_the_other = [("c1", 0)])
        by (vm_compute; reflexivity).
      assert (Hh : length (heap Scenario.one_after_the_other) = 1)
        by (vm_compute; reflexivity).
      rewrite Hs, Hh. repeat constructor. }
  vm_compute; reflexivity.
Qed.

(** * Further properties *)

(** ** The adapter: more on its bookkeeping *)

Lemma closeLiveSession_activeSessions sid (s : GeminiService.State) :
  GeminiService.activeSessions (GeminiService.closeLiveSession sid s).2
  = JsMap.delete sid (GeminiService.activeSessions s).
Proof.
  rewrite closeLiveSession_cases.
  destruct (JsMap.get sid (GeminiService.activeSessions s)) eqn:Hs; cbn; [done|].
  by rewrite delete_absent.
Qed.

(** After [closeLiveSession sid] the adapter refuses audio for [sid]:
    [sendAudioChunk] throws and makes no call on any handle, and
    [isSessionActive sid] is false.  The other sessions keep their entries. *)
Theorem close_then_send_is_refused sid audio mime (s : GeminiService.State) :
  let s1 := (GeminiService.closeLiveSession sid s).2 in
  (∃ e, GeminiService.sendAudioChunk sid audio mime s1 = (Throw e, s1))
  ∧ GeminiService.isSessionActive sid s1 = false
  ∧ ∀ sid', sid' ≠ sid →
      JsMap.get sid' (GeminiService.activeSessions s1)
      = JsMap.get sid' (GeminiService.activeSessions s).
Proof.
  intros s1.
  assert (Hgone : JsMap.get sid (GeminiService.activeSessions s1) = None).
  { subst s1. rewrite closeLiveSession_activeSessions. apply get_delete_eq. }
  split; [|split].
  - unfold GeminiService.sendAudioChunk, mbind, M_bind, gets, throw. cbn.
    rewrite Hgone. eauto.
  - unfold GeminiService.isSessionActive. by rewrite Hgone.
  - intros sid' Hne. subst s1. rewrite closeLiveSession_activeSessions.
    by apply get_delete_ne.
Qed.

Lemma closeLiveSession_returns sid (s : GeminiService.State) :
  (GeminiService.closeLiveSession sid s).1 = Ok tt.
Proof. rewrite closeLiveSession_cases. by destruct (JsMap.get sid _). Qed.

Lemma closeLiveSession_promptCache sid (s : GeminiService.State) :
  GeminiService.promptCache (GeminiService.closeLiveSession sid s).2
  = GeminiService.promptCache s.
Proof. rewrite closeLiveSession_cases. by destruct (JsMap.get sid _). Qed.

Lemma for_each_closeLiveSession l (s : GeminiService.State) :
  let r := for_each l GeminiService.closeLiveSession s in
  r.1 = Ok tt
  ∧ GeminiService.activeSessions r.2
    = foldl (λ m k, JsMap.delete k m) (GeminiService.activeSessions s) l
  ∧ GeminiService.promptCache r.2 = GeminiService.promptCache s.
Proof.
  revert s. induction l as [|k l IH]; intros s; cbn; [done|].
  unfold mbind, M_bind.
  pose proof (closeLiveSession_activeSessions k s) as Hk.
  pose proof (closeLiveSession_returns k s) as Hok.
  pose proof (closeLiveSession_promptCache k s) as Hp.
  destruct (GeminiService.closeLiveSession k s) as [[[]|e] s1]; cbn in *; [|done].
  destruct (IH s1) as (H1 & H2 & H3). by rewrite H2, H3, Hk, Hp.
Qed.

Lemma delete_all_keys {V} (l : list string) (m : list (string * V)) :
  (∀ k, k ∈ JsMap.keys m → k ∈ l) → foldl (λ m k, JsMap.delete k m) m l = [].
Proof.
  revert m. induction l as [|k l IH]; intros m Hm; cbn.
  - destruct m as [|[k v] m]; [done|]. exfalso. eapply not_elem_of_nil, (Hm k).
    unfold JsMap.keys. cbn. apply list_elem_of_here.
  - apply IH. intros k' Hk'.
    assert (Hin : k' ∈ JsMap.keys m ∧ k' ≠ k).
    { clear -Hk'. induction m as [|[k0 v0] m IHm]; cbn in *.
      - by apply elem_of_nil in Hk'.
      - unfold JsMap.keys in *. cbn in *. case_decide as Hd.
        + destruct (IHm Hk') as [? ?]. split; [by apply list_elem_of_further|done].
        + cbn in Hk'. apply elem_of_cons in Hk' as [->|Hk'].
          * split; [apply list_elem_of_here|congruence].
          * destruct (IHm Hk') as [? ?]. split; [by apply list_elem_of_further|done]. }
    destruct Hin as [Hin Hne]. apply Hm in Hin. apply elem_of_cons in Hin as [?|?]; done.
Qed.

(** Shutdown of the adapter never raises and leaves no bookkeeping entry
    behind, whatever the handles do when they are closed. *)
Theorem gemini_onModuleDestroy_closes_all (s : GeminiService.State) :
  (GeminiService.onModuleDestroy s).1 = Ok tt
  ∧ GeminiService.activeSessions (GeminiService.onModuleDestroy s).2 = []
  ∧ GeminiService.promptCache (GeminiService.onModuleDestroy s).2
    = GeminiService.promptCache s.
Proof.
  unfold GeminiService.onModuleDestroy, GeminiService.call, mbind, M_bind, gets, modify.
  cbn.
  match goal with |- context [for_each ?l _ ?s0] =>
    destruct (for_each_closeLiveSession l s0) as (H1 & H2 & H3) end.
  cbn in *. split; [done|]. split; [|done].
  rewrite H2. by apply delete_all_keys.
Qed.

Lemma reject_run client code message w :
  SpeakingGateway.reject client code message w = (Ok tt, refused client code message w).
Proof.
  unfold SpeakingGateway.reject, refused. mstep.
  unfold upd_out, upd_connectedSockets; cbn. by rewrite <- app_assoc.
Qed.

Lemma prefix_app (p s : string) : String.prefix p (p ++ s) = true.
Proof.
  induction p as [|a p IH]; simpl; [by destruct s|].
  by destruct (Ascii.ascii_dec a a).
Qed.

Lemma substring_whole (s : string) m : String.length s ≤ m → String.substring 0 m s = s.
Proof.
  revert m. induction s as [|a s IH]; intros m Hm; simpl in *; [by destruct m|].
  destruct m as [|m]; [lia|]. f_equal. apply IH. lia.
Qed.

Lemma substring_app (p s : string) m :
  String.length s ≤ m → String.substring (String.length p) m (p ++ s) = s.
Proof. intros Hm. induction p as [|a p IH]; simpl; [by apply substring_whole|done]. Qed.

Lemma length_app_string (p s : string) :
  String.length (p ++ s) = String.length p + String.length s.
Proof. induction p as [|a p IH]; simpl; [done|]. by rewrite IH. Qed.

Lemma remove_first_prefix (p s : string) : remove_first p (p ++ s) = s.
Proof.
  destruct (p ++ s)%string as [|a s'] eqn:Hps.
  - destruct p, s; try done.
  - rewrite <- Hps. assert (Hrf : ∀ x, remove_first p x =
      if String.prefix p x then String.substring (String.length p) (String.length x) x
      else match x with EmptyString => EmptyString | String c x' => String c (remove_first p x') end)
      by (by intros []).
    rewrite Hrf, prefix_app. apply substring_app. rewrite length_app_string. lia.
Qed.

(** A handshake that carries the credential only in its [Authorization]
    header as "Bearer <t>" yields the token [t]; an empty [t] counts as no
    token. *)
Theorem handshake_token_bearer (h : Handshake) (t : string) :
  truthy_str (auth_token h) = None →
  truthy_str (query_token h) = None →
  headers_authorization h = Some ("Bearer " ++ t)%string →
  SpeakingGateway.handshake_token h = if decide (t = "") then None else Some t.
Proof.
  intros Ha Hq Hh. unfold SpeakingGateway.handshake_token, or_str.
  rewrite Ha, Hq, Hh. cbn [fmap option_fmap option_map].
  rewrite remove_first_prefix. unfold truthy_str. by case_decide.
Qed.

Lemma handshake_token_bearer_witness :
  SpeakingGateway.handshake_token
    {| query_sessionId := Some "exam-1"; auth_token := Some ""; query_token := None;
       headers_authorization := Some "Bearer anna-token" |}
  = Some "anna-token".
Proof.
  exact (handshake_token_bearer
           {| query_sessionId := Some "exam-1"; auth_token := Some ""; query_token := None;
              headers_authorization := Some "Bearer anna-token" |}
           "anna-token" eq_refl eq_refl eq_refl).
Defined.

(** Authentication comes before any look at the session: a connection
    that names a session but carries no token is refused with 4008, one
    whose token does not verify with 4009; apart from the answer and the
    disconnect of this socket the process state is unchanged. *)
Theorem connection_requires_valid_token env (client : Socket) sid w :
  truthy_str (query_sessionId (handshake client)) = Some sid →
  match SpeakingGateway.handshake_token (handshake client) with
  | None =>
      SpeakingGateway.handleConnection env client w
      = (Ok tt, refused (id client) 4008 "Authentication required" w)
  | Some token =>
      jwt_verify env token = None →
      SpeakingGateway.handleConnection env client w
      = (Ok tt, refused (id client) 4009 "Invalid or expired token" w)
  end.
Proof.
  intros Hsid. unfold SpeakingGateway.handleConnection, TokenService.verifyAccessToken.
  destruct (SpeakingGateway.handshake_token (handshake client)) as [token|] eqn:Htok.
  - intros Hjwt. unfold try_catch. rewrite Hsid, Hjwt. by rewrite reject_run.
  - unfold try_catch. rewrite Hsid. by rewrite reject_run.
Qed.

Lemma connection_requires_valid_token_witness :
  let env := Scenario.env (Some (Scenario.exam None)) 1000 in
  let client := Scenario.socket "c2" "forged" (Some "exam-1") in
  SpeakingGateway.handleConnection env client (Scenario.joined None)
  = (Ok tt, refused "c2" 4009 "Invalid or expired token" (Scenario.joined None)).
Proof.
  intros env client.
  exact (connection_requires_valid_token env client "exam-1" (Scenario.joined None)
           eq_refl eq_refl).
Defined.

(** ** Invariants of the context objects *)

Section preserves.
Context (I : World → Prop).

Lemma preserves_ret {A} (a : A) : preserves I (mret a).
Proof. by intros w. Qed.

Lemma preserves_throw {A} e : preserves I (throw (A:=A) e).
Proof. by intros w. Qed.

Lemma preserves_gets {A} (f : World → A) : preserves I (gets f).
Proof. by intros w. Qed.

Lemma preserves_bind {A B} (m : M World A) (k : A → M World B) :
  preserves I m → (∀ a, preserves I (k a)) → preserves I (m ≫= k).
Proof.
  intros Hm Hk w Hw. unfold mbind, M_bind. specialize (Hm w Hw).
  destruct (m w) as [[a|e] w1]; cbn in *; [by apply Hk|done].
Qed.

Lemma preserves_try_catch {A} (body : M World A) handler :
  preserves I body → (∀ e, preserves I (handler e)) → preserves I (try_catch body handler).
Proof.
  intros Hb Hh w Hw. unfold try_catch. specialize (Hb w Hw).
  destruct (body w) as [[a|e] w1]; cbn in *; [done|by apply Hh].
Qed.

Lemma preserves_when b (m : M World unit) : preserves I m → preserves I (when b m).
Proof. intros Hm. unfold when. destruct b; [done|apply preserves_ret]. Qed.

Lemma preserves_for_each {A} (xs : list A) (body : A → M World unit) :
  (∀ x, preserves I (body x)) → preserves I (for_each xs body).
Proof.
  intros Hb. induction xs as [|x xs IH]; cbn; [apply preserves_ret|].
  apply preserves_bind; [apply Hb|by intros _].
Qed.

Lemma preserves_await {A} (q : Db.Query A) : preserves I (await q).
Proof. intros w Hw. by destruct q. Qed.
End preserves.






Ltac preserves_step prim :=
  lazymatch goal with
  | |- preserves _ (mbind _ _) => apply preserves_bind; [|intros ?]
  | |- preserves _ (mret _) => apply preserves_ret
  | |- preserves _ (throw _) => apply preserves_throw
  | |- preserves _ (try_catch _ _) => apply preserves_try_catch; [|intros ?]
  | |- preserves _ (gets _) => apply preserves_gets
  | |- preserves _ (when _ _) => apply preserves_when
  | |- preserves _ (for_each _ _) => apply preserves_for_each; intros ?
  | |- preserves _ (await _) => apply preserves_await
  | |- preserves _ (SpeakingGateway.rateLimit _ _ _ _) => fail
  | |- preserves _ (SpeakingGateway.sessions_set _ _) => fail
  | |- preserves _ (assign _ _) => prim
  | |- preserves _ (alloc _) => prim
  | |- preserves _ (gemini _) => prim
  | |- preserves _ (modify _) => prim
  | |- preserves _ (match ?x with _ => _ end) => destruct x
  | |- preserves _ (GeminiService.createLiveSession _ _ _ _ _ _ _) =>
      unfold GeminiService.createLiveSession
  | |- preserves _ (?f _ _ _ _ _ _) => unfold f
  | |- preserves _ (?f _ _ _ _ _) => unfold f
  | |- preserves _ (?f _ _ _ _) => unfold f
  | |- preserves _ (?f _ _ _) => unfold f
  | |- preserves _ (?f _ _) => unfold f
  | |- preserves _ (?f _) => unfold f
  | |- preserves _ ?f => unfold f
  end.

Ltac solve_preserves prim := repeat (preserves_step prim; cbv beta zeta).

Section context_invariant.
Context (P : SessionContext → Prop).
Context (H_new : ∀ env client sid exam, P (SpeakingGateway.newSessionContext env client sid exam)).
Context (H_clientId : ∀ v c, P c → P (set_clientId v c)).
Context (H_status : ∀ v c, P c → P (set_status v c)).
Context (H_startTime : ∀ v c, P c → P (set_startTime v c)).
Context (H_elapsedSeconds : ∀ v c, P c → P (set_elapsedSeconds v c)).
Context (H_expectedEndTime : ∀ v c, P c → P (set_expectedEndTime v c)).
Context (H_disconnectTimer : ∀ v c, P c → P (set_disconnectTimer v c)).
Context (H_lastAudioTimestamp : ∀ v c, P c → P (set_lastAudioTimestamp v c)).
Context (H_lastGeminiError : ∀ v c, P c → P (set_lastGeminiError v c)).
Context (H_timerHandles : ∀ v c, P c → P (set_timerHandles v c)).
Context (H_pauseGeminiCloseTimer : ∀ v c, P c → P (set_pauseGeminiCloseTimer v c)).
Context (H_history : ∀ t ts c,
           P c → P (set_conversationHistory
                      (conversationHistory c
                       ++ [{| speaker := elena; text := t; timestamp := ts |}]) c)).
Context (H_chunks : ∀ t c,
           P c → P (set_chunkTimestamps (keep100 (chunkTimestamps c ++ [t])) c)).









End context_invariant.










(** ** The fields of a context that are fixed at admission *)

Lemma preserves_from_modify n m P (f : World → World) :
  (∀ w, heap (f w) = heap w) → preserves (heap_from n m P) (modify f).
Proof. intros Hf w Hw. unfold heap_from in *. cbn. by rewrite Hf. Qed.

Lemma preserves_from_gemini n m P {A} (g : M GeminiService.State A) :
  preserves (heap_from n m P) (gemini g).
Proof.
  intros w Hw. unfold gemini, zoom. by destruct (g (geminiService w)) as [res s].
Qed.

Lemma preserves_from_assign n m (P : Ref → SessionContext → Prop) r f :
  (∀ c, P r c → P r (f c)) → preserves (heap_from n m P) (assign r f).
Proof.
  intros Hf w [Hlen Hw].
  unfold assign, read, mbind, M_bind, gets, modify, mret, M_ret, throw. cbn.
  destruct (heap w !! r) as [c|] eqn:Hc; cbn; [|done].
  split; cbn; [by rewrite length_insert|].
  intros r' c' Hr' [(-> & <- & _)|[_ Hc']]%list_lookup_insert_Some; [|by eapply Hw].
  apply Hf. by eapply Hw.
Qed.

Lemma preserves_from_alloc n m (P : Ref → SessionContext → Prop) c :
  (∀ r, n ≤ r → m ≤ r → P r c) → preserves (heap_from n m P) (alloc c).
Proof.
  intros Hc w [Hlen Hw].
  split; [change (m ≤ length (heap w ++ [c])); rewrite length_app; lia|].
  intros r c' Hr Hc'. change (heap (alloc c w).2) with (heap w ++ [c]) in Hc'.
  apply lookup_app_Some in Hc' as [Hc'|[Hge Hc']]; [by eapply Hw|].
  apply list_lookup_singleton_Some in Hc' as [_ <-]. apply Hc; lia.
Qed.

(** The awaited result is known to the continuation. *)
Lemma preserves_await_bind I {A B} (q : Db.Query A) (k : option A * option string → M World B) :
  (∀ data error, q = Db.Resolved data error → preserves I (k (data, error))) →
  preserves I (await q ≫= k).
Proof.
  intros Hk w Hw. destruct q as [data error|e]; [exact (Hk data error eq_refl w Hw)|done].
Qed.

Ltac from_prim new :=
  first
    [ apply preserves_from_assign; intros ?; first [by cbn; auto|unfold from_row; by cbn]
    | apply preserves_from_alloc; intros ? ? ?; new
    | apply preserves_from_gemini
    | apply preserves_from_modify; intros ?; reflexivity ].

Ltac solve_from new :=
  repeat (first [ preserves_step ltac:(from_prim new)
                | progress unfold SpeakingGateway.sessions_set, SpeakingGateway.rateLimit ];
          cbv beta zeta).

(** A context that a first connection creates is built from the stored
    row of the session. *)
Lemma fresh_firstConnection env (client : Socket) sid authenticatedStudentId n :
  truthy_str (query_sessionId (handshake client)) = Some sid →
  preserves (heap_from n 0 (λ _, from_row env client))
    (SpeakingGateway.firstConnection env (id client) sid authenticatedStudentId).
Proof.
  intros Hsid. unfold SpeakingGateway.firstConnection.
  apply preserves_await_bind. intros examSession sessionError Hrow. cbv beta iota.
  solve_from ltac:(eexists sid, _; split; [exact Hsid|split; [eassumption|by cbn]]).
Qed.

Lemma fresh_handleConnection env client n :
  preserves (heap_from n 0 (λ _, from_row env client))
    (SpeakingGateway.handleConnection env client).
Proof.
  unfold SpeakingGateway.handleConnection.
  apply preserves_try_catch; [|intros ?; solve_from fail].
  destruct (truthy_str _) as [sid|] eqn:Hsid; [|solve_from fail].
  destruct (SpeakingGateway.handshake_token _); [|solve_from fail].
  destruct (TokenService.verifyAccessToken _ _); [|solve_from fail]. cbv zeta.
  apply preserves_bind; [solve_from fail|]. intros [[oldClientId existingContext]|];
    [solve_from fail|by apply fresh_firstConnection].
Qed.

(** No event changes the session id, the owner, the Teil or the time
    limit of a context, and no context is ever dropped from the heap. *)
Lemma fixed_fields_dispatch r0 (c0 : SessionContext) env ev :
  preserves
    (heap_from 0 (S r0)
       (λ r c, r = r0 → sessionId c = sessionId c0 ∧ studentId c = studentId c0
                        ∧ teilNumber c = teilNumber c0 ∧ timeLimit c = timeLimit c0))
    (dispatch env ev).
Proof. destruct ev; solve_from ltac:(intros ->; lia). Qed.

Lemma fixed_fields_run w es r c :
  heap w !! r = Some c →
  ∃ c', heap (run w es) !! r = Some c'
        ∧ sessionId c' = sessionId c ∧ studentId c' = studentId c
        ∧ teilNumber c' = teilNumber c ∧ timeLimit c' = timeLimit c.
Proof.
  intros Hr.
  assert (Hinv : heap_from 0 (S r)
            (λ r' c', r' = r → sessionId c' = sessionId c ∧ studentId c' = studentId c
                               ∧ teilNumber c' = teilNumber c ∧ timeLimit c' = timeLimit c)
            (run w es)).
  { assert (Hw : heap_from 0 (S r)
              (λ r' c', r' = r → sessionId c' = sessionId c ∧ studentId c' = studentId c
                                 ∧ teilNumber c' = teilNumber c ∧ timeLimit c' = timeLimit c)
              w).
    { split; [by eapply lookup_lt_Some|]. intros r' c' _ Hr' ->.
      rewrite Hr in Hr'. by injection Hr' as <-. }
    clear Hr. revert w Hw. induction es as [|[env ev] es IH]; intros w Hw; [done|].
    cbn. apply IH. by apply fixed_fields_dispatch. }
  destruct Hinv as [Hlen Hall].
  destruct (lookup_lt_is_Some_2 (heap (run w es)) r Hlen) as [c' Hc'].
  exists c'. split; [done|]. eapply Hall; [lia|done..].
Qed.

(** The context that a connection creates carries the session id, the
    owner, the Teil and the time limit of the stored row: no limit unless
    the row has [use_timer], else 240 s for Teil 1 and 360 s for any
    other Teil. No later event, whatever it is, changes one of the four:
    the limit is fixed at admission. *)
Theorem time_limit_fixed_at_admission env (client : Socket) w es r c :
  let w1 := step w (env, Connection client) in
  length (heap w) ≤ r → heap w1 !! r = Some c →
  (∃ sid examSession,
     truthy_str (query_sessionId (handshake client)) = Some sid
     ∧ select_exam_session env sid = Db.Resolved (Some examSession) None
     ∧ sessionId c = sid
     ∧ studentId c = Db.student_id examSession
     ∧ teilNumber c = Db.teil_number examSession
     ∧ timeLimit c = if Db.use_timer examSession
                     then Some (if decide (Db.teil_number examSession = 1) then 240 else 360)%Z
                     else None)
  ∧ ∃ c', heap (run w1 es) !! r = Some c'
          ∧ sessionId c' = sessionId c ∧ studentId c' = studentId c
          ∧ teilNumber c' = teilNumber c ∧ timeLimit c' = timeLimit c.
Proof.
  intros w1 Hfresh Hr. split; [|by apply fixed_fields_run].
  assert (Hinv : heap_from (length (heap w)) 0 (λ _, from_row env client) w1).
  { unfold w1, step, dispatch. cbn [fst snd].
    apply preserves_bind; [solve_from fail|intros _; apply fresh_handleConnection|].
    split; [lia|]. intros r' c' Hge Hr'. apply lookup_lt_Some in Hr'. lia. }
  exact (proj2 Hinv r c Hfresh Hr).
Qed.

Lemma time_limit_fixed_at_admission_witness :
  let env := Scenario.env (Some (Scenario.exam None)) 0 in
  let client := Scenario.socket "c1" "anna-token" (Some "exam-1") in
  let w1 := step (initial Scenario.prompts) (env, Connection client) in
  ∃ c', heap (run w1 [(Scenario.env (Some (Scenario.exam None)) 100000, PauseSession "c1");
                      (Scenario.env (Some (Scenario.exam None)) 130000, ResumeSession "c1")])
          !! 0 = Some c'
        ∧ teilNumber c' = 1%Z ∧ timeLimit c' = Some 240%Z.
Proof.
  intros env client w1.
  destruct (time_limit_fixed_at_admission env client (initial Scenario.prompts)
              [(Scenario.env (Some (Scenario.exam None)) 100000, PauseSession "c1");
               (Scenario.env (Some (Scenario.exam None)) 130000, ResumeSession "c1")]
              0 Scenario.joined_context (le_n 0) ltac:(vm_compute; reflexivity))
    as [_ (c' & Hc' & _ & _ & Hteil & Hlimit)].
  exists c'. split; [exact Hc'|]. split; [exact Hteil|exact Hlimit].
Defined.


(** ** Every connection attempt is answered *)

Section hoare.
Context {A : Type}.





Lemma hoare_ret (I : World → Prop) (a : A) (E : World → Prop) :
  hoare I (mret a) (λ a' w, a' = a ∧ I w) E.
Proof. by intros w Hw. Qed.



End hoare.

Lemma preserves_out_gemini o {A} (m : M GeminiService.State A) :
  preserves (λ w, out w = o) (gemini m).
Proof.
  intros w Hw. unfold gemini, zoom. by destruct (m (geminiService w)) as [res g].
Qed.

Ltac out_prim :=
  first
    [ apply preserves_out_gemini
    | progress unfold assign
    | progress unfold alloc
    | intros ? ?; cbn; assumption ].

Lemma setupTimerWarnings_out env client r w :
  out (SpeakingGateway.setupTimerWarnings env client r w).2 = out w.
Proof.
  assert (H : preserves (λ w', out w' = out w)
                (SpeakingGateway.setupTimerWarnings env client r))
    by solve_preserves out_prim.
  by apply H.
Qed.












(** [handleConnection] by its leaves: a property [I] that survives the
    look-ups, and that each rejection, the registration and the
    reconnection turn into [Q], is turned into [Q] by the whole handler,
    which never raises. *)
Section connection.
Context (I I' Q : World → Prop) (client : ClientId).
Context (H_reject : ∀ code message (E : World → Prop),
           hoare I (SpeakingGateway.reject client code message) (λ _, Q) E).
Context (H_alloc : ∀ c w, I w → I (upd_heap (λ h, h ++ [c]) w)).
Context (H_gemini : ∀ w g, I w → I (upd_geminiService (λ _, g) w)).
Context (H_base : ∀ w, I w → I' w).
Context (H_onError : ∀ r message,
           hoare I
             (SpeakingGateway.onError (SpeakingGateway.createGeminiCallbacks client r)
                message)
             (λ _, I') I').
Context (H_reject_setup : ∀ (E : World → Prop),
           hoare I'
             (SpeakingGateway.reject client 4007 "Gemini API initialization failed")
             (λ _, Q) E).
Context (H_register : ∀ env sid exam r,
           hoare (λ w, I w ∧ heap w !! r
                             = Some (SpeakingGateway.newSessionContext env client sid exam))
             (SpeakingGateway.sessions_set client r;;
              SpeakingGateway.sessionReady env client sid exam r)
             (λ _, Q) I).
Context (H_reconnect : ∀ env sid old r t c,
           hoare (λ w, (I w ∧ SpeakingGateway.find_entry sid (heap w) (sessions w)
                              = Some (old, r))
                       ∧ heap w !! r = Some c)
             (SpeakingGateway.reconnect env client sid old r t)
             (λ _, Q) I).


End connection.



(** A provider error during the set-up of anna's first connection: she
    gets the [gemini_error] of the callbacks, then the refusal 4007, and is
    not registered. *)
Lemma every_connection_is_answered_provider_error :
  let env := {| now := 0;
                jwt_verify := jwt_verify (Scenario.env None 0);
                select_exam_session :=
                  select_exam_session (Scenario.env (Some (Scenario.exam None)) 0);
                select_student := select_student (Scenario.env None 0);
                select_activation_code := select_activation_code (Scenario.env None 0);
                select_transcript := select_transcript (Scenario.env None 0);
                update_exam_session := Db.Resolved None None;
                upsert_transcript := Db.Resolved None None;
                gemini_setup :=
                  GeminiService.ErrorDuringSetup (Some Scenario.handle) (Some "quota");
                isValidBase64 := λ _, true |} in
  let w := run (initial Scenario.prompts)
             [(env, Connection (Scenario.socket "c1" "anna-token" (Some "exam-1")))] in
  out w = [Emit "c1" (gemini_error "GEMINI_LIVE_ERROR");
           Emit "c1" (connection_error 4007 "Gemini API initialization failed");
           SocketDisconnect "c1"]
  ∧ sessions w = [].
Proof. vm_compute. by split. Qed.

(** ** Messages that the handlers turn away *)

(** A message from a socket that has no session context is answered with
    SESSION_NOT_FOUND and changes nothing else, whichever of the three
    messages it is. *)
Theorem message_without_context env client payload w :
  JsMap.get client (sessions w) = None →
  SpeakingGateway.handleAudioChunk env client payload w
  = (Ok tt, told client (error "SESSION_NOT_FOUND") w)
  ∧ SpeakingGateway.handlePauseSession env client w
    = (Ok tt, told client (error "SESSION_NOT_FOUND") w)
  ∧ SpeakingGateway.handleResumeSession env client w
    = (Ok tt, told client (error "SESSION_NOT_FOUND") w).
Proof.
  intros Hs.
  unfold SpeakingGateway.handleAudioChunk, SpeakingGateway.handlePauseSession,
    SpeakingGateway.handleResumeSession, told.
  repeat split; by mrun with Hs.
Qed.

Lemma message_without_context_witness :
  let env := Scenario.env (Some (Scenario.exam None)) 1000 in
  SpeakingGateway.handlePauseSession env "c2" (Scenario.joined None)
  = (Ok tt, told "c2" (error "SESSION_NOT_FOUND") (Scenario.joined None)).
Proof.
  intros env.
  exact (proj1 (proj2 (message_without_context env "c2" Scenario.chunk
                         (Scenario.joined None) eq_refl))).
Defined.

(** A message that does not fit the state of the session is answered with
    one error event and changes nothing else: audio and pause are taken
    only while the session is active, resume only while it is paused or in
    its grace period. *)
Theorem message_in_wrong_state env client payload r c w :
  JsMap.get client (sessions w) = Some r →
  heap w !! r = Some c →
  (status c ≠ active →
   SpeakingGateway.handleAudioChunk env client payload w
   = (Ok tt, told client (error "SESSION_NOT_ACTIVE") w)
   ∧ SpeakingGateway.handlePauseSession env client w
     = (Ok tt, told client (error "INVALID_SESSION_STATE") w))
  ∧ (status c ≠ paused → status c ≠ grace_period →
     SpeakingGateway.handleResumeSession env client w
     = (Ok tt, told client (error "INVALID_SESSION_STATE") w)).
Proof.
  intros Hs Hr.
  unfold SpeakingGateway.handleAudioChunk, SpeakingGateway.handlePauseSession,
    SpeakingGateway.handleResumeSession, told.
  split.
  - intros Hst. split; by mrun with Hs Hr.
  - intros Hp Hg. by mrun with Hs Hr.
Qed.

Lemma message_in_wrong_state_witness :
  let env := Scenario.env (Some (Scenario.exam None)) 101000 in
  SpeakingGateway.handleAudioChunk env "c1" Scenario.chunk Scenario.paused_after_100s
  = (Ok tt, told "c1" (error "SESSION_NOT_ACTIVE") Scenario.paused_after_100s).
Proof.
  intros env.
  refine (proj1 (proj1 (message_in_wrong_state env "c1" Scenario.chunk 0
                          Scenario.orphaned_context Scenario.paused_after_100s
                          eq_refl eq_refl) _)).
  done.
Defined.

(** A chunk that fails validation is answered with one error event and
    goes no further: nothing is handed to the adapter and the arrival
    window is not touched.  A missing or empty payload gives
    INVALID_AUDIO_FORMAT, a payload that [isValidBase64] rejects gives
    INVALID_BASE64, one of more than 102 400 characters gives
    AUDIO_CHUNK_TOO_LARGE, in this order.  The message still counts as
    activity: [lastAudioTimestamp] is set and the idle timer is cancelled. *)
Theorem malformed_audio_is_not_forwarded env client payload r c w :
  JsMap.get client (sessions w) = Some r →
  heap w !! r = Some c →
  status c = active →
  let res := SpeakingGateway.handleAudioChunk env client payload w in
  match truthy_str (data payload) with
  | None => res = (Ok tt, told client (error "INVALID_AUDIO_FORMAT") (noted env client r c w))
  | Some audio =>
      if negb (isValidBase64 env audio) then
        res = (Ok tt, told client (error "INVALID_BASE64") (noted env client r c w))
      else
        (SpeakingGateway.MAX_AUDIO_CHUNK_SIZE < Z.of_nat (String.length audio))%Z →
        res = (Ok tt, told client (error "AUDIO_CHUNK_TOO_LARGE") (noted env client r c w))
  end.
Proof.
  intros Hs Hr Hst res. subst res.
  assert (Hlt : r < length (heap w)) by (by eapply lookup_lt_Some).
  unfold SpeakingGateway.handleAudioChunk, told, noted.
  destruct (truthy_str (data payload)) as [audio|] eqn:Hdata.
  - destruct (isValidBase64 env audio) eqn:Hb64; cbn [negb].
    + intros Hbig. by mrun with Hs Hr Hdata Hb64.
    + by mrun with Hs Hr Hdata Hb64.
  - by mrun with Hs Hr Hdata.
Qed.

Lemma malformed_audio_is_not_forwarded_witness :
  let env := Scenario.env (Some (Scenario.exam None)) 1000 in
  let payload := {| data := Some ""; chunk_timestamp := "1970-01-01T00:00:01.000Z" |} in
  SpeakingGateway.handleAudioChunk env "c1" payload Scenario.greeted
  = (Ok tt, told "c1" (error "INVALID_AUDIO_FORMAT")
              (noted env "c1" 0 Scenario.greeted_context Scenario.greeted)).
Proof.
  intros env payload.
  exact (malformed_audio_is_not_forwarded env "c1" payload 0 Scenario.greeted_context
           Scenario.greeted eq_refl eq_refl eq_refl).
Defined.

(** ** Pause and resume: what is left behind *)

(** A pause of an active session cancels the idle timer and every warning
    and auto-end timer of the context, marks the context 'paused' and
    writes the 'paused' row.  Whether the pause-expiry timer is scheduled
    depends on the store: only when the update reports no error is the
    60 s timer set and [session_paused] emitted; when the update reports an
    error or rejects, the client gets DATABASE_ERROR or PAUSE_FAILED, and
    the context stays paused with its timers cancelled and no expiry timer. *)
Theorem pause_outcomes env client r c w :
  JsMap.get client (sessions w) = Some r →
  heap w !! r = Some c →
  status c = active →
  let w' := (SpeakingGateway.handlePauseSession env client w).2 in
  let cleared := clear_all (timerHandles c) (timers (clear_idle client w)) in
  let row := UpdateExamSession (sessionId c) (paused_row env (elapsedSeconds c)) in
  ∃ c', heap w' !! r = Some c'
    ∧ status c' = paused
    ∧ timerHandles c' = []
    ∧ match update_exam_session env with
      | Db.Resolved _ None =>
          pauseGeminiCloseTimer c' = Some (nextTimer w)
          ∧ timers w' = JsMap.set (nextTimer w)
                          {| due := (now env + 60000)%Z; body := pauseCloseTimer client r |}
                          cleared
          ∧ out w' = out w ++ [row; Emit client (session_paused (sessionId c)
                                                   (elapsedSeconds c))]
      | Db.Resolved _ (Some _) =>
          pauseGeminiCloseTimer c' = pauseGeminiCloseTimer c
          ∧ timers w' = cleared
          ∧ out w' = out w ++ [row; Emit client (error "DATABASE_ERROR")]
      | Db.Rejected _ =>
          pauseGeminiCloseTimer c' = pauseGeminiCloseTimer c
          ∧ timers w' = cleared
          ∧ out w' = out w ++ [row; Emit client (error "PAUSE_FAILED")]
      end.
Proof.
  intros Hs Hr Hst w' cleared row. subst w' cleared row.
  assert (Hlt : r < length (heap w)) by (by eapply lookup_lt_Some).
  unfold SpeakingGateway.handlePauseSession, SpeakingGateway.clearTimerHandles,
    SpeakingGateway.elapsed_of, paused_row.
  mrun with Hs Hr.
  destruct (timerHandles c) as [|t ts] eqn:Hts; mrun with Hr;
    destruct (update_exam_session env) as [d [err|]|e]; mrun with Hr;
    (eexists; split; [reflexivity|]; cbn; rewrite ?Hts;
     repeat split; try done; by rewrite <- ?app_assoc).
Qed.

(** The store reports an error when anna pauses at 100 s: she is told
    DATABASE_ERROR, the four exam timers are gone and no expiry timer is
    set. *)
Lemma pause_outcomes_witness :
  let env := {| now := 100000;
                jwt_verify := jwt_verify (Scenario.env None 0);
                select_exam_session := select_exam_session (Scenario.env None 0);
                select_student := select_student (Scenario.env None 0);
                select_activation_code := select_activation_code (Scenario.env None 0);
                select_transcript := select_transcript (Scenario.env None 0);
                update_exam_session := Db.Resolved None (Some "connection lost");
                upsert_transcript := Db.Resolved None None;
                gemini_setup := gemini_setup (Scenario.env None 0);
                isValidBase64 := λ _, true |} in
  let w' := (SpeakingGateway.handlePauseSession env "c1" Scenario.greeted).2 in
  ∃ c', heap w' !! 0 = Some c'
    ∧ status c' = paused
    ∧ timerHandles c' = []
    ∧ pauseGeminiCloseTimer c' = None
    ∧ timers w' = []
    ∧ out w' = out Scenario.greeted
               ++ [UpdateExamSession "exam-1" (paused_row env 0);
                   Emit "c1" (error "DATABASE_ERROR")].
Proof.
  intros env.
  exact (pause_outcomes env "c1" 0 Scenario.greeted_context Scenario.greeted
           eq_refl eq_refl eq_refl).
Defined.





Lemma setupAutoEnd_out env client r w :
  out (SpeakingGateway.setupAutoEnd env client r w).2 = out w.
Proof.
  assert (H : preserves (λ w', out w' = out w) (SpeakingGateway.setupAutoEnd env client r))
    by solve_preserves out_prim.
  by apply H.
Qed.

(** A resume while the adapter session is still open moves [startTime]
    back by the frozen elapsed time, so that the running count of
    [getElapsedSeconds] continues from the snapshot.  The 'active' row is
    written; an error reported by the update is ignored and
    [session_resumed] is emitted all the same. *)
Theorem resume_continues_from_snapshot env client r c d err w :
  JsMap.get client (sessions w) = Some r →
  heap w !! r = Some c →
  status c = paused ∨ status c = grace_period →
  GeminiService.isSessionActive (sessionId c) (geminiService w) = true →
  update_exam_session env = Db.Resolved d err →
  let w' := (SpeakingGateway.handleResumeSession env client w).2 in
  out w' = out w ++ [UpdateExamSession (sessionId c) resumed_row;
                     Emit client (session_resumed (sessionId c))]
  ∧ ∃ c', heap w' !! r = Some c'
      ∧ status c' = active
      ∧ startTime c' = (now env - elapsedSeconds c * 1000)%Z
      ∧ SpeakingGateway.elapsed_of env c' = elapsedSeconds c
      ∧ conversationHistory c' = conversationHistory c.
Proof.
  intros Hs Hr Hst Hact Hupd w'. subst w'.
  assert (Hcond : bool_decide (status c ≠ paused) && bool_decide (status c ≠ grace_period)
                  = false) by (by destruct Hst as [-> | ->]).
  assert (Hlt : r < length (heap w)) by (by eapply lookup_lt_Some).
  assert (Hel : ((now env - (now env - elapsedSeconds c * 1000)) / 1000)%Z = elapsedSeconds c).
  { replace (now env - (now env - elapsedSeconds c * 1000))%Z
      with (elapsedSeconds c * 1000)%Z by lia. by apply Z.div_mul. }
  unfold SpeakingGateway.handleResumeSession, SpeakingGateway.clearTimerHandles,
    SpeakingGateway.clearPauseGeminiCloseTimer, resumed_row.
  mrun with Hs Hr Hcond Hact.
  destruct (pauseGeminiCloseTimer c) as [pt|] eqn:Hpt; mrun with Hr Hact Hupd;
    (destruct (truthy_num (timeLimit c)) as [L|] eqn:HL; mrun with Hr Hupd;
     [destruct (expectedEndTime c) as [E|] eqn:HE; mrun with Hr Hupd|]);
    first
      [ solve [ split; [by rewrite <- app_assoc|];
                eexists; split; [reflexivity|]; cbn;
                unfold SpeakingGateway.elapsed_of; cbn; by rewrite Hel ]
      | match goal with
        | |- context [SpeakingGateway.setupTimerWarnings env client r ?W] => set (W0 := W)
        end;
        (eassert (HW0 : heap W0 !! r = Some _);
         [ subst W0; cbn; rewrite ?list_insert_insert_eq; by apply list_lookup_insert_eq |]);
        pose proof (setupTimerWarnings_out env client r W0) as Hout1;
        destruct (setupTimerWarnings_run env client r _ W0 HW0) as (hs & w1 & Hrun & Hr1 & _);
        rewrite Hrun in Hout1 |- *; cbn in Hout1;
        pose proof (setupAutoEnd_out env client r w1) as Hout2;
        assert (Hlt1 : r < length (heap w1)) by (by eapply lookup_lt_Some);
        revert Hout2; unfold SpeakingGateway.setupAutoEnd;
        mrun with Hr1 HL HE Hupd; intros _;
        (split; [rewrite Hout1; subst W0; cbn; by rewrite <- app_assoc|]);
        eexists; split; [reflexivity|]; cbn;
        unfold SpeakingGateway.elapsed_of; cbn; by rewrite Hel ].
Qed.

(** anna resumes 30 s after the pause of [paused_after_100s]. *)
Lemma resume_continues_from_snapshot_witness :
  let env := Scenario.env (Some (Scenario.exam None)) 130000 in
  out (SpeakingGateway.handleResumeSession env "c1" Scenario.paused_after_100s).2
  = out Scenario.paused_after_100s
    ++ [UpdateExamSession "exam-1" resumed_row; Emit "c1" (session_resumed "exam-1")].
Proof.
  intros env.
  exact (proj1 (resume_continues_from_snapshot env "c1" 0 Scenario.orphaned_context
                  None None Scenario.paused_after_100s
                  eq_refl eq_refl (or_introl eq_refl) eq_refl eq_refl)).
Defined.

(** ** Expiry of the grace period *)

(** When the grace period expires the callback never raises and the
    adapter session of the context is closed in every case.  The context
    leaves the registry unless a store call rejects: then the error is
    swallowed and the entry of the old socket stays in the registry,
    although its adapter session is gone. *)
Theorem grace_expiry_outcomes env client r c w :
  heap w !! r = Some c →
  let res := SpeakingGateway.graceTimeout_fires env client r w in
  res.1 = Ok tt
  ∧ JsMap.get (sessionId c) (GeminiService.activeSessions (geminiService res.2)) = None
  ∧ heap res.2 = heap w
  ∧ sessions res.2 =
      match select_exam_session env (sessionId c) with
      | Db.Resolved (Some row) _ =>
          if bool_decide (Db.status row = "active") || bool_decide (Db.status row = "paused")
          then match update_exam_session env with
               | Db.Resolved _ _ => JsMap.delete client (sessions w)
               | Db.Rejected _ => sessions w
               end
          else JsMap.delete client (sessions w)
      | Db.Resolved None _ => JsMap.delete client (sessions w)
      | Db.Rejected _ => sessions w
      end.
Proof.
  intros Hr res. subst res.
  pose proof (closeLiveSession_activeSessions (sessionId c) (geminiService w)) as Hclose.
  assert (Hgone : JsMap.get (sessionId c)
                    (GeminiService.activeSessions
                       (GeminiService.closeLiveSession (sessionId c) (geminiService w)).2)
                  = None) by (rewrite Hclose; apply get_delete_eq).
  unfold SpeakingGateway.graceTimeout_fires. mrun with Hr.
  destruct (select_exam_session env (sessionId c)) as [[row|] err|e]; mrun with Hr;
    try done.
  destruct (bool_decide (Db.status row = "active") || bool_decide (Db.status row = "paused"));
    mrun with Hr; try done.
  destruct (update_exam_session env); by mstep.
Qed.

(** The store cannot be reached when anna's grace period expires: her
    context stays registered under the socket that is gone. *)
Lemma grace_expiry_outcomes_witness :
  let env := {| now := 105500;
                jwt_verify := jwt_verify (Scenario.env None 0);
                select_exam_session := λ _, Db.Rejected "fetch failed";
                select_student := select_student (Scenario.env None 0);
                select_activation_code := select_activation_code (Scenario.env None 0);
                select_transcript := select_transcript (Scenario.env None 0);
                update_exam_session := Db.Resolved None None;
                upsert_transcript := Db.Resolved None None;
                gemini_setup := gemini_setup (Scenario.env None 0);
                isValidBase64 := λ _, true |} in
  let res := SpeakingGateway.graceTimeout_fires env "c1" 0 Scenario.dropped in
  JsMap.get "exam-1" (GeminiService.activeSessions (geminiService res.2)) = None
  ∧ sessions res.2 = sessions Scenario.dropped.
Proof.
  intros env res.
  pose proof (grace_expiry_outcomes env "c1" 0 Scenario.dropped_context Scenario.dropped
                eq_refl) as (_ & Hgone & _ & Hs).
  split; [exact Hgone|exact Hs].
Defined.

(** ** The explicit end over REST *)

(** Ending a session over REST touches neither the gateway nor the
    adapter: the registry, the contexts, the pending timers and the adapter
    bookkeeping are as before, so a live socket session of the same exam
    goes on.  The call writes at most one row and saves no transcript. *)
Theorem rest_end_leaves_live_session env student sid reason w :
  let res := SpeakingController.endSession env student sid reason w in
  sessions res.2 = sessions w
  ∧ heap res.2 = heap w
  ∧ timers res.2 = timers w
  ∧ idleTimeouts res.2 = idleTimeouts w
  ∧ geminiService res.2 = geminiService w
  ∧ (out res.2 = out w ∨ ∃ row, out res.2 = out w ++ [UpdateExamSession sid row]).
Proof.
  intros res. subst res.
  unfold SpeakingController.endSession, SpeakingService.endSession.
  destruct (select_exam_session env sid) as [[row|] [err|]|e] eqn:Hsel; mstep;
    try (repeat split; try done; by left).
  all: try (case_decide; mstep; try (repeat split; try done; by left)).
  all: destruct (update_exam_session env) as [d [uerr|]|ue]; mstep;
    try (repeat split; try done; right; by eexists).
  all: destruct (select_transcript env sid) as [[t|] terr|te]; mstep;
    repeat split; try done; right; by eexists.
Qed.

(** The REST end checks the owner through its query: for a session row
    that belongs to another student it raises SESSION_NOT_FOUND and writes
    nothing. *)
Theorem rest_end_checks_owner env student sid reason row err w :
  select_exam_session env sid = Db.Resolved (Some row) err →
  Db.student_id row ≠ TokenService.studentId student →
  SpeakingController.endSession env student sid reason w = (Throw "SESSION_NOT_FOUND", w).
Proof.
  intros Hsel Hne.
  unfold SpeakingController.endSession, SpeakingService.endSession.
  by mrun with Hsel.
Qed.

Lemma rest_end_checks_owner_witness :
  let env := Scenario.env (Some (Scenario.exam None)) 200000 in
  SpeakingController.endSession env Scenario.bert "exam-1" None Scenario.greeted
  = (Throw "SESSION_NOT_FOUND", Scenario.greeted).
Proof.
  intros env.
  refine (rest_end_checks_owner env Scenario.bert "exam-1" None (Scenario.exam None) None
            Scenario.greeted eq_refl _).
  done.
Defined.

(** ** Timers across a disconnect and a reconnection *)

Lemma get_delete_Some {V} (t k : nat) (m : list (nat * V)) x :
  JsMap.get t (JsMap.delete k m) = Some x → JsMap.get t m = Some x ∧ t ≠ k.
Proof.
  destruct (decide (t = k)) as [->|Hne]; [by rewrite get_delete_eq|].
  by rewrite get_delete_ne.
Qed.

Lemma get_clear_all_Some (t : nat) l (m : list (nat * Timer)) x :
  JsMap.get t (clear_all l m) = Some x → JsMap.get t m = Some x ∧ t ∉ l.
Proof.
  revert m. induction l as [|k l IH]; intros m; cbn; [intros; split; [done|apply not_elem_of_nil]|].
  intros [[Hm Hne]%get_delete_Some Hl]%IH. split; [done|].
  apply not_elem_of_cons. by split.
Qed.

Lemma get_clear_if_Some (t : nat) o (m : list (nat * Timer)) x :
  JsMap.get t (clear_if o m) = Some x → JsMap.get t m = Some x ∧ o ≠ Some t.
Proof.
  destruct o as [k|]; cbn; [|by intros].
  intros [Hm Hne]%get_delete_Some. split; [done|congruence].
Qed.

Lemma get_clear_idle_Some client (t : nat) w x :
  JsMap.get t (timers (clear_idle client w)) = Some x → JsMap.get t (timers w) = Some x.
Proof.
  unfold clear_idle. destruct (JsMap.get client (idleTimeouts w)); cbn; [|done].
  by intros [? _]%get_delete_Some.
Qed.

Lemma find_entry_insert sid (h : list SessionContext) ss r c c' :
  h !! r = Some c → sessionId c' = sessionId c →
  SpeakingGateway.find_entry sid (<[r:=c']> h) ss = SpeakingGateway.find_entry sid h ss.
Proof.
  intros Hr Hsid. induction ss as [|[k r0] ss IH]; cbn; [done|].
  destruct (decide (r0 = r)) as [->|Hne].
  - rewrite list_lookup_insert_eq by (by eapply lookup_lt_Some). rewrite Hr, Hsid.
    by rewrite IH.
  - rewrite list_lookup_insert_ne by done. by rewrite IH.
Qed.

Lemma get_idle_clear_idle client w :
  JsMap.get client (idleTimeouts (clear_idle client w)) = None.
Proof.
  unfold clear_idle. destruct (JsMap.get client (idleTimeouts w)) eqn:Hi; cbn; [|done].
  apply get_delete_eq.
Qed.

(** What a disconnect leaves of the timers: the grace timer is the only
    new one, and every timer that is still pending was pending before and
    is none of the context's own. *)
Lemma handleDisconnect_timers env client r c w :
  JsMap.get client (sessions w) = Some r →
  heap w !! r = Some c →
  let w1 := (SpeakingGateway.handleDisconnect env client w).2 in
  sessions w1 = sessions w
  ∧ heap w1 = <[r := set_disconnectTimer (Some (nextTimer w))
                        (set_status grace_period
                           (set_elapsedSeconds (SpeakingGateway.elapsed_of env c)
                              (set_pauseGeminiCloseTimer None (set_timerHandles [] c))))]>
                (heap w)
  ∧ JsMap.get client (idleTimeouts w1) = None
  ∧ nextTimer w1 = S (nextTimer w)
  ∧ ∀ t x, JsMap.get t (timers w1) = Some x → t ≠ nextTimer w →
           JsMap.get t (timers w) = Some x ∧ t ∉ timerHandles c.
Proof.
  intros Hs Hr w1. subst w1.
  assert (Hlt : r < length (heap w)) by (by eapply lookup_lt_Some).
  unfold SpeakingGateway.handleDisconnect, SpeakingGateway.clearTimerHandles,
    SpeakingGateway.clearPauseGeminiCloseTimer.
  mrun with Hs Hr.
  destruct (pauseGeminiCloseTimer c) as [pg|] eqn:Hpg; mrun with Hr.
  all: split; [done|]; split; [|split; [apply get_idle_clear_idle|split; [done|]]].
  1,3: f_equal; unfold SpeakingGateway.elapsed_of; destruct c; cbn in *; by subst.
  all: intros t x Hget Hne; rewrite get_set_ne in Hget by done.
  - apply get_clear_idle_Some in Hget. cbn in Hget.
    apply get_delete_Some in Hget as [Hget _].
    apply get_clear_all_Some in Hget as [Hget Hnotin].
    apply get_clear_if_Some in Hget as [Hget _].
    apply get_clear_if_Some in Hget as [Hget _]. done.
  - apply get_clear_idle_Some in Hget. cbn in Hget.
    apply get_clear_all_Some in Hget as [Hget Hnotin].
    apply get_clear_if_Some in Hget as [Hget _].
    apply get_clear_if_Some in Hget as [Hget _]. done.
Qed.

(** After a disconnect and the owner's reconnection the session runs
    without timers of its own: the context is active again with an empty
    [timerHandles]; the grace timer was the only timer created and it is
    cancelled; every timer still pending was pending before the disconnect
    and is none of the warning and auto-end timers of the context. *)
Theorem reconnected_session_has_no_timers env env' client (client' : Socket)
    token payload r c w :
  JsMap.get client (sessions w) = Some r →
  heap w !! r = Some c →
  SpeakingGateway.find_entry (sessionId c) (heap w) (sessions w) = Some (client, r) →
  truthy_str (query_sessionId (handshake client')) = Some (sessionId c) →
  SpeakingGateway.handshake_token (handshake client') = Some token →
  jwt_verify env' token = Some payload →
  TokenService.studentId payload = studentId c →
  let w1 := (SpeakingGateway.handleDisconnect env client w).2 in
  let w2 := (SpeakingGateway.handleConnection env' client' w1).2 in
  (∃ c2, heap w2 !! r = Some c2
     ∧ status c2 = active
     ∧ clientId c2 = id client'
     ∧ timerHandles c2 = []
     ∧ disconnectTimer c2 = None
     ∧ pauseGeminiCloseTimer c2 = None)
  ∧ nextTimer w2 = S (nextTimer w)
  ∧ ∀ t x, JsMap.get t (timers w2) = Some x →
           JsMap.get t (timers w) = Some x ∧ t ∉ timerHandles c.
Proof.
  intros Hs Hr Hfind Hsid Htok Hjwt Howner w1 w2.
  assert (Hlt : r < length (heap w)) by (by eapply lookup_lt_Some).
  destruct (handleDisconnect_timers env client r c w Hs Hr)
    as (Hs1 & Hh1 & Hidle & Hn1 & Htim).
  fold w1 in Hs1, Hh1, Hidle, Hn1, Htim.
  set (c1 := set_disconnectTimer (Some (nextTimer w))
               (set_status grace_period
                  (set_elapsedSeconds (SpeakingGateway.elapsed_of env c)
                     (set_pauseGeminiCloseTimer None (set_timerHandles [] c))))) in *.
  assert (Hr1 : heap w1 !! r = Some c1) by (rewrite Hh1; by apply list_lookup_insert_eq).
  assert (Hfind1 : SpeakingGateway.find_entry (sessionId c) (heap w1) (sessions w1)
                   = Some (client, r)).
  { rewrite Hs1, Hh1. by rewrite (find_entry_insert _ _ _ _ c). }
  assert (Hlt1 : r < length (heap w1)) by (by eapply lookup_lt_Some).
  assert (Ht1 : disconnectTimer c1 = Some (nextTimer w)) by done.
  assert (Hown1 : studentId c1 = TokenService.studentId payload) by done.
  subst w2. clearbody w1.
  unfold SpeakingGateway.handleConnection, SpeakingGateway.reconnect,
    TokenService.verifyAccessToken.
  mrun with Hsid Htok Hjwt Hfind1 Hr1 Ht1.
  split; [eexists; split; [reflexivity|done]|]. split; [done|].
  intros t x Hget. apply get_clear_idle_Some in Hget. cbn in Hget.
  apply get_delete_Some in Hget as [Hget Hne]. by apply Htim.
Qed.

(** anna's socket drops 100 s after the greeting and she comes back on
    socket "c2" half a second later: no timer is pending any more. *)
Lemma reconnected_session_has_no_timers_witness :
  let env := Scenario.env (Some (Scenario.exam None)) 100500 in
  let env' := Scenario.env (Some (Scenario.exam None)) 101000 in
  let w1 := (SpeakingGateway.handleDisconnect env "c1" Scenario.greeted).2 in
  let w2 := (SpeakingGateway.handleConnection env'
               (Scenario.socket "c2" "anna-token" (Some "exam-1")) w1).2 in
  nextTimer w2 = 5.
Proof.
  intros env env' w1 w2.
  exact (proj1 (proj2 (reconnected_session_has_no_timers env env' "c1"
                         (Scenario.socket "c2" "anna-token" (Some "exam-1"))
                         "anna-token" Scenario.anna 0 Scenario.greeted_context
                         Scenario.greeted eq_refl eq_refl eq_refl eq_refl eq_refl
                         eq_refl eq_refl))).
Defined.

(** ** Shutdown of the gateway *)









(** ** The registry key of a context is its socket *)



















(** ** The adapter: start-up and the provider's close *)

(** Start-up succeeds exactly when the API key is configured and the three
    prompt files can be read.  It then leaves each file's content in the
    prompt cache, so that [getSystemInstruction] returns it; but an empty
    prompt file passes start-up and makes [getSystemInstruction] raise for
    its Teil, and with it every [createLiveSession] for that Teil. *)
Theorem onModuleInit_loads_prompts apiKey readFile (s : GeminiService.State) :
  let res := GeminiStartup.onModuleInit apiKey readFile s in
  (res.1 = Ok tt ↔
   truthy_str apiKey ≠ None
   ∧ ∃ p1 p2 p3, readFile 1%Z = Ok p1 ∧ readFile 2%Z = Ok p2 ∧ readFile 3%Z = Ok p3)
  ∧ ∀ t p, res.1 = Ok tt → t ∈ [1; 2; 3]%Z → readFile t = Ok p →
      GeminiService.getSystemInstruction t res.2
      = if decide (p = "") then
          (Throw ("System instruction not found for Teil " +:+ pretty t), res.2)
        else (Ok p, res.2).
Proof.
  intros res. subst res.
  unfold GeminiStartup.onModuleInit, GeminiStartup.loadPrompts,
    GeminiStartup.promptCache_set, GeminiService.call, GeminiService.getSystemInstruction.
  destruct (truthy_str apiKey) as [key|] eqn:Hkey; cbn.
  2: { split; [split; [done|by intros [? _]]|done]. }
  destruct (readFile 1%Z) as [p1|e1] eqn:H1; cbn.
  2: { split; [split; [done|by intros (_ & ? & ? & ? & ? & _)]|done]. }
  destruct (readFile 2%Z) as [p2|e2] eqn:H2; cbn.
  2: { split; [split; [done|by intros (_ & ? & ? & ? & _ & ? & _)]|done]. }
  destruct (readFile 3%Z) as [p3|e3] eqn:H3; cbn.
  2: { split; [split; [done|by intros (_ & ? & ? & ? & _ & _ & ?)]|done]. }
  split; [split; [intros _; split; [done|by eexists _, _, _]|done]|].
  intros t p _ Ht Hp. unfold mbind, M_bind, gets. cbn.
  assert (Hget : JsMap.get t
            (JsMap.set 3%Z p3 (JsMap.set 2%Z p2 (JsMap.set 1%Z p1
               (GeminiService.promptCache s)))) = Some p).
  { apply elem_of_cons in Ht as [->|Ht]; [|apply elem_of_cons in Ht as [->|Ht]].
    - rewrite !get_set_ne by done. rewrite get_set_eq. congruence.
    - rewrite get_set_ne by done. rewrite get_set_eq. congruence.
    - apply list_elem_of_singleton in Ht as ->. rewrite get_set_eq. congruence. }
  rewrite Hget. by case_decide.
Qed.

Lemma onModuleInit_loads_prompts_witness :
  let readFile := λ t : Z, if decide (t = 2%Z) then Ok "" else Ok "Sie sind Elena." in
  let res := GeminiStartup.onModuleInit (Some "key") readFile
               (geminiService (initial [])) in
  GeminiService.getSystemInstruction 2 res.2
  = (Throw "System instruction not found for Teil 2", res.2).
Proof.
  intros readFile res.
  refine (proj2 (onModuleInit_loads_prompts (Some "key") readFile
                   (geminiService (initial []))) 2%Z "" eq_refl _ eq_refl).
  apply list_elem_of_further, list_elem_of_here.
Defined.

(** When the provider closes the stream the adapter only marks the entry:
    [isSessionActive] turns false, which is what makes the gateway refuse
    further audio, but the entry and its handle stay; [sendAudioChunk]
    itself looks at [setupComplete] only and would still call
    [sendRealtimeInput] on the closed handle. *)
Theorem provider_close_keeps_entry sid audio mime d (s : GeminiService.State) :
  JsMap.get sid (GeminiService.activeSessions s) = Some d →
  let s1 := (GeminiService.onclose sid s).2 in
  GeminiService.isSessionActive sid s1 = false
  ∧ (∃ d1, JsMap.get sid (GeminiService.activeSessions s1) = Some d1
           ∧ GeminiService.session d1 = GeminiService.session d
           ∧ GeminiService.status d1 = GeminiService.disconnected
           ∧ GeminiService.setupComplete d1 = GeminiService.setupComplete d)
  ∧ (GeminiService.setupComplete d = true →
     GeminiService.calls (GeminiService.sendAudioChunk sid audio mime s1).2
     = GeminiService.calls s1
       ++ [GeminiService.SendRealtimeInput (GeminiService.ws (GeminiService.session d))
             audio mime]).
Proof.
  intros Hd s1.
  assert (Hs1 : JsMap.get sid (GeminiService.activeSessions s1)
                = Some {| GeminiService.session := GeminiService.session d;
                          GeminiService.callbacks := GeminiService.callbacks d;
                          GeminiService.createdAt := GeminiService.createdAt d;
                          GeminiService.teilNumber := GeminiService.teilNumber d;
                          GeminiService.status := GeminiService.disconnected;
                          GeminiService.setupComplete := GeminiService.setupComplete d |}).
  { subst s1. unfold GeminiService.onclose, GeminiService.call,
      GeminiService.activeSessions_set, mbind, M_bind, gets, modify. cbn.
    rewrite Hd. cbn. apply get_set_eq. }
  split; [|split].
  - unfold GeminiService.isSessionActive. rewrite Hs1. cbn. apply andb_false_r.
  - eexists. by split.
  - intros Hsc. unfold GeminiService.sendAudioChunk, GeminiService.session_sendRealtimeInput,
      GeminiService.call, mbind, M_bind, gets, modify, throw, mret, M_ret. cbn.
    rewrite Hs1. cbn. rewrite Hsc. cbn.
    by destruct (GeminiService.send_throws (GeminiService.session d)).
Qed.

Lemma provider_close_keeps_entry_witness :
  GeminiService.isSessionActive "exam-1"
    (GeminiService.onclose "exam-1" (geminiService Scenario.greeted)).2 = false.
Proof.
  exact (proj1 (provider_close_keeps_entry "exam-1" "AAAA" "audio/pcm;rate=16000"
                  {| GeminiService.session := Scenario.handle;
                     GeminiService.callbacks := SpeakingGateway.createGeminiCallbacks "c1" 0;
                     GeminiService.createdAt := 0;
                     GeminiService.teilNumber := 1;
                     GeminiService.status := GeminiService.connected;
                     GeminiService.setupComplete := true |}
                  (geminiService Scenario.greeted) eq_refl)).
Defined.

Lemma clear_idle_idleTimeouts client w :
  idleTimeouts (clear_idle client w) = JsMap.delete client (idleTimeouts w).
Proof.
  unfold clear_idle. destruct (JsMap.get client (idleTimeouts w)) eqn:Hi; cbn; [done|].
  by rewrite delete_absent.
Qed.

Lemma clear_idle_timers client w :
  timers (clear_idle client w) = clear_if (JsMap.get client (idleTimeouts w)) (timers w).
Proof. unfold clear_idle. by destruct (JsMap.get client (idleTimeouts w)). Qed.

Lemma forwardAudio_sent env client r audio c d W :
  heap W !! r = Some c →
  JsMap.get (sessionId c) (GeminiService.activeSessions (geminiService W)) = Some d →
  GeminiService.setupComplete d = true →
  GeminiService.status d = GeminiService.connected →
  GeminiService.send_throws (GeminiService.session d) = None →
  let res := SpeakingGateway.forwardAudio env client r audio W in
  res.1 = Ok tt
  ∧ out res.2 = out W
  ∧ heap res.2 = heap W
  ∧ sessions res.2 = sessions W
  ∧ idleTimeouts res.2 = JsMap.set client (nextTimer W) (idleTimeouts W)
  ∧ timers res.2
    = JsMap.set (nextTimer W) {| due := now env + 60000; body := idleTimeout r |} (timers W).
Proof.
  intros Hc Hd Hsc Hst Hsend res. subst res.
  assert (Hlt : r < length (heap W)) by (by eapply lookup_lt_Some).
  unfold SpeakingGateway.forwardAudio, GeminiService.isSessionActive.
  mrun with Hc Hd Hsc.
  unfold gemini, zoom, GeminiService.sendAudioChunk,
    GeminiService.session_sendRealtimeInput, GeminiService.call.
  by mrun with Hc Hd Hsc Hsend.
Qed.

Lemma forwardAudio_failed env client r audio c d e W :
  heap W !! r = Some c →
  JsMap.get (sessionId c) (GeminiService.activeSessions (geminiService W)) = Some d →
  GeminiService.setupComplete d = true →
  GeminiService.status d = GeminiService.connected →
  GeminiService.send_throws (GeminiService.session d) = Some e →
  let res := SpeakingGateway.forwardAudio env client r audio W in
  res.1 = Ok tt
  ∧ out res.2
    = out W ++ [Emit client (gemini_error "AUDIO_FORWARD_FAILED")]
        ++ flush (sessionId c) (conversationHistory c)
        ++ [UpdateExamSession (sessionId c) (interrupted_row env (elapsedSeconds c))]
  ∧ heap res.2 = <[r := set_status interrupted (set_lastGeminiError (Some e) c)]> (heap W)
  ∧ sessions res.2 = sessions W
  ∧ idleTimeouts res.2 = idleTimeouts W
  ∧ timers res.2 = timers W
  ∧ GeminiService.activeSessions (geminiService res.2)
    = GeminiService.activeSessions (geminiService W).
Proof.
  intros Hc Hd Hsc Hst Hsend res. subst res.
  assert (Hlt : r < length (heap W)) by (by eapply lookup_lt_Some).
  unfold SpeakingGateway.forwardAudio, GeminiService.isSessionActive.
  mrun with Hc Hd Hsc.
  unfold gemini, zoom, GeminiService.sendAudioChunk,
    GeminiService.session_sendRealtimeInput, GeminiService.call.
  mrun with Hc Hd Hsc Hsend.
  unfold SpeakingGateway.elapsed_of, interrupted_row. cbn.
  rewrite (decide_True (P := interrupted ≠ active)) by done.
  destruct (update_exam_session env); cbn;
    rewrite ?list_insert_insert_eq, <- ?app_assoc; done.
Qed.

Lemma clear_idle_upd_heap client f w :
  clear_idle client (upd_heap f w) = upd_heap f (clear_idle client w).
Proof. unfold clear_idle. cbn. by destruct (JsMap.get client (idleTimeouts w)). Qed.

Lemma upd_heap_insert_insert r (a b : SessionContext) w :
  upd_heap (λ h, <[r := a]> h) (upd_heap (λ h, <[r := b]> h) w)
  = upd_heap (λ h, <[r := a]> h) w.
Proof. unfold upd_heap. cbn. by rewrite list_insert_insert_eq. Qed.

Lemma handleAudioChunk_forwards env client payload audio r c w :
  JsMap.get client (sessions w) = Some r →
  heap w !! r = Some c →
  status c = active →
  truthy_str (data payload) = Some audio →
  isValidBase64 env audio = true →
  (Z.of_nat (String.length audio) ≤ SpeakingGateway.MAX_AUDIO_CHUNK_SIZE)%Z →
  length (filter (λ t, now env - t < 1000)%Z (chunkTimestamps c)) < 50 →
  (SpeakingGateway.forwardAudio env client r audio (recorded env client r c w)).1 = Ok tt →
  SpeakingGateway.handleAudioChunk env client payload w
  = SpeakingGateway.forwardAudio env client r audio (recorded env client r c w).
Proof.
  intros Hs Hr Hst Hdata Hb64 Hlen Hroom Hok.
  assert (Hlt : r < length (heap w)) by (by eapply lookup_lt_Some).
  unfold SpeakingGateway.handleAudioChunk, SpeakingGateway.rateLimit.
  mrun with Hs Hr Hdata Hb64.
  destruct (decide (status c ≠ active)) as [Hne|_]; [by rewrite Hst in Hne|].
  destruct (decide (SpeakingGateway.MAX_AUDIO_CHUNK_SIZE
                    < Z.of_nat (String.length audio))%Z) as [?|_]; [lia|].
  mrun with Hs Hr Hdata Hb64.
  destruct (decide (50 ≤ length (filter (λ t, now env - t < 1000)%Z (chunkTimestamps c))));
    [lia|]. mstep.
  unfold recorded, keep100 in *.
  destruct (bool_decide (100 < length (chunkTimestamps c ++ [now env]))) eqn:Hbig; mstep;
    rewrite ?upd_heap_insert_insert, ?clear_idle_upd_heap, ?upd_heap_insert_insert;
    unfold slice_last in *; destruct c;
    unfold set_chunkTimestamps, set_lastAudioTimestamp in *; cbn in *;
    (match type of Hok with
     | (SpeakingGateway.forwardAudio ?e ?cl ?r0 ?a ?W).1 = _ =>
         destruct (SpeakingGateway.forwardAudio e cl r0 a W) as [[[]|?] ?]
     end); cbn in *; done.
Qed.

Lemma recorded_heap env client r c w :
  r < length (heap w) →
  heap (recorded env client r c w) !! r
  = Some (set_chunkTimestamps (keep100 (chunkTimestamps c ++ [now env]))
            (set_lastAudioTimestamp (now env) c)).
Proof.
  intros Hlt. unfold recorded. cbn. rewrite clear_idle_heap.
  by apply list_lookup_insert_eq.
Qed.

(** A chunk that passes every check and is handed to the provider re-arms
    the idle timer: the socket's previous idle timer is cancelled and one
    new timer, due 60 s after the arrival, is pending for it.  Nothing is
    sent to the client. *)
Theorem accepted_chunk_rearms_idle_timer env client payload audio r c d w :
  JsMap.get client (sessions w) = Some r →
  heap w !! r = Some c →
  status c = active →
  truthy_str (data payload) = Some audio →
  isValidBase64 env audio = true →
  (Z.of_nat (String.length audio) ≤ SpeakingGateway.MAX_AUDIO_CHUNK_SIZE)%Z →
  length (filter (λ t, now env - t < 1000)%Z (chunkTimestamps c)) < 50 →
  JsMap.get (sessionId c) (GeminiService.activeSessions (geminiService w)) = Some d →
  GeminiService.setupComplete d = true →
  GeminiService.status d = GeminiService.connected →
  GeminiService.send_throws (GeminiService.session d) = None →
  let res := SpeakingGateway.handleAudioChunk env client payload w in
  res.1 = Ok tt
  ∧ out res.2 = out w
  ∧ idleTimeouts res.2
    = JsMap.set client (nextTimer w) (JsMap.delete client (idleTimeouts w))
  ∧ timers res.2
    = JsMap.set (nextTimer w) {| due := now env + 60000; body := idleTimeout r |}
        (clear_if (JsMap.get client (idleTimeouts w)) (timers w)).
Proof.
  intros Hs Hr Hst Hdata Hb64 Hlen Hroom Hd Hsc Hcon Hsend res. subst res.
  assert (Hlt : r < length (heap w)) by (by eapply lookup_lt_Some).
  pose proof (forwardAudio_sent env client r audio _ d (recorded env client r c w)
                (recorded_heap env client r c w Hlt)) as Hfwd.
  cbn in Hfwd. unfold recorded in Hfwd at 1. cbn in Hfwd.
  rewrite clear_idle_geminiService in Hfwd.
  specialize (Hfwd Hd Hsc Hcon Hsend) as (Hok & Hout & _ & _ & Hidle & Htimers).
  rewrite (handleAudioChunk_forwards env client payload audio r c w) by done.
  split; [done|]. rewrite Hout, Hidle, Htimers. unfold recorded. cbn.
  by rewrite clear_idle_out, clear_idle_idleTimeouts, clear_idle_timers, clear_idle_nextTimer.
Qed.

(** anna's chunk one second after admission: the new idle timer has
    handle 4 and is due at 61 s. *)
Lemma accepted_chunk_rearms_idle_timer_witness :
  let env := Scenario.env (Some (Scenario.exam None)) 1000 in
  let res := SpeakingGateway.handleAudioChunk env "c1" Scenario.chunk Scenario.greeted in
  res.1 = Ok tt
  ∧ out res.2 = out Scenario.greeted
  ∧ idleTimeouts res.2 = [("c1", 4)]
  ∧ timers res.2
    = JsMap.set 4 {| due := 61000; body := idleTimeout 0 |} (timers Scenario.greeted).
Proof.
  intros env res.
  destruct (accepted_chunk_rearms_idle_timer env "c1" Scenario.chunk "AAAA" 0
              Scenario.greeted_context
              {| GeminiService.session := Scenario.handle;
                 GeminiService.callbacks := SpeakingGateway.createGeminiCallbacks "c1" 0;
                 GeminiService.createdAt := 0;
                 GeminiService.teilNumber := 1;
                 GeminiService.status := GeminiService.connected;
                 GeminiService.setupComplete := true |}
              Scenario.greeted
              ltac:(by vm_compute) ltac:(by vm_compute) ltac:(by vm_compute)
              ltac:(by vm_compute) ltac:(by vm_compute) ltac:(vm_compute; discriminate)
              ltac:(vm_compute; lia) ltac:(by vm_compute) ltac:(by vm_compute)
              ltac:(by vm_compute) ltac:(by vm_compute))
    as (H1 & H2 & H3 & H4).
  subst res. split; [exact H1|]. split; [exact H2|].
  split; [rewrite H3|rewrite H4]; vm_compute; reflexivity.
Defined.

(** When the provider's send throws, the handler still returns and the
    context is set to interrupted and keeps the error text.  Nothing is
    torn down: the session stays registered, the adapter keeps its entry,
    the exam timers stay pending; only the idle timer is gone, and none is
    armed again. *)
Theorem send_failure_interrupts_session env client payload audio r c d e w :
  JsMap.get client (sessions w) = Some r →
  heap w !! r = Some c →
  status c = active →
  truthy_str (data payload) = Some audio →
  isValidBase64 env audio = true →
  (Z.of_nat (String.length audio) ≤ SpeakingGateway.MAX_AUDIO_CHUNK_SIZE)%Z →
  length (filter (λ t, now env - t < 1000)%Z (chunkTimestamps c)) < 50 →
  JsMap.get (sessionId c) (GeminiService.activeSessions (geminiService w)) = Some d →
  GeminiService.setupComplete d = true →
  GeminiService.status d = GeminiService.connected →
  GeminiService.send_throws (GeminiService.session d) = Some e →
  let res := SpeakingGateway.handleAudioChunk env client payload w in
  res.1 = Ok tt
  ∧ status <$> heap res.2 !! r = Some interrupted
  ∧ lastGeminiError <$> heap res.2 !! r = Some (Some e)
  ∧ sessions res.2 = sessions w
  ∧ JsMap.get (sessionId c) (GeminiService.activeSessions (geminiService res.2)) = Some d
  ∧ timers res.2 = clear_if (JsMap.get client (idleTimeouts w)) (timers w)
  ∧ JsMap.get client (idleTimeouts res.2) = None.
Proof.
  intros Hs Hr Hst Hdata Hb64 Hlen Hroom Hd Hsc Hcon Hsend res. subst res.
  assert (Hlt : r < length (heap w)) by (by eapply lookup_lt_Some).
  pose proof (forwardAudio_failed env client r audio _ d e (recorded env client r c w)
                (recorded_heap env client r c w Hlt)) as Hfwd.
  cbn in Hfwd. unfold recorded in Hfwd at 1. cbn in Hfwd.
  rewrite clear_idle_geminiService in Hfwd.
  specialize (Hfwd Hd Hsc Hcon Hsend) as (Hok & _ & Hheap & Hsess & Hidle & Htm & Hact).
  rewrite (handleAudioChunk_forwards env client payload audio r c w) by done.
  split; [done|]. rewrite Hheap, Hsess, Hidle, Htm, Hact. unfold recorded. cbn.
  rewrite ?clear_idle_timers, ?clear_idle_idleTimeouts, ?clear_idle_heap,
    ?clear_idle_sessions, ?clear_idle_geminiService, ?Hd, ?get_delete_eq.
  rewrite ?list_lookup_insert_eq by (by rewrite ?length_insert).
  done.
Qed.

(** The provider handle of anna's session refuses every send.  Her chunk
    5 s after admission leaves the session registered and interrupted,
    with the adapter session still active and the four exam timers
    pending. *)
Lemma send_failure_interrupts_session_witness :
  let broken := {| GeminiService.ws := 1; GeminiService.close_throws := None;
                   GeminiService.send_throws := Some "WebSocket is not open" |} in
  let env t := {| now := t;
                  jwt_verify := jwt_verify (Scenario.env None 0);
                  select_exam_session :=
                    select_exam_session (Scenario.env (Some (Scenario.exam None)) 0);
                  select_student := select_student (Scenario.env None 0);
                  select_activation_code := select_activation_code (Scenario.env None 0);
                  select_transcript := select_transcript (Scenario.env None 0);
                  update_exam_session := Db.Resolved None None;
                  upsert_transcript := Db.Resolved None None;
                  gemini_setup := GeminiService.SetupCompleted broken;
                  isValidBase64 := λ _, true |} in
  let w := run (initial Scenario.prompts)
             [(env 0%Z, Connection (Scenario.socket "c1" "anna-token" (Some "exam-1")))] in
  let res := SpeakingGateway.handleAudioChunk (env 5000%Z) "c1" Scenario.chunk w in
  res.1 = Ok tt
  ∧ status <$> heap res.2 !! 0 = Some interrupted
  ∧ lastGeminiError <$> heap res.2 !! 0 = Some (Some "WebSocket is not open")
  ∧ sessions res.2 = [("c1", 0)]
  ∧ GeminiService.isSessionActive "exam-1" (geminiService res.2) = true
  ∧ timers res.2 = timers w
  ∧ JsMap.get "c1" (idleTimeouts res.2) = None.
Proof.
  intros broken env w res.
  destruct (send_failure_interrupts_session (env 5000%Z) "c1" Scenario.chunk "AAAA" 0
              (set_timerHandles [0; 1; 2; 3]
                 (SpeakingGateway.newSessionContext (env 0%Z) "c1" "exam-1"
                    (Scenario.exam None)))
              {| GeminiService.session := broken;
                 GeminiService.callbacks := SpeakingGateway.createGeminiCallbacks "c1" 0;
                 GeminiService.createdAt := 0;
                 GeminiService.teilNumber := 1;
                 GeminiService.status := GeminiService.connected;
                 GeminiService.setupComplete := true |}
              "WebSocket is not open" w
              ltac:(by vm_compute) ltac:(by vm_compute) ltac:(by vm_compute)
              ltac:(by vm_compute) ltac:(by vm_compute) ltac:(vm_compute; discriminate)
              ltac:(vm_compute; lia) ltac:(by vm_compute) ltac:(by vm_compute)
              ltac:(by vm_compute) ltac:(by vm_compute))
    as (H1 & H2 & H3 & H4 & H5 & H6 & H7).
  subst res. split; [exact H1|]. split; [exact H2|]. split; [exact H3|].
  split; [rewrite H4; vm_compute; reflexivity|].
  split; [|split; [rewrite H6; vm_compute; reflexivity|exact H7]].
  unfold GeminiService.isSessionActive.
  change (JsMap.get "exam-1" _) with
    (JsMap.get (sessionId (set_timerHandles [0; 1; 2; 3]
                  (SpeakingGateway.newSessionContext (env 0%Z) "c1" "exam-1"
                     (Scenario.exam None))))
       (GeminiService.activeSessions
          (geminiService
             (SpeakingGateway.handleAudioChunk (env 5000%Z) "c1" Scenario.chunk w).2))).
  rewrite H5. reflexivity.
Defined.

(** ** Messages of the provider *)

Section live_message.
Import GeminiLive.
Context (env : Env) (cbs : GeminiSessionCallbacks).

Lemma onAudioResponse_run response c w :
  cb_client cbs ∈ connectedSockets w →
  heap w !! cb_context cbs = Some c →
  SpeakingGateway.onAudioResponse env cbs response w
  = (Ok tt,
     upd_heap (λ h, <[cb_context cbs :=
                       set_conversationHistory
                         (conversationHistory c ++ [noted_turn env response]) c]> h)
       (upd_out (λ o, o ++ [delivered env (cb_client cbs) response]) w)).
Proof.
  intros Hconn Hc. unfold SpeakingGateway.onAudioResponse. by mrun with Hc.
Qed.

Lemma onAudioResponse_disconnected response w :
  cb_client cbs ∉ connectedSockets w →
  SpeakingGateway.onAudioResponse env cbs response w = (Ok tt, w).
Proof. intros Hconn. unfold SpeakingGateway.onAudioResponse. by mstep. Qed.

Lemma responses_cons part parts :
  responses (part :: parts) = responses [part] ++ responses parts.
Proof. unfold responses. cbn. by rewrite app_nil_r. Qed.

(** The loop over the parts, for a connected client. *)
Lemma parts_run parts : ∀ w c,
  cb_client cbs ∈ connectedSockets w →
  heap w !! cb_context cbs = Some c →
  ∃ w',
    for_each parts (λ part,
      match truthy_str (part_text part) with
      | Some text =>
          SpeakingGateway.onAudioResponse env cbs
            {| r_text := Some text; r_audioData := None; r_audioMimeType := None |}
      | None => mret tt
      end;;
      match part_inlineData part with
      | Some inlineData =>
          match truthy_str (blob_data inlineData) with
          | Some data =>
              SpeakingGateway.onAudioResponse env cbs
                {| r_text := None;
                   r_audioData := Some data;
                   r_audioMimeType :=
                     or_str (blob_mimeType inlineData) (Some "audio/pcm;rate=24000") |}
          | None => mret tt
          end
      | None => mret tt
      end) w = (Ok tt, w')
    ∧ out w' = out w ++ (delivered env (cb_client cbs) <$> responses parts)
    ∧ heap w'
      = <[cb_context cbs :=
            set_conversationHistory
              (conversationHistory c ++ (noted_turn env <$> responses parts)) c]> (heap w)
    ∧ connectedSockets w' = connectedSockets w
    ∧ sessions w' = sessions w
    ∧ timers w' = timers w
    ∧ geminiService w' = geminiService w.
Proof.
  induction parts as [|part parts IH]; intros w c Hconn Hc.
  - exists w. cbn. rewrite !app_nil_r. repeat split; try done.
    rewrite list_insert_id; [done|]. rewrite Hc. by destruct c.
  - assert (Hlt : cb_context cbs < length (heap w)) by (by eapply lookup_lt_Some).
    rewrite responses_cons, !fmap_app.
    cbn [for_each]. unfold mbind at 1, M_bind at 1.
    assert (∃ w1 c1,
      (match truthy_str (part_text part) with
       | Some text =>
           SpeakingGateway.onAudioResponse env cbs
             {| r_text := Some text; r_audioData := None; r_audioMimeType := None |}
       | None => mret tt
       end;;
       match part_inlineData part with
       | Some inlineData =>
           match truthy_str (blob_data inlineData) with
           | Some data =>
               SpeakingGateway.onAudioResponse env cbs
                 {| r_text := None;
                    r_audioData := Some data;
                    r_audioMimeType :=
                      or_str (blob_mimeType inlineData) (Some "audio/pcm;rate=24000") |}
           | None => mret tt
           end
       | None => mret tt
       end) w = (Ok tt, w1)
      ∧ c1 = set_conversationHistory
               (conversationHistory c ++ (noted_turn env <$> responses [part])) c
      ∧ heap w1 = <[cb_context cbs := c1]> (heap w)
      ∧ out w1 = out w ++ (delivered env (cb_client cbs) <$> responses [part])
      ∧ connectedSockets w1 = connectedSockets w
      ∧ sessions w1 = sessions w
      ∧ timers w1 = timers w
      ∧ geminiService w1 = geminiService w) as (w1 & c1 & -> & Hc1 & Hh1 & Ho1 & Hs1 & Hss1 & Ht1 & Hg1).
    { unfold responses. cbn [mbind list_bind]. rewrite app_nil_r.
      unfold mbind, M_bind, mret, M_ret.
      destruct (truthy_str (part_text part)) as [text|];
        [rewrite (onAudioResponse_run _ c w Hconn Hc)|];
        (destruct (part_inlineData part) as [inlineData|];
         [destruct (truthy_str (blob_data inlineData)) as [data|]|]);
        cbv beta iota;
        try (erewrite onAudioResponse_run;
             [|done|first [exact Hc|cbn; by apply list_lookup_insert_eq]]);
        eexists _, _; (split; [reflexivity|]); cbn;
        rewrite ?list_insert_insert_eq, ?app_nil_r, <- ?app_assoc;
        repeat split; try done;
        try (rewrite list_insert_id; [done|]; rewrite Hc; by destruct c);
        by destruct c. }
    destruct (IH w1 c1) as (w' & -> & Ho & Hh & Hs & Hss & Ht & Hg).
    { by rewrite Hs1. }
    { rewrite Hh1. by apply list_lookup_insert_eq. }
    exists w'. split; [done|].
    rewrite Ho, Hh, Hs, Hss, Ht, Hg, Ho1, Hh1, Hs1, Hss1, Ht1, Hg1, list_insert_insert_eq.
    subst c1. rewrite <- !app_assoc. repeat split; try done.
    destruct c; unfold set_conversationHistory; cbn -[responses].
    by rewrite <- app_assoc.
Qed.
End live_message.

Lemma parts_run_disconnected env cbs parts w :
  cb_client cbs ∉ connectedSockets w →
  for_each parts (λ part,
    match truthy_str (GeminiLive.part_text part) with
    | Some text =>
        SpeakingGateway.onAudioResponse env cbs
          {| r_text := Some text; r_audioData := None; r_audioMimeType := None |}
    | None => mret tt
    end;;
    match GeminiLive.part_inlineData part with
    | Some inlineData =>
        match truthy_str (GeminiLive.blob_data inlineData) with
        | Some data =>
            SpeakingGateway.onAudioResponse env cbs
              {| r_text := None;
                 r_audioData := Some data;
                 r_audioMimeType :=
                   or_str (GeminiLive.blob_mimeType inlineData)
                     (Some "audio/pcm;rate=24000") |}
        | None => mret tt
        end
    | None => mret tt
    end) w = (Ok tt, w).
Proof.
  intros Hconn. induction parts as [|part parts IH]; [done|].
  cbn [for_each]. unfold mbind, M_bind, mret, M_ret in *.
  destruct (truthy_str (GeminiLive.part_text part));
    (destruct (GeminiLive.part_inlineData part) as [inlineData|];
     [destruct (truthy_str (GeminiLive.blob_data inlineData))|]);
    rewrite ?onAudioResponse_disconnected by done; cbv beta iota;
    rewrite ?onAudioResponse_disconnected by done; cbv beta iota;
    exact IH.
Qed.

(** A content message for a connected client: every non-empty text and
    every non-empty inline audio of its parts is sent to the client as one
    audio_response, in order, and each adds one examiner turn to the
    history of the context, an audio one under the placeholder text.  The
    transcriptions carried by the message are ignored and the adapter is
    left as it was. *)
Theorem content_message_is_delivered env sid message cbs settle parts c w :
  GeminiLive.msg_setupComplete message = false →
  GeminiLive.msg_parts message = Some parts →
  cb_client cbs ∈ connectedSockets w →
  heap w !! cb_context cbs = Some c →
  let res := GeminiLive.handleLiveMessage env sid message cbs settle w in
  res.1 = Ok tt
  ∧ out res.2
    = out w ++ (GeminiLive.delivered env (cb_client cbs) <$> GeminiLive.responses parts)
  ∧ heap res.2
    = <[cb_context cbs :=
          set_conversationHistory
            (conversationHistory c
               ++ (GeminiLive.noted_turn env <$> GeminiLive.responses parts)) c]> (heap w)
  ∧ geminiService res.2 = geminiService w.
Proof.
  intros Hsetup Hparts Hconn Hc res. subst res.
  destruct (parts_run env cbs parts w c Hconn Hc) as (w' & Hrun & Ho & Hh & _ & _ & _ & Hg).
  assert (GeminiLive.handleLiveMessage env sid message cbs settle w = (Ok tt, w')) as ->.
  { unfold GeminiLive.handleLiveMessage, try_catch. rewrite Hsetup, Hparts.
    unfold mbind at 1, M_bind at 1. rewrite Hrun.
    by destruct (truthy_str (GeminiLive.msg_inputTranscription message)),
      (truthy_str (GeminiLive.msg_outputTranscription message)). }
  cbn. by rewrite Ho, Hh, Hg.
Qed.

(** One part with the text "Guten Tag" and inline audio without a MIME
    type reaches anna as two events and two turns. *)
Lemma content_message_is_delivered_witness :
  let env := Scenario.env (Some (Scenario.exam None)) 500 in
  let part := {| GeminiLive.part_text := Some "Guten Tag";
                 GeminiLive.part_inlineData :=
                   Some {| GeminiLive.blob_data := Some "UklGRg";
                           GeminiLive.blob_mimeType := None |} |} in
  let message := {| GeminiLive.msg_setupComplete := false;
                    GeminiLive.msg_parts := Some [part];
                    GeminiLive.msg_inputTranscription := Some "Hallo";
                    GeminiLive.msg_outputTranscription := None |} in
  let res := GeminiLive.handleLiveMessage env "exam-1" message
               (SpeakingGateway.createGeminiCallbacks "c1" 0) (mret tt)
               (Scenario.joined None) in
  res.1 = Ok tt
  ∧ out res.2
    = out (Scenario.joined None)
      ++ [Emit "c1" (audio_response (Some "Guten Tag") None None 500);
          Emit "c1" (audio_response None (Some "UklGRg") (Some "audio/pcm;rate=24000") 500)]
  ∧ conversationHistory <$> heap res.2 !! 0
    = Some [{| speaker := elena; text := "Guten Tag"; timestamp := 500 |};
            {| speaker := elena; text := "[Audio response received]"; timestamp := 500 |}].
Proof.
  intros env part message res.
  destruct (content_message_is_delivered env "exam-1" message
              (SpeakingGateway.createGeminiCallbacks "c1" 0) (mret tt) [part]
              (set_timerHandles [0; 1; 2; 3]
                 (SpeakingGateway.newSessionContext
                    (Scenario.env (Some (Scenario.exam None)) 0) "c1" "exam-1"
                    (Scenario.exam None)))
              (Scenario.joined None)
              eq_refl eq_refl ltac:(vm_compute; apply list_elem_of_here)
              ltac:(by vm_compute))
    as (H1 & H2 & H3 & _).
  subst res. split; [exact H1|]. split; [rewrite H2|rewrite H3]; vm_compute; reflexivity.
Defined.

(** While the socket is not connected a content message changes nothing:
    the examiner's turn is neither sent nor recorded in the history. *)
Theorem content_message_dropped_when_disconnected env sid message cbs settle w :
  GeminiLive.msg_setupComplete message = false →
  cb_client cbs ∉ connectedSockets w →
  GeminiLive.handleLiveMessage env sid message cbs settle w = (Ok tt, w).
Proof.
  intros Hsetup Hconn.
  unfold GeminiLive.handleLiveMessage, try_catch. rewrite Hsetup.
  unfold mbind at 1, M_bind at 1.
  destruct (GeminiLive.msg_parts message) as [parts|];
    [rewrite parts_run_disconnected by done|];
    by destruct (truthy_str (GeminiLive.msg_inputTranscription message)),
      (truthy_str (GeminiLive.msg_outputTranscription message)).
Qed.

(** anna's socket has dropped; the examiner's next sentence is lost. *)
Lemma content_message_dropped_when_disconnected_witness :
  let env := Scenario.env (Some (Scenario.exam None)) 101000 in
  let message := {| GeminiLive.msg_setupComplete := false;
                    GeminiLive.msg_parts :=
                      Some [{| GeminiLive.part_text := Some "Sind Sie noch da?";
                               GeminiLive.part_inlineData := None |}];
                    GeminiLive.msg_inputTranscription := None;
                    GeminiLive.msg_outputTranscription := None |} in
  GeminiLive.handleLiveMessage env "exam-1" message
    (SpeakingGateway.createGeminiCallbacks "c1" 0) (mret tt) Scenario.dropped
  = (Ok tt, Scenario.dropped).
Proof.
  intros env message.
  apply (content_message_dropped_when_disconnected env "exam-1" message
           (SpeakingGateway.createGeminiCallbacks "c1" 0) (mret tt) Scenario.dropped eq_refl).
  vm_compute. by intros ?%elem_of_nil.
Defined.

(** ** The adapter callbacks after a reconnection *)

Lemma reconnection_keeps_adapter env (client : Socket) sid token payload
    oldClientId r c t w :
  truthy_str (query_sessionId (handshake client)) = Some sid →
  SpeakingGateway.handshake_token (handshake client) = Some token →
  jwt_verify env token = Some payload →
  SpeakingGateway.find_entry sid (heap w) (sessions w) = Some (oldClientId, r) →
  heap w !! r = Some c →
  disconnectTimer c = Some t →
  studentId c = TokenService.studentId payload →
  let w' := (SpeakingGateway.handleConnection env client w).2 in
  geminiService w' = geminiService w ∧ connectedSockets w' = connectedSockets w.
Proof.
  intros Hsid Htok Hjwt Hfind Hr Ht Hown w'. subst w'.
  assert (Hlt : r < length (heap w)) by (by eapply lookup_lt_Some).
  unfold SpeakingGateway.handleConnection, SpeakingGateway.reconnect,
    TokenService.verifyAccessToken.
  mrun with Hsid Htok Hjwt Hfind Hr Ht.
  rewrite ?decide_False by auto. by mrun with Hr.
Qed.

(** The callbacks of the adapter session are those built at the first
    connection; a reconnection does not rebuild them.  After the owner has
    reconnected on a new socket, a response of the provider is still
    addressed to the old socket, which is gone: it changes nothing, the
    new socket gets no audio_response and the history gets no turn. *)
Theorem reconnected_socket_gets_no_response env (client : Socket) sid token payload
    oldClientId r c t d w :
  truthy_str (query_sessionId (handshake client)) = Some sid →
  SpeakingGateway.handshake_token (handshake client) = Some token →
  jwt_verify env token = Some payload →
  SpeakingGateway.find_entry sid (heap w) (sessions w) = Some (oldClientId, r) →
  heap w !! r = Some c →
  disconnectTimer c = Some t →
  studentId c = TokenService.studentId payload →
  JsMap.get sid (GeminiService.activeSessions (geminiService w)) = Some d →
  GeminiService.callbacks d = SpeakingGateway.createGeminiCallbacks oldClientId r →
  oldClientId ∉ connectedSockets w →
  let w' := (SpeakingGateway.handleConnection env client w).2 in
  ∀ env' response, dispatch env' (GeminiAudioResponse sid response) w' = (Ok tt, w').
Proof.
  intros Hsid Htok Hjwt Hfind Hr Ht Hown Hd Hcbs Hgone w' env' response.
  destruct (reconnection_keeps_adapter env client sid token payload oldClientId r c t w)
    as [Hg Hconn]; try done.
  fold w' in Hg, Hconn.
  unfold dispatch, mbind, M_bind, gets. cbn. rewrite Hg, Hd.
  apply onAudioResponse_disconnected. by rewrite Hcbs, Hconn.
Qed.

(** anna comes back on socket "c2" within the grace period; the
    examiner's next sentence reaches nobody. *)
Lemma reconnected_socket_gets_no_response_witness :
  let env := Scenario.env (Some (Scenario.exam None)) 101000 in
  let client := Scenario.socket "c2" "anna-token" (Some "exam-1") in
  let w := upd_connectedSockets (λ cs, cs ++ ["c2"]) Scenario.dropped in
  let w' := (SpeakingGateway.handleConnection env client w).2 in
  sessions w' = [("c2", 0)]
  ∧ dispatch (Scenario.env (Some (Scenario.exam None)) 102000)
      (GeminiAudioResponse "exam-1" Scenario.hello) w' = (Ok tt, w').
Proof.
  intros env client w w'. split; [vm_compute; reflexivity|].
  apply (reconnected_socket_gets_no_response env client "exam-1" "anna-token" Scenario.anna
           "c1" 0 Scenario.dropped_context 4
           {| GeminiService.session := Scenario.handle;
              GeminiService.callbacks := SpeakingGateway.createGeminiCallbacks "c1" 0;
              GeminiService.createdAt := 0;
              GeminiService.teilNumber := 1;
              GeminiService.status := GeminiService.connected;
              GeminiService.setupComplete := true |} w);
    try (by vm_compute).
  vm_compute. intros [?|?%elem_of_nil]%elem_of_cons; [discriminate|done].
Defined.
